(** * DW-MAKNet: the centred-window sequence remapping of [C_SS2D]

    A shallow embedding of [rearrange_center_blocks], [recover_window_lr],
    [recover_window_ud] and [recover_center_blocks] of
    [nnunetv2/nets/DWMAKNet.py], with the tensor operations they call.

    Conventions.  The four functions act on the last two axes of a tensor
    (or on the last one) and repeat the same work for every batch element,
    so one batch element is modelled (B = 1): a torch tensor of shape
    (B, C, H, W) is a [tensor3] and one of shape (B, C, L) a [tensor2].
    The shape a tensor carries is recorded next to its data, as
    [x.shape] is read by the code.  Python integers are [Z]; [//] is [Z.div]
    (both round towards minus infinity).

    Further parts of the file follow the four functions: the pipeline of
    [C_SS2D.forward], the gathering of [PatchMerging2D.forward], the window
    rearrangement of [W_SS2D.forward_core] and [W_SS2D.forward] on tensors
    of any rank, the module lists that [DWMAKNetEncoder.__init__] builds,
    and the skips that [DWMAKNetEncoder.forward] hands to
    [DWMAKNetDecoder.forward]. *)

From Stdlib Require Import String.
From Stdlib Require Import List ZArith Lia Bool Permutation Arith.
Import ListNotations.

Set Implicit Arguments.

(** ** Outcomes of a call *)

Inductive exn : Type :=
| UnboundLocalError (name : string)   (* a local variable read before it is bound *)
| IndexError                          (* list or tensor index out of range *)
| RuntimeError.                       (* torch refuses a shape *)

Inductive result (T : Type) : Type :=
| Ok (v : T)
| Raise (e : exn).

Arguments Ok {T} v.
Arguments Raise {T} e.

Definition bind {T U : Type} (m : result T) (f : T -> result U) : result U :=
  match m with
  | Ok v => f v
  | Raise e => Raise e
  end.

Notation "x <- m ;; k" := (bind m (fun x => k))
  (at level 61, m at next level, right associativity).

Fixpoint mapM {T U : Type} (f : T -> result U) (l : list T) : result (list U) :=
  match l with
  | [] => Ok []
  | a :: l' => b <- f a ;; bs <- mapM f l' ;; Ok (b :: bs)
  end.

(** ** Python slices [a:b] (step 1) *)

(** An omitted bound is [None]. *)
Definition extent : Type := (option Z * option Z)%type.

(** A bound is taken from the end when negative and clipped to [0, n]. *)
Definition clamp_index (n : nat) (i : Z) : nat :=
  if (i <? 0)%Z then Z.to_nat (i + Z.of_nat n) else Nat.min (Z.to_nat i) n.

Definition slice_bounds (n : nat) (e : extent) : nat * nat :=
  (match fst e with None => 0 | Some a => clamp_index n a end,
   match snd e with None => n | Some b => clamp_index n b end).

Definition slice_len (n : nat) (e : extent) : nat :=
  snd (slice_bounds n e) - fst (slice_bounds n e).

Definition slice {A : Type} (e : extent) (l : list A) : list A :=
  firstn (slice_len (length l) e) (skipn (fst (slice_bounds (length l) e)) l).

(** ** Lists of rows *)

Fixpoint map2 {A B C : Type} (f : A -> B -> C) (l : list A) (m : list B) : list C :=
  match l, m with
  | a :: l', b :: m' => f a b :: map2 f l' m'
  | _, _ => []
  end.

(** [h] rows of [w] consecutive elements: a row-major reshape to (h, w). *)
Fixpoint chunks {A : Type} (h w : nat) (l : list A) : list (list A) :=
  match h with
  | O => []
  | S h' => firstn w l :: chunks h' w (skipn w l)
  end.

(** The transpose of a plane whose rows have width [w]. *)
Fixpoint transpose {A : Type} (w : nat) (m : list (list A)) : list (list A) :=
  match m with
  | [] => repeat [] w
  | r :: m' => map2 cons r (transpose w m')
  end.

(** Rows [rows] and columns [cols] of a plane: [p[r0:r1, c0:c1]]. *)
Definition crop_plane {A : Type} (rows cols : extent) (p : list (list A))
  : list (list A) :=
  map (slice cols) (slice rows p).

(** ** Tensors *)

(** A tensor of shape (B, C, L), B = 1: [t2_C] rows of length [t2_L]. *)
Record tensor2 (A : Type) : Type := T2
  { t2_C : nat; t2_L : nat; t2_data : list (list A) }.

(** A tensor of shape (B, C, H, W), B = 1: [t3_C] planes of [t3_H] rows of
    length [t3_W].  The stack of the four sequences, of shape (B, 4, C, L),
    is such a tensor too: [t3_C] then counts the directions, [t3_H] the
    channels and [t3_W] the positions. *)

Record tensor3 (A : Type) : Type := T3
  { t3_C : nat; t3_H : nat; t3_W : nat; t3_data : list (list (list A)) }.

Definition rows_ok {A : Type} (n len : nat) (rows : list (list A)) : Prop :=
  length rows = n /\ Forall (fun r => length r = len) rows.

Definition wf2 {A : Type} (t : tensor2 A) : Prop :=
  rows_ok (t2_C t) (t2_L t) (t2_data t).

Definition wf3 {A : Type} (t : tensor3 A) : Prop :=
  length (t3_data t) = t3_C t /\
  Forall (rows_ok (t3_H t) (t3_W t)) (t3_data t).

Section TorchOps.
Context {A : Type}.

(** [x[:, :, r0:r1, c0:c1]] *)
Definition crop (w : extent * extent) (x : tensor3 A) : tensor3 A :=
  T3 (t3_C x) (slice_len (t3_H x) (fst w)) (slice_len (t3_W x) (snd w))
     (map (crop_plane (fst w) (snd w)) (t3_data x)).

(** [x[:, :, a:b]] *)
Definition slice_last (e : extent) (x : tensor2 A) : tensor2 A :=
  T2 (t2_C x) (slice_len (t2_L x) e) (map (slice e) (t2_data x)).

(** [x.reshape(B, C, -1)] and [x.contiguous().view(B, C, -1)]: the last
    axis is inferred, which torch refuses when the known axes multiply to
    zero. *)
Definition flatten3 (x : tensor3 A) : result (tensor2 A) :=
  if (t3_C x =? 0)%nat then Raise RuntimeError
  else Ok (T2 (t3_C x) (t3_H x * t3_W x) (map (@concat A) (t3_data x))).

(** [x.transpose(2, 3)] *)
Definition transpose23 (x : tensor3 A) : tensor3 A :=
  T3 (t3_C x) (t3_W x) (t3_H x) (map (transpose (t3_W x)) (t3_data x)).

(** [x.reshape(B, C, h, w)]: a negative size is refused (the first
    reshape of both recoverers has two equal sizes, so that no call with
    a single inferred axis is ever reached), and the number of elements
    must be kept. *)
Definition reshape_hw (x : tensor2 A) (h w : Z) : result (tensor3 A) :=
  if ((h <? 0) || (w <? 0))%Z then Raise RuntimeError
  else if (Z.of_nat (t2_C x * t2_L x) =? Z.of_nat (t2_C x) * (h * w))%Z
       then Ok (T3 (t2_C x) (Z.to_nat h) (Z.to_nat w)
                   (map (chunks (Z.to_nat h) (Z.to_nat w)) (t2_data x)))
       else Raise RuntimeError.

(** [torch.cat((a, b), dim=-1)] on (B, C, L) tensors *)
Definition cat_last2 (a b : tensor2 A) : result (tensor2 A) :=
  if (t2_C a =? t2_C b)%nat
  then Ok (T2 (t2_C a) (t2_L a + t2_L b)
              (map2 (@app A) (t2_data a) (t2_data b)))
  else Raise RuntimeError.

(** [torch.cat(ts, dim=-1)]; an empty list is refused. *)
Definition cat_last (ts : list (tensor2 A)) : result (tensor2 A) :=
  match ts with
  | [] => Raise RuntimeError
  | t :: ts' => fold_left (fun acc u => a <- acc ;; cat_last2 a u) ts' (Ok t)
  end.

(** [torch.cat((a, b), dim=3)]: side by side *)
Definition cat_dim3 (a b : tensor3 A) : result (tensor3 A) :=
  if ((t3_C a =? t3_C b) && (t3_H a =? t3_H b))%nat
  then Ok (T3 (t3_C a) (t3_H a) (t3_W a + t3_W b)
              (map2 (map2 (@app A)) (t3_data a) (t3_data b)))
  else Raise RuntimeError.

(** [torch.cat((a, b), dim=2)]: one above the other *)
Definition cat_dim2 (a b : tensor3 A) : result (tensor3 A) :=
  if ((t3_C a =? t3_C b) && (t3_W a =? t3_W b))%nat
  then Ok (T3 (t3_C a) (t3_H a + t3_H b) (t3_W a)
              (map2 (@app (list A)) (t3_data a) (t3_data b)))
  else Raise RuntimeError.

Definition cat3 (cat : tensor3 A -> tensor3 A -> result (tensor3 A))
           (a b c : tensor3 A) : result (tensor3 A) :=
  ab <- cat a b ;; cat ab c.

(** [torch.flip(x, dims=[-1])] *)
Definition flip (x : tensor2 A) : tensor2 A :=
  T2 (t2_C x) (t2_L x) (map (@rev A) (t2_data x)).

Definition same_shape2 (a b : tensor2 A) : bool :=
  ((t2_C a =? t2_C b) && (t2_L a =? t2_L b))%nat.

(** [torch.stack(os, dim=1).view(B, 4, -1, L)]: the stacked tensors must
    agree in shape; the view keeps the element order and regroups every
    direction into rows of length [L]. *)
Definition stack_view (L : nat) (os : list (tensor2 A)) : result (tensor3 A) :=
  match os with
  | [] => Raise RuntimeError
  | o :: _ =>
      if negb (forallb (same_shape2 o) os) then Raise RuntimeError
      else
        let numel := (length os * t2_C o * t2_L o)%nat in
        let known := (length os * L)%nat in
        if (known =? 0)%nat then Raise RuntimeError
        else if negb (numel mod known =? 0)%nat then Raise RuntimeError
        else
          let X := (numel / known)%nat in
          Ok (T3 (length os) X L
                 (map (fun t => chunks X L (concat (t2_data t))) os))
  end.

(** [x[:, k, :, :]] *)
Definition select (k : nat) (x : tensor3 A) : result (tensor2 A) :=
  match nth_error (t3_data x) k with
  | Some rows => Ok (T2 (t3_H x) (t3_W x) rows)
  | None => Raise IndexError
  end.

(** [x.reshape(B, -1, L)] on a (B, C, L) tensor *)
Definition reshape_BL (L : nat) (x : tensor2 A) : result (tensor2 A) :=
  let numel := (t2_C x * t2_L x)%nat in
  if (L =? 0)%nat then Raise RuntimeError
  else if negb (numel mod L =? 0)%nat then Raise RuntimeError
  else Ok (T2 (numel / L) L (chunks (numel / L) L (concat (t2_data x)))).

(** [flattened[i] = v] *)
Definition list_assign {T : Type} (i : nat) (v : T) (l : list T) : result (list T) :=
  if (i <? length l)%nat then Ok (firstn i l ++ v :: skipn (S i) l)
  else Raise IndexError.

Variable add : A -> A -> A.

(** [a + b].  Both sums of [recover_center_blocks] add tensors of one
    shape, so that torch never has to broadcast; other shapes are taken as
    an error. *)
Definition add2 (a b : tensor2 A) : result (tensor2 A) :=
  if same_shape2 a b
  then Ok (T2 (t2_C a) (t2_L a) (map2 (map2 add) (t2_data a) (t2_data b)))
  else Raise RuntimeError.

Definition add3 (a b : tensor3 A) : result (tensor3 A) :=
  if ((t3_C a =? t3_C b) && (t3_H a =? t3_H b) && (t3_W a =? t3_W b))%nat
  then Ok (T3 (t3_C a) (t3_H a) (t3_W a)
              (map2 (map2 (map2 add)) (t3_data a) (t3_data b)))
  else Raise RuntimeError.

End TorchOps.

(** ** The nine regions around the centred window *)

(** The regions; each is held by one local variable of
    [rearrange_center_blocks], named by [region_name]. *)
Inductive region : Type :=
| TopLeft | Top | TopRight
| Left | Center | Right
| BottomLeft | Bottom | BottomRight.

Definition region_name (r : region) : string :=
  match r with
  | TopLeft => "top_left" | Top => "top" | TopRight => "top_right"
  | Left => "left" | Center => "center_block" | Right => "right"
  | BottomLeft => "bottom_left" | Bottom => "bottom"
  | BottomRight => "bottom_right"
  end.

Section Regions.
Variables H W kernel : Z.

Definition h_center : Z := ((H - kernel) / 2)%Z.
Definition w_center : Z := ((W - kernel) / 2)%Z.

(** The condition under which a block variable is bound and appended to
    [blocks_lr]; [center_block] is bound unconditionally. *)
Definition guard (r : region) : bool :=
  match r with
  | TopLeft => (0 <? h_center) && (0 <? w_center)
  | Top => 0 <? h_center
  | TopRight => (0 <? h_center) && (0 <? W - (w_center + kernel))
  | Left => 0 <? w_center
  | Center => true
  | Right => 0 <? W - (w_center + kernel)
  | BottomLeft => (0 <? H - (h_center + kernel)) && (0 <? w_center)
  | Bottom => 0 <? H - (h_center + kernel)
  | BottomRight =>
      (0 <? H - (h_center + kernel)) && (0 <? W - (w_center + kernel))
  end%Z.

(** The two slices (rows, columns) that cut a block out of [x]. *)
Definition window (r : region) : extent * extent :=
  let rows_top := (None, Some h_center) in
  let rows_mid := (Some h_center, Some (h_center + kernel)%Z) in
  let rows_bot := (Some (h_center + kernel)%Z, None) in
  let cols_left := (None, Some w_center) in
  let cols_mid := (Some w_center, Some (w_center + kernel)%Z) in
  let cols_right := (Some (w_center + kernel)%Z, None) in
  match r with
  | TopLeft => (rows_top, cols_left)
  | Top => (rows_top, cols_mid)
  | TopRight => (rows_top, cols_right)
  | Left => (rows_mid, cols_left)
  | Center => (rows_mid, cols_mid)
  | Right => (rows_mid, cols_right)
  | BottomLeft => (rows_bot, cols_left)
  | Bottom => (rows_bot, cols_mid)
  | BottomRight => (rows_bot, cols_right)
  end.
End Regions.

(** The order in which the blocks are appended to [blocks_lr] ... *)
Definition lr_order : list region :=
  [TopLeft; Top; TopRight; Left; Center; Right;
   BottomLeft; Bottom; BottomRight].

(** ... and to [blocks_ud]. *)
Definition ud_order : list region :=
  [TopLeft; Left; BottomLeft; Top; Center; Bottom;
   TopRight; Right; BottomRight].

(** The regions whose block is in [blocks_lr]: the partition of the grid. *)
Definition blocks_lr_regions (H W : nat) (kernel : Z) : list region :=
  filter (guard (Z.of_nat H) (Z.of_nat W) kernel) lr_order.

(** The cells [x[:, :, r, c]] that the block of a region holds. *)
Definition in_region (H W : nat) (kernel : Z) (reg : region) (r c : nat) : bool :=
  let w := window (Z.of_nat H) (Z.of_nat W) kernel reg in
  let rb := slice_bounds H (fst w) in
  let cb := slice_bounds W (snd w) in
  ((fst rb <=? r) && (r <? snd rb) && (fst cb <=? c) && (c <? snd cb))%nat.

Section Rearrange.
Context {A : Type}.

(** The second loop: [for i, block in enumerate(blocks_ud): flattened[i] = ...] *)
Fixpoint refill (i : nat) (blocks : list (tensor3 A))
         (flattened : list (tensor2 A)) : result (list (tensor2 A)) :=
  match blocks with
  | [] => Ok flattened
  | block :: rest =>
      v <- flatten3 (transpose23 block) ;;
      flattened' <- list_assign i v flattened ;;
      refill (S i) rest flattened'
  end.

(** [rearrange_center_blocks(x, kernel)], for [x] of shape (B, C, H, W);
    the result has shape (B, 4, -1, L) and holds the sequences
    left-to-right, top-to-bottom, right-to-left, bottom-to-top. *)
Definition rearrange_center_blocks (x : tensor3 A) (kernel : Z)
  : result (tensor3 A) :=
  let H := Z.of_nat (t3_H x) in
  let W := Z.of_nat (t3_W x) in
  let L := (t3_H x * t3_W x)%nat in
  let bound := guard H W kernel in
  let block r := crop (window H W kernel r) x in
  let blocks_lr := map block (filter bound lr_order) in
  blocks_ud <-
    mapM (fun r => if bound r then Ok (block r)
                   else Raise (UnboundLocalError (region_name r)))
         ud_order ;;
  flattened <- mapM flatten3 blocks_lr ;;
  output1 <- cat_last flattened ;;
  flattened <- refill 0 blocks_ud flattened ;;
  output2 <- cat_last flattened ;;
  let output3 := flip output1 in
  let output4 := flip output2 in
  stack_view L [output1; output2; output3; output4].

(** The four [torch.cat] calls that end both recoverers: three bands of
    three blocks side by side, the bands one above the other. *)
Definition assemble (top_left top top_right left center_block right
                     bottom_left bottom bottom_right : tensor3 A)
  : result (tensor3 A) :=
  top <- cat3 cat_dim3 top_left top top_right ;;
  medium <- cat3 cat_dim3 left center_block right ;;
  down <- cat3 cat_dim3 bottom_left bottom bottom_right ;;
  cat3 cat_dim2 top medium down.

(** [recover_window_lr(x, kernel)], for [x] of shape (B, C, L).  The test
    [kernel / 2 == kernel // 2] compares the true quotient with the floor
    quotient: it holds exactly for an even [kernel]. *)
Definition recover_window_lr (x : tensor2 A) (kernel : Z) : result (tensor3 A) :=
  let seg a b := slice_last (a, b) x in
  let short := (kernel / 2)%Z in
  let short1 := (kernel / 2 + 1)%Z in
  let small_l := (short * short)%Z in
  let medium_l := (short * short * 2)%Z in
  let high_l := (short * short * 4)%Z in
  if Z.even kernel then
       (top_left <- reshape_hw (seg None (Some small_l)) short short ;;
        top <- reshape_hw (seg (Some small_l) (Some (small_l + medium_l))) short (short * 2) ;;
        top_right <- reshape_hw (seg (Some (small_l + medium_l)) (Some (2 * small_l + medium_l))) short short ;;
        left <- reshape_hw (seg (Some (2 * small_l + medium_l)) (Some (2 * small_l + 2 * medium_l))) (short * 2) short ;;
        center_block <- reshape_hw (seg (Some (2 * small_l + 2 * medium_l)) (Some (2 * small_l + 2 * medium_l + high_l))) (short * 2) (short * 2) ;;
        right <- reshape_hw (seg (Some (2 * small_l + 2 * medium_l + high_l)) (Some (2 * small_l + 3 * medium_l + high_l))) (short * 2) short ;;
        bottom_left <- reshape_hw (seg (Some (2 * small_l + 3 * medium_l + high_l)) (Some (3 * small_l + 3 * medium_l + high_l))) short short ;;
        bottom <- reshape_hw (seg (Some (3 * small_l + 3 * medium_l + high_l)) (Some (3 * small_l + 4 * medium_l + high_l))) short (short * 2) ;;
        bottom_right <- reshape_hw (seg (Some (3 * small_l + 4 * medium_l + high_l)) None) short short ;;
        assemble top_left top top_right left center_block right
                 bottom_left bottom bottom_right)%Z
     else
       (let l1 := short * short in
        let l2 := short * short1 in
        let l3 := short * kernel in
        let l5 := short1 * kernel in
        let l6 := kernel * kernel in
        top_left <- reshape_hw (seg None (Some l1)) short short ;;
        top <- reshape_hw (seg (Some l1) (Some (l1 + l3))) short kernel ;;
        top_right <- reshape_hw (seg (Some (l1 + l3)) (Some (l1 + l2 + l3))) short short1 ;;
        left <- reshape_hw (seg (Some (l1 + l2 + l3)) (Some (l1 + l2 + 2 * l3))) kernel short ;;
        center_block <- reshape_hw (seg (Some (l1 + l2 + 2 * l3)) (Some (l1 + l2 + 2 * l3 + l6))) kernel kernel ;;
        right <- reshape_hw (seg (Some (l1 + l2 + 2 * l3 + l6)) (Some (l1 + l2 + 2 * l3 + l5 + l6))) kernel short1 ;;
        bottom_left <- reshape_hw (seg (Some (l1 + l2 + 2 * l3 + l5 + l6)) (Some (l1 + 2 * l2 + 2 * l3 + l5 + l6))) short1 short ;;
        bottom <- reshape_hw (seg (Some (l1 + 2 * l2 + 2 * l3 + l5 + l6)) (Some (l1 + 2 * l2 + 2 * l3 + 2 * l5 + l6))) short1 kernel ;;
        bottom_right <- reshape_hw (seg (Some (l1 + 2 * l2 + 2 * l3 + 2 * l5 + l6)) None) short1 short1 ;;
        assemble top_left top top_right left center_block right
                 bottom_left bottom bottom_right)%Z.

(** [recover_window_ud(x, kernel)]: the segments are read in the order of
    [blocks_ud] and reshaped to the (height, width) of their region. *)
Definition recover_window_ud (x : tensor2 A) (kernel : Z) : result (tensor3 A) :=
  let seg a b := slice_last (a, b) x in
  let short := (kernel / 2)%Z in
  let small_l := (short * short)%Z in
  let medium_l := (short * short * 2)%Z in
  let high_l := (short * short * 4)%Z in
  if Z.even kernel then
       (top_left <- reshape_hw (seg None (Some small_l)) short short ;;
        left <- reshape_hw (seg (Some small_l) (Some (small_l + medium_l))) (short * 2) short ;;
        bottom_left <- reshape_hw (seg (Some (small_l + medium_l)) (Some (2 * small_l + medium_l))) short short ;;
        top <- reshape_hw (seg (Some (2 * small_l + medium_l)) (Some (2 * small_l + 2 * medium_l))) short (short * 2) ;;
        center_block <- reshape_hw (seg (Some (2 * small_l + 2 * medium_l)) (Some (2 * small_l + 2 * medium_l + high_l))) (short * 2) (short * 2) ;;
        bottom <- reshape_hw (seg (Some (2 * small_l + 2 * medium_l + high_l)) (Some (2 * small_l + 3 * medium_l + high_l))) short (short * 2) ;;
        top_right <- reshape_hw (seg (Some (2 * small_l + 3 * medium_l + high_l)) (Some (3 * small_l + 3 * medium_l + high_l))) short short ;;
        right <- reshape_hw (seg (Some (3 * small_l + 3 * medium_l + high_l)) (Some (3 * small_l + 4 * medium_l + high_l))) (short * 2) short ;;
        bottom_right <- reshape_hw (seg (Some (3 * small_l + 4 * medium_l + high_l)) None) short short ;;
        assemble top_left top top_right left center_block right
                 bottom_left bottom bottom_right)%Z
     else
       (let short1 := kernel / 2 + 1 in
        let l1 := short * short in
        let l2 := short * short1 in
        let l3 := short * kernel in
        let l5 := short1 * kernel in
        let l6 := kernel * kernel in
        top_left <- reshape_hw (seg None (Some l1)) short short ;;
        left <- reshape_hw (seg (Some l1) (Some (l1 + l3))) kernel short ;;
        bottom_left <- reshape_hw (seg (Some (l1 + l3)) (Some (l1 + l2 + l3))) short1 short ;;
        top <- reshape_hw (seg (Some (l1 + l2 + l3)) (Some (l1 + l2 + 2 * l3))) short kernel ;;
        center_block <- reshape_hw (seg (Some (l1 + l2 + 2 * l3)) (Some (l1 + l2 + 2 * l3 + l6))) kernel kernel ;;
        bottom <- reshape_hw (seg (Some (l1 + l2 + 2 * l3 + l6)) (Some (l1 + l2 + 2 * l3 + l5 + l6))) short1 kernel ;;
        top_right <- reshape_hw (seg (Some (l1 + l2 + 2 * l3 + l5 + l6)) (Some (l1 + 2 * l2 + 2 * l3 + l5 + l6))) short short1 ;;
        right <- reshape_hw (seg (Some (l1 + 2 * l2 + 2 * l3 + l5 + l6)) (Some (l1 + 2 * l2 + 2 * l3 + 2 * l5 + l6))) kernel short1 ;;
        bottom_right <- reshape_hw (seg (Some (l1 + 2 * l2 + 2 * l3 + 2 * l5 + l6)) None) short1 short1 ;;
        assemble top_left top top_right left center_block right
                 bottom_left bottom bottom_right)%Z.

Variable add : A -> A -> A.

(** [recover_center_blocks(x, kernel)], for [x] of shape (B, 4, C, L).
    The line [H = W = int(math.sqrt(L))] of the source binds two names
    that are not read again. *)
Definition recover_center_blocks (x : tensor3 A) (kernel : Z) : result (tensor3 A) :=
  let L := t3_W x in
  lr_y <- (s <- select 0 x ;; reshape_BL L s) ;;
  ud_y <- (s <- select 1 x ;; reshape_BL L s) ;;
  rl_y <- (s <- select 2 x ;; reshape_BL L (flip s)) ;;
  du_y <- (s <- select 3 x ;; reshape_BL L (flip s)) ;;
  y1 <- add2 add lr_y rl_y ;;
  y1 <- recover_window_lr y1 kernel ;;
  y2 <- add2 add ud_y du_y ;;
  y2 <- recover_window_ud y2 kernel ;;
  add3 add y1 y2.

End Rearrange.

(** [C_SS2D.forward] and [forward_core] pass [H // 2] as the kernel. *)
Definition forward_kernel (H : Z) : Z := (H / 2)%Z.

(** A single-channel tensor from a plane of integers, for the examples. *)
Definition plane_tensor (H W : nat) (p : list (list Z)) : tensor3 Z :=
  T3 1 H W [p].

Definition grid4 : list (list Z) :=
  [[0; 1; 2; 3]; [4; 5; 6; 7]; [8; 9; 10; 11]; [12; 13; 14; 15]]%Z.

(** ** What the functions compute on one channel *)

(** The sequences that [rearrange_center_blocks] builds from one plane when
    all nine block variables are bound: the blocks of [blocks_lr] row by
    row, and the blocks of [blocks_ud] column by column. *)
Definition flatten_lr {A : Type} (H W : nat) (kernel : Z) (p : list (list A))
  : list A :=
  concat (map (fun r =>
                 let w := window (Z.of_nat H) (Z.of_nat W) kernel r in
                 concat (crop_plane (fst w) (snd w) p))
              lr_order).

Definition flatten_ud {A : Type} (H W : nat) (kernel : Z) (p : list (list A))
  : list A :=
  concat (map (fun r =>
                 let w := window (Z.of_nat H) (Z.of_nat W) kernel r in
                 concat (transpose (slice_len W (snd w))
                                   (crop_plane (fst w) (snd w) p)))
              ud_order).

(** The block of shape (h, w) that starts at position [a] of a sequence. *)
Definition piece {A : Type} (a h w : nat) (row : list A) : list (list A) :=
  chunks h w (firstn (h * w) (skipn a row)).

(** Consecutive blocks of the given shapes, from position [a] on. *)
Fixpoint pieces {A : Type} (a : nat) (shapes : list (nat * nat)) (row : list A)
  : list (list (list A)) :=
  match shapes with
  | [] => []
  | (h, w) :: rest => piece a h w row :: pieces (a + h * w) rest row
  end.

(** Three bands of three blocks. *)
Definition glue {A : Type} (b00 b01 b02 b10 b11 b12 b20 b21 b22 : list (list A))
  : list (list A) :=
  map2 (@app A) (map2 (@app A) b00 b01) b02
  ++ map2 (@app A) (map2 (@app A) b10 b11) b12
  ++ map2 (@app A) (map2 (@app A) b20 b21) b22.

(** The heights (and widths) of the three bands that the recoverers assume
    for a kernel [n]: [n / 2], [n] and the rest of [2 * n]. *)
Definition band (n : nat) (i : nat) : nat :=
  match i with
  | 0 => n / 2
  | 1 => n
  | _ => n - n / 2
  end.

Definition shapes_lr (n : nat) : list (nat * nat) :=
  [(band n 0, band n 0); (band n 0, band n 1); (band n 0, band n 2);
   (band n 1, band n 0); (band n 1, band n 1); (band n 1, band n 2);
   (band n 2, band n 0); (band n 2, band n 1); (band n 2, band n 2)].

Definition shapes_ud (n : nat) : list (nat * nat) :=
  [(band n 0, band n 0); (band n 1, band n 0); (band n 2, band n 0);
   (band n 0, band n 1); (band n 1, band n 1); (band n 2, band n 1);
   (band n 0, band n 2); (band n 1, band n 2); (band n 2, band n 2)].

(** What [recover_window_lr] builds from one sequence of length (2n)^2 ... *)
Definition unflatten_lr {A : Type} (n : nat) (row : list A) : list (list A) :=
  match pieces 0 (shapes_lr n) row with
  | [b00; b01; b02; b10; b11; b12; b20; b21; b22] =>
      glue b00 b01 b02 b10 b11 b12 b20 b21 b22
  | _ => []
  end.

(** ... and what [recover_window_ud] builds. *)
Definition unflatten_ud {A : Type} (n : nat) (row : list A) : list (list A) :=
  match pieces 0 (shapes_ud n) row with
  | [b00; b10; b20; b01; b11; b21; b02; b12; b22] =>
      glue b00 b01 b02 b10 b11 b12 b20 b21 b22
  | _ => []
  end.

(** The shape that the recoverers give to the block of a region. *)
Definition region_shape (n : nat) (r : region) : nat * nat :=
  match r with
  | TopLeft => (band n 0, band n 0)
  | Top => (band n 0, band n 1)
  | TopRight => (band n 0, band n 2)
  | Left => (band n 1, band n 0)
  | Center => (band n 1, band n 1)
  | Right => (band n 1, band n 2)
  | BottomLeft => (band n 2, band n 0)
  | Bottom => (band n 2, band n 1)
  | BottomRight => (band n 2, band n 2)
  end.

(** ** The segments of the recoverers, as tables *)

(** The slice and the (height, width) of every block, in the order in which
    [recover_window_lr] reads them: top_left, top, top_right, left,
    center_block, right, bottom_left, bottom, bottom_right. *)
Definition lr_segments (kernel : Z) : list (extent * (Z * Z)) :=
  let short := (kernel / 2)%Z in
  let short1 := (kernel / 2 + 1)%Z in
  let small_l := (short * short)%Z in
  let medium_l := (short * short * 2)%Z in
  let high_l := (short * short * 4)%Z in
  if Z.even kernel then
    [((None, Some small_l), (short, short));
     ((Some small_l, Some (small_l + medium_l)), (short, short * 2));
     ((Some (small_l + medium_l), Some (2 * small_l + medium_l)), (short, short));
     ((Some (2 * small_l + medium_l), Some (2 * small_l + 2 * medium_l)), (short * 2, short));
     ((Some (2 * small_l + 2 * medium_l), Some (2 * small_l + 2 * medium_l + high_l)), (short * 2, short * 2));
     ((Some (2 * small_l + 2 * medium_l + high_l), Some (2 * small_l + 3 * medium_l + high_l)), (short * 2, short));
     ((Some (2 * small_l + 3 * medium_l + high_l), Some (3 * small_l + 3 * medium_l + high_l)), (short, short));
     ((Some (3 * small_l + 3 * medium_l + high_l), Some (3 * small_l + 4 * medium_l + high_l)), (short, short * 2));
     ((Some (3 * small_l + 4 * medium_l + high_l), None), (short, short))]%Z
  else
    (let l1 := short * short in
     let l2 := short * short1 in
     let l3 := short * kernel in
     let l5 := short1 * kernel in
     let l6 := kernel * kernel in
     [((None, Some l1), (short, short));
      ((Some l1, Some (l1 + l3)), (short, kernel));
      ((Some (l1 + l3), Some (l1 + l2 + l3)), (short, short1));
      ((Some (l1 + l2 + l3), Some (l1 + l2 + 2 * l3)), (kernel, short));
      ((Some (l1 + l2 + 2 * l3), Some (l1 + l2 + 2 * l3 + l6)), (kernel, kernel));
      ((Some (l1 + l2 + 2 * l3 + l6), Some (l1 + l2 + 2 * l3 + l5 + l6)), (kernel, short1));
      ((Some (l1 + l2 + 2 * l3 + l5 + l6), Some (l1 + 2 * l2 + 2 * l3 + l5 + l6)), (short1, short));
      ((Some (l1 + 2 * l2 + 2 * l3 + l5 + l6), Some (l1 + 2 * l2 + 2 * l3 + 2 * l5 + l6)), (short1, kernel));
      ((Some (l1 + 2 * l2 + 2 * l3 + 2 * l5 + l6), None), (short1, short1))])%Z.


(** One segment cut out of [x] and reshaped. *)
Definition cut {A : Type} (x : tensor2 A) (s : extent * (Z * Z)) : result (tensor3 A) :=
  reshape_hw (slice_last (fst s) x) (fst (snd s)) (snd (snd s)).



(** A segment holds exactly the elements of its block. *)
Definition fits (L : nat) (s : extent * (Z * Z)) : Prop :=
  Z.of_nat (slice_len L (fst s)) = (fst (snd s) * snd (snd s))%Z.



(** ** The whole round: flatten, scan with the identity, recover *)



(** The sum of a forward sequence and a backward one put back in forward
    order: [lr_y + rl_y] and [ud_y + du_y] of [recover_center_blocks]. *)
Definition paired {A : Type} (add : A -> A -> A) (C L : nat)
           (fwd bwd : list (list A)) : tensor2 A :=
  T2 C L (map2 (map2 add) fwd (map (@rev A) bwd)).

(** ** Cells and positions *)

(** The plane whose cell (r, c) holds the pair (r, c). *)
Definition index_grid (H W : nat) : list (list (nat * nat)) :=
  map (fun r => map (fun c => (r, c)) (seq 0 W)) (seq 0 H).

(** All cells of an H x W grid, row by row. *)
Definition cells (H W : nat) : list (nat * nat) := concat (index_grid H W).

(** The cell found at every position of the left-to-right sequence, and of
    the top-to-bottom sequence. *)
Definition lr_perm (H W : nat) (kernel : Z) : list (nat * nat) :=
  flatten_lr H W kernel (index_grid H W).

Definition ud_perm (H W : nat) (kernel : Z) : list (nat * nat) :=
  flatten_ud H W kernel (index_grid H W).

Definition cell {A : Type} (d : A) (p : list (list A)) (rc : nat * nat) : A :=
  nth (snd rc) (nth (fst rc) p []) d.

(** The values of a plane at the given cells, in order. *)
Definition gather {A : Type} (d : A) (sigma : list (nat * nat))
           (p : list (list A)) : list A :=
  map (cell d p) sigma.

(** The band of rows (0 top, 1 middle, 2 bottom) and of columns of a
    region, and the cells of a band. *)
Definition row_band (reg : region) : nat :=
  match reg with
  | TopLeft | Top | TopRight => 0
  | Left | Center | Right => 1
  | BottomLeft | Bottom | BottomRight => 2
  end.

Definition col_band (reg : region) : nat :=
  match reg with
  | TopLeft | Left | BottomLeft => 0
  | Top | Center | Bottom => 1
  | TopRight | Right | BottomRight => 2
  end.

Definition in_band (kernel : Z) (n : nat) (c : Z) (b : nat) (i : nat) : Prop :=
  match b with
  | 0 => (Z.of_nat i < c)%Z
  | 1 => (c <= Z.of_nat i < c + kernel)%Z
  | _ => (c + kernel <= Z.of_nat i < Z.of_nat n)%Z
  end.

(** ** The error contract of the specification *)

Definition raises {T : Type} (r : result T) : bool :=
  match r with
  | Ok _ => false
  | Raise _ => true
  end.

(** [kernel <= 0] or [kernel > min(H, W)] *)
Definition invalid_kernel (H W : nat) (kernel : Z) : bool :=
  ((kernel <=? 0) || (Z.min (Z.of_nat H) (Z.of_nat W) <? kernel))%Z.

(** ** [C_SS2D.forward], as far as shapes decide *)

(** The scan is outside this development; what is used of it is that its
    result has the shape of its input, (B, 4, C, L). *)
Definition shape_preserving {A : Type} (scan : tensor3 A -> tensor3 A) : Prop :=
  forall t, wf3 t ->
            wf3 (scan t) /\ t3_C (scan t) = t3_C t /\
            t3_H (scan t) = t3_H t /\ t3_W (scan t) = t3_W t.

(** [forward_core] flattens with [kernel = H // 2] and scans; [forward]
    recovers with the same kernel.  The projections, the convolution, the
    normalisation and the gating around them keep the spatial shape and are
    left out. *)
Definition C_SS2D_forward {A : Type} (scan : tensor3 A -> tensor3 A)
           (add : A -> A -> A) (x : tensor3 A) : result (tensor3 A) :=
  let kernel := forward_kernel (Z.of_nat (t3_H x)) in
  xs <- rearrange_center_blocks x kernel ;;
  recover_center_blocks add (scan xs) kernel.

(** The block that [recover_window_ud] builds from the stretch of an
    up-to-down sequence that holds the block [b] column by column: the
    stretch is read back row by row into the shape (h, w) of [b]. *)
Definition retile {A : Type} (h w : nat) (b : list (list A)) : list (list A) :=
  chunks h w (concat (transpose w b)).

(** ** [PatchMerging2D.forward], up to the view

    The layer gathers the four pixels of every 2 x 2 neighbourhood of a
    channels-last tensor into one pixel of four times the channels; the
    normalisation and the linear reduction that follow (lines 98-99) work on
    the channel axis only and are not part of the model, and neither is the
    warning that is printed for an odd size. *)

(** A channels-last tensor (B, H, W, C) with B = 1: rows of pixels, a pixel
    being the list of its channel values. *)
Record image (A : Type) : Type := Img {
  im_H : nat;
  im_W : nat;
  im_C : nat;
  im_data : list (list (list A))
}.

Arguments Img {A} im_H im_W im_C im_data.

Definition wf_image {A : Type} (x : image A) : Prop :=
  length (im_data x) = im_H x /\
  Forall (rows_ok (im_W x) (im_C x)) (im_data x).

(** [x[:, i, j, :]] *)
Definition pixel {A : Type} (x : image A) (i j : nat) : option (list A) :=
  match nth_error (im_data x) i with
  | Some row => nth_error row j
  | None => None
  end.

(** [l[0::2]] when [take] holds and [l[1::2]] otherwise. *)
Fixpoint step2 {A : Type} (take : bool) (l : list A) : list A :=
  match l with
  | [] => []
  | a :: l' => if take then a :: step2 false l' else step2 true l'
  end.

Definition step2_len (take : bool) (n : nat) : nat :=
  if take then (n + 1) / 2 else n / 2.

(** [x[:, r::2, c::2, :]] with [r], [c] in {0, 1}: [rows] holds for r = 0 and
    [cols] for c = 0. *)
Definition strided {A : Type} (rows cols : bool) (x : image A) : image A :=
  Img (step2_len rows (im_H x)) (step2_len cols (im_W x)) (im_C x)
      (map (step2 cols) (step2 rows (im_data x))).

(** [x[:, :h, :w, :]] *)
Definition crop_hw {A : Type} (h w : Z) (x : image A) : image A :=
  Img (slice_len (im_H x) (None, Some h)) (slice_len (im_W x) (None, Some w))
      (im_C x)
      (crop_plane (None, Some h) (None, Some w) (im_data x)).

Definition same_hw {A : Type} (a b : image A) : bool :=
  ((im_H a =? im_H b) && (im_W a =? im_W b))%nat.

(** [torch.cat([x0, x1, x2, x3], -1)]: the four tensors must agree in every
    axis but the last. *)
Definition cat_channels {A : Type} (x0 x1 x2 x3 : image A) : result (image A) :=
  if same_hw x0 x1 && same_hw x0 x2 && same_hw x0 x3
  then Ok (Img (im_H x0) (im_W x0) (im_C x0 + im_C x1 + im_C x2 + im_C x3)
               (map2 (map2 (@app A))
                     (map2 (map2 (@app A))
                           (map2 (map2 (@app A)) (im_data x0) (im_data x1))
                           (im_data x2))
                     (im_data x3)))
  else Raise RuntimeError.

(** [x.view(B, h, w, c)]: the number of elements must be kept; the elements
    keep their order. *)
Definition view_hwc {A : Type} (h w c : nat) (x : image A) : result (image A) :=
  if (im_H x * im_W x * im_C x =? h * w * c)%nat
  then Ok (Img h w c
               (map (chunks w c) (chunks h (w * c) (concat (concat (im_data x))))))
  else Raise RuntimeError.

(** Lines 77-96 of [PatchMerging2D.forward]. *)
Definition PatchMerging2D_forward {A : Type} (x : image A) : result (image A) :=
  let H := im_H x in
  let W := im_W x in
  let C := im_C x in
  let SHAPE_FIX :=
    if negb (W mod 2 =? 0)%nat || negb (H mod 2 =? 0)%nat
    then (Z.of_nat (H / 2), Z.of_nat (W / 2))
    else ((-1)%Z, (-1)%Z) in
  let x0 := strided true true x in
  let x1 := strided false true x in
  let x2 := strided true false x in
  let x3 := strided false false x in
  let fixed t :=
    if (0 <? fst SHAPE_FIX)%Z then crop_hw (fst SHAPE_FIX) (snd SHAPE_FIX) t
    else t in
  x <- cat_channels (fixed x0) (fixed x1) (fixed x2) (fixed x3) ;;
  view_hwc (H / 2) (W / 2) (4 * C) x.

(** The top-left (h, w) corner of [x[r::2, c::2]]. *)
Definition corner {A : Type} (h w : nat) (rows cols : bool)
           (data : list (list (list A))) : list (list (list A)) :=
  map (fun row => firstn w (step2 cols row)) (firstn h (step2 rows data)).

(** ** [W_SS2D]: tensors of any rank

    [W_SS2D.forward_core] cuts the grid into windows with [view] and
    [permute] on a tensor of rank 6.  A tensor is its shape and its elements
    in row-major order; [view] and [reshape] keep the elements, [permute]
    reads them through permuted strides. *)

Record ndarray (A : Type) : Type := Nd {
  nd_shape : list nat;
  nd_flat : list A
}.

Arguments Nd {A} nd_shape nd_flat.

Definition numel (shape : list nat) : nat := fold_right Nat.mul 1 shape.

Definition wf_nd {A : Type} (t : ndarray A) : Prop :=
  length (nd_flat t) = numel (nd_shape t).

(** The multi-index of a row-major position, and back. *)
Fixpoint unravel (shape : list nat) (o : nat) : list nat :=
  match shape with
  | [] => []
  | _ :: rest => o / numel rest :: unravel rest (o mod numel rest)
  end.

Fixpoint ravel (shape idx : list nat) : nat :=
  match shape, idx with
  | _ :: rest, i :: idx' => i * numel rest + ravel rest idx'
  | _, _ => 0
  end.

(** The row-major stride of an axis. *)
Definition stride (shape : list nat) (axis : nat) : nat :=
  numel (skipn (S axis) shape).

Definition dot (idx strides : list nat) : nat :=
  list_sum (map2 Nat.mul idx strides).

(** The elements at the given positions, in this order. *)
Definition gather_flat {A : Type} (positions : list nat) (flat : list A) : list A :=
  flat_map (fun o => match nth_error flat o with
                     | Some v => [v]
                     | None => []
                     end) positions.

Definition is_permutation (dims : list nat) (rank : nat) : bool :=
  (length dims =? rank)%nat
  && forallb (fun a => existsb (Nat.eqb a) dims) (seq 0 rank).

(** [x.permute(dims)], made contiguous: axis [k] of the result is axis
    [dims[k]] of [x]. *)
Definition nd_permute {A : Type} (dims : list nat) (x : ndarray A)
  : result (ndarray A) :=
  if is_permutation dims (length (nd_shape x))
  then let shape := map (fun k => nth k (nd_shape x) 0) dims in
       let strides := map (stride (nd_shape x)) dims in
       Ok (Nd shape
              (gather_flat (map (fun o => dot (unravel shape o) strides)
                                (seq 0 (numel shape)))
                           (nd_flat x)))
  else Raise RuntimeError.

(** The shape that [view] and [reshape] give to [n] elements: at most one
    size is -1 and it is inferred. *)
Definition infer_shape (n : nat) (dims : list Z) : result (list nat) :=
  let known := fold_right Z.mul 1%Z (filter (fun d => negb (d =? -1)%Z) dims) in
  if existsb (fun d => (d <? -1)%Z) dims then Raise RuntimeError
  else match count_occ Z.eq_dec dims (-1)%Z with
       | 0 => if (known =? Z.of_nat n)%Z then Ok (map Z.to_nat dims)
              else Raise RuntimeError
       | 1 => if (known =? 0)%Z then Raise RuntimeError
              else if (Z.of_nat n mod known =? 0)%Z
                   then Ok (map (fun d => if (d =? -1)%Z
                                          then Z.to_nat (Z.of_nat n / known)
                                          else Z.to_nat d) dims)
                   else Raise RuntimeError
       | _ => Raise RuntimeError
       end.

(** [x.view(dims)] of a contiguous tensor *)
Definition nd_view {A : Type} (dims : list Z) (x : ndarray A) : result (ndarray A) :=
  shape <- infer_shape (length (nd_flat x)) dims ;;
  Ok (Nd shape (nd_flat x)).

(** [x.reshape(dims)]: the elements in row-major order, as for [view] *)
Definition nd_reshape {A : Type} (dims : list Z) (x : ndarray A)
  : result (ndarray A) :=
  nd_view dims x.

(** [torch.stack([a, b], dim=1)] *)
Definition nd_stack1 {A : Type} (a b : ndarray A) : result (ndarray A) :=
  match nd_shape a with
  | B :: rest =>
      if list_eq_dec Nat.eq_dec (nd_shape a) (nd_shape b)
      then Ok (Nd (B :: 2 :: rest)
                  (concat (map2 (@app A) (chunks B (numel rest) (nd_flat a))
                                (chunks B (numel rest) (nd_flat b)))))
      else Raise RuntimeError
  | [] => Raise IndexError
  end.

(** [torch.cat([a, b], dim=1)] *)
Definition nd_cat1 {A : Type} (a b : ndarray A) : result (ndarray A) :=
  match nd_shape a, nd_shape b with
  | B :: Ka :: rest, B' :: Kb :: rest' =>
      if (B =? B')%nat && (if list_eq_dec Nat.eq_dec rest rest' then true else false)
      then Ok (Nd (B :: Ka + Kb :: rest)
                  (concat (map2 (@app A)
                                (chunks B (Ka * numel rest) (nd_flat a))
                                (chunks B (Kb * numel rest) (nd_flat b)))))
      else Raise RuntimeError
  | _, _ => Raise IndexError
  end.

(** [x[:, k]] *)
Definition nd_select1 {A : Type} (k : nat) (x : ndarray A) : result (ndarray A) :=
  match nd_shape x with
  | B :: K :: rest =>
      if (k <? K)%nat
      then Ok (Nd (B :: rest)
                  (concat (map (fun c => firstn (numel rest)
                                                (skipn (k * numel rest) c))
                               (chunks B (K * numel rest) (nd_flat x)))))
      else Raise IndexError
  | _ => Raise IndexError
  end.

(** [torch.flip(x, dims=[-1])] *)
Definition nd_flip {A : Type} (x : ndarray A) : result (ndarray A) :=
  match rev (nd_shape x) with
  | L :: _ =>
      Ok (Nd (nd_shape x)
             (concat (map (@rev A)
                          (chunks (numel (nd_shape x) / L) L (nd_flat x)))))
  | [] => Raise IndexError
  end.

(** [a + b] for tensors of one shape *)
Definition nd_add {A : Type} (add : A -> A -> A) (a b : ndarray A)
  : result (ndarray A) :=
  if list_eq_dec Nat.eq_dec (nd_shape a) (nd_shape b)
  then Ok (Nd (nd_shape a) (map2 add (nd_flat a) (nd_flat b)))
  else Raise RuntimeError.

(** What a call of the [W_SS2D] methods ends in: a value, an exception of
    torch, or one of the exceptions of the lines that come before the
    tensor operations. *)
Inductive outcome (T : Type) : Type :=
| Returns (v : T)
| Throws (e : exn)
| ZeroDivisionError          (* H % kernel with kernel = 0 *)
| AssertionError             (* the assert on the window size *)
| ValueError.                (* B, C, H, W = x.shape fails *)

Arguments Returns {T} v.
Arguments Throws {T} e.
Arguments ZeroDivisionError {T}.
Arguments AssertionError {T}.
Arguments ValueError {T}.

Definition lift {T : Type} (r : result T) : outcome T :=
  match r with
  | Ok v => Returns v
  | Raise e => Throws e
  end.

Definition outcome_bind {T U : Type} (m : outcome T) (f : T -> outcome U)
  : outcome U :=
  match m with
  | Returns v => f v
  | Throws e => Throws e
  | ZeroDivisionError => ZeroDivisionError
  | AssertionError => AssertionError
  | ValueError => ValueError
  end.

(** [W_SS2D.forward_core], lines 681-727; [scan] stands for lines 695-712:
    the projections and the selective scan, from the sequences of shape
    (B, 4 * C, L) to their scanned values. *)
Definition W_SS2D_forward_core {A : Type} (scan : ndarray A -> ndarray A)
           (x : ndarray A)
  : outcome (ndarray A * ndarray A * ndarray A * ndarray A) :=
  match nd_shape x with
  | [B; C; H; W] =>
      let kernel := H / 2 in
      if (kernel =? 0)%nat then ZeroDivisionError
      else if negb ((H mod kernel =? 0) && (W mod kernel =? 0))%nat
           then AssertionError
           else
             let L := Z.of_nat (H * W) in
             let K := 4%Z in
             let B := Z.of_nat B in
             let C := Z.of_nat C in
             let Hk := Z.of_nat (H / kernel) in
             let Wk := Z.of_nat (W / kernel) in
             let kernel := Z.of_nat kernel in
             lift (
               x <- nd_view [B; C; Hk; kernel; Wk; kernel] x ;;
               x <- nd_permute [0; 1; 3; 5; 2; 4] x ;;
               x1 <- nd_reshape [B; -1; L]%Z x ;;
               x2 <- (t <- nd_permute [0; 1; 3; 2; 5; 4] x ;;
                      nd_reshape [B; -1; L]%Z t) ;;
               x <- (t <- nd_stack1 x1 x2 ;; nd_view [B; 2; -1; L]%Z t) ;;
               xs <- (f <- nd_flip x ;; nd_cat1 x f) ;;
               xs <- nd_view [B; -1; L]%Z xs ;;
               out_y <- nd_view [B; K; -1; L]%Z (scan xs) ;;
               lr_y <- (t <- nd_select1 0 out_y ;; nd_reshape [B; -1; L]%Z t) ;;
               ud_y <- (t <- nd_select1 1 out_y ;;
                        t <- nd_reshape [B; -1; kernel; kernel; Hk; Wk]%Z t ;;
                        t <- nd_permute [0; 1; 3; 2; 5; 4] t ;;
                        nd_reshape [B; -1; L]%Z t) ;;
               rl_y <- (t <- nd_select1 2 out_y ;;
                        t <- nd_flip t ;;
                        nd_reshape [B; -1; L]%Z t) ;;
               du_y <- (t <- nd_select1 3 out_y ;;
                        t <- nd_flip t ;;
                        t <- nd_reshape [B; -1; kernel; kernel; Hk; Wk]%Z t ;;
                        t <- nd_permute [0; 1; 3; 2; 5; 4] t ;;
                        nd_reshape [B; -1; L]%Z t) ;;
               Ok (lr_y, ud_y, rl_y, du_y))
  | _ => ValueError
  end.

(** [W_SS2D.forward], lines 738-743, on the tensor of shape (B, C, H, W)
    that enters [forward_core]; the projections, the convolution (which
    keeps H and W) and the normalisation around them are left out. *)
Definition W_SS2D_forward {A : Type} (scan : ndarray A -> ndarray A)
           (add : A -> A -> A) (x : ndarray A) : outcome (ndarray A) :=
  match nd_shape x with
  | [B; C; H; W] =>
      let kernel := H / 2 in
      outcome_bind (W_SS2D_forward_core scan x)
        (fun ys =>
           let '(y1, y2, y3, y4) := ys in
           lift (
             y <- nd_add add y1 y2 ;;
             y <- nd_add add y y3 ;;
             y <- nd_add add y y4 ;;
             y <- nd_reshape [Z.of_nat B; -1; Z.of_nat kernel; Z.of_nat kernel;
                              Z.of_nat (H / kernel); Z.of_nat (W / kernel)]%Z y ;;
             y <- nd_permute [0; 1; 4; 2; 5; 3] y ;;
             nd_view [Z.of_nat B; -1; Z.of_nat H; Z.of_nat W]%Z y))
  | _ => ValueError
  end.

(** What is assumed of the scan when only shapes matter. *)
Definition nd_shape_preserving {A : Type} (scan : ndarray A -> ndarray A) : Prop :=
  forall t, wf_nd t -> wf_nd (scan t) /\ nd_shape (scan t) = nd_shape t.

(** [x[idx]] *)
Definition nd_get {A : Type} (x : ndarray A) (idx : list nat) : option A :=
  nth_error (nd_flat x) (ravel (nd_shape x) idx).

(** ** [DWMAKNetEncoder.__init__]: the stages and the downsamplings

    The constructor builds the list of stages and the list of downsamplings
    with two loops over [range(num_layers)].  A stage is recorded by the
    arguments that the loop reads from its lists: [dims[...]],
    [depths[...]] and the position read in [dpr], the list of
    [sum(depths)] drop-path rates; a downsampling by its [dim].  The
    constructors of the sub-modules are taken to return, and [d_state] to be
    given (its default is 16), so that [dims[0]] is not read for it. *)

Record block_args : Type := BlockArgs {
  ba_dim : nat;
  ba_depth : nat;
  ba_drop_path : nat
}.

Record encoder_modules : Type := EncoderModules {
  enc_num_layers : nat;
  enc_layers : list block_args;
  enc_downsamples : list nat
}.

(** [l[i]] for an index that is not negative *)
Definition item {X : Type} (l : list X) (i : nat) : result X :=
  match nth_error l i with
  | Some v => Ok v
  | None => Raise IndexError
  end.

(** One of the two loops: [shift] is 0 in the first and 2 in the second,
    [bound] is what [i_layer] is compared with before a downsampling is
    appended. *)
Fixpoint encoder_loop (shift : nat) (bound : Z) (dims depths dpr : list nat)
         (range : list nat) (layers : list block_args) (downsamples : list nat)
  : result (list block_args * list nat) :=
  match range with
  | [] => Ok (layers, downsamples)
  | i_layer :: rest =>
      dim <- item dims (i_layer + shift) ;;
      depth <- item depths (i_layer + shift) ;;
      drop_path <- item dpr (i_layer + shift) ;;
      let layers := layers ++ [BlockArgs dim depth drop_path] in
      downsamples <-
        (if (Z.of_nat i_layer <? bound)%Z
         then d <- item dims (i_layer + shift) ;; Ok (downsamples ++ [d])
         else Ok downsamples) ;;
      encoder_loop shift bound dims depths dpr rest layers downsamples
  end.

(** Lines 1279-1318. *)
Definition DWMAKNetEncoder_init (depths feat_size : list nat)
  : result encoder_modules :=
  let num_layers := length depths / 2 in
  let dims := skipn 2 feat_size in
  _ <- item feat_size 1 ;;
  _ <- item feat_size 2 ;;
  let dpr := seq 0 (list_sum depths) in
  _ <- item feat_size 1 ;;
  built <- encoder_loop 0 (Z.of_nat num_layers) dims depths dpr
                        (seq 0 num_layers) [] [] ;;
  built <- encoder_loop 2 (Z.of_nat num_layers - 1) dims depths dpr
                        (seq 0 num_layers) (fst built) (snd built) ;;
  Ok (EncoderModules num_layers (fst built) (snd built)).

(** ** The skips between [DWMAKNetEncoder.forward] and
    [DWMAKNetDecoder.forward]

    The two [forward] methods pass tensors through their sub-modules and
    keep some of them in Python lists.  The sub-modules are left abstract
    (a call returns a tensor or raises); what is modelled is which tensors
    are kept, read and returned. *)

(** [l[-k]] for k >= 1 *)
Definition item_neg {X : Type} (l : list X) (k : nat) : result X :=
  if (k <=? length l)%nat then item l (length l - k) else Raise IndexError.

Record encoder_net (T : Type) : Type := EncoderNet {
  en_conv_pool : T -> result T;     (* F.relu(F.max_pool2d(self.conv(x), 2, 2)) *)
  en_embed : T -> result T;         (* patch_embed, patch_drop, view(B, H, W, C) *)
  en_permute : T -> T;              (* x.permute(0, 3, 1, 2) *)
  en_layers : list (T -> result T);
  en_downsamples : list (T -> result T)
}.

(** The loop of [DWMAKNetEncoder.forward] from stage [s] on. *)
Fixpoint encoder_stages {T : Type} (net : encoder_net T) (s : nat)
         (layers : list (T -> result T)) (x : T) (x_ret : list T)
  : result (list T) :=
  match layers with
  | [] => Ok x_ret
  | layer :: rest =>
      x <- layer x ;;
      let x_ret := x_ret ++ [en_permute net x] in
      x <- (if (s <? length (en_downsamples net))%nat
            then down <- item (en_downsamples net) s ;; down x
            else Ok x) ;;
      encoder_stages net (S s) rest x x_ret
  end.

(** [DWMAKNetEncoder.forward], lines 1348-1367 *)
Definition DWMAKNetEncoder_forward {T : Type} (net : encoder_net T) (x : T)
  : result (list T) :=
  let x_ret := [x] in
  x <- en_conv_pool net x ;;
  let x_ret := x_ret ++ [x] in
  x <- en_embed net x ;;
  encoder_stages net 0 (en_layers net) x x_ret.

Record decoder_net (T : Type) : Type := DecoderNet {
  dn_interpolate : T -> result T;       (* F.relu(F.interpolate(x, ...)) *)
  dn_fuse : nat -> T -> T -> result T;  (* norm_k(conv_k(torch.cat((x, skip), dim=1))) *)
  dn_decoder : nat -> T -> result T;    (* decoder_k *)
  dn_dropout : nat -> T -> result T;    (* dropout_k *)
  dn_seg_layers : list (T -> result T)
}.

(** One stage of the decoder: stage k reads [skips[-(7 - k)]]. *)
Definition decoder_stage {T : Type} (net : decoder_net T) (k : nat) (x : T)
           (skips : list T) : result T :=
  x <- dn_interpolate net x ;;
  skip <- item_neg skips (7 - k) ;;
  x <- dn_fuse net k x skip ;;
  dn_decoder net k x.

(** [DWMAKNetDecoder.forward], lines 1448-1495: a tensor without deep
    supervision, the list of the four outputs with it. *)
Definition DWMAKNetDecoder_forward {T : Type} (net : decoder_net T)
           (deep_supervision : bool) (skips : list T) : result (T + list T) :=
  x <- item_neg skips 1 ;;
  x <- decoder_stage net 5 x skips ;;
  x <- dn_dropout net 5 x ;;
  x <- decoder_stage net 4 x skips ;;
  let outs := [x] in
  x <- dn_dropout net 4 x ;;
  x <- decoder_stage net 3 x skips ;;
  let outs := outs ++ [x] in
  x <- dn_dropout net 3 x ;;
  x <- decoder_stage net 2 x skips ;;
  let outs := outs ++ [x] in
  x <- dn_dropout net 2 x ;;
  x <- decoder_stage net 1 x skips ;;
  seg_outputs <-
    (if deep_supervision
     then mapM (fun s => seg <- item (dn_seg_layers net) s ;;
                         out <- item outs s ;;
                         seg out) [0; 1; 2]
     else Ok []) ;;
  final <- (seg <- item_neg (dn_seg_layers net) 1 ;; seg x) ;;
  let seg_outputs := rev (seg_outputs ++ [final]) in
  if negb deep_supervision
  then r <- item seg_outputs 0 ;; Ok (inl r)
  else Ok (inr seg_outputs).

(** [DWMAKNet.forward] *)
Definition DWMAKNet_forward {T : Type} (encoder : encoder_net T)
           (decoder : decoder_net T) (deep_supervision : bool) (x : T)
  : result (T + list T) :=
  skips <- DWMAKNetEncoder_forward encoder x ;;
  DWMAKNetDecoder_forward decoder deep_supervision skips.

(** * Proofs *)

(** ** Results *)

Lemma bind_Ok {T U : Type} (m : result T) (f : T -> result U) (v : U) :
  bind m f = Ok v -> exists u, m = Ok u /\ f u = Ok v.
Proof.
  destruct m as [u|e]; simpl; intros E; [eauto | discriminate].
Qed.

(** ** Lists *)

Lemma map2_map_diag {A B C D : Type} (f : B -> C -> D) (g : A -> B) (h : A -> C)
      (l : list A) :
  map2 f (map g l) (map h l) = map (fun a => f (g a) (h a)) l.
Proof.
  induction l as [|a l IH]; simpl; [reflexivity | now rewrite IH].
Qed.

Lemma map2_diag {A B : Type} (f : A -> A -> B) (l : list A) :
  map2 f l l = map (fun a => f a a) l.
Proof.
  induction l as [|a l IH]; simpl; [reflexivity | now rewrite IH].
Qed.

Lemma map2_length {A B C : Type} (f : A -> B -> C) (l : list A) (m : list B) :
  length (map2 f l m) = Nat.min (length l) (length m).
Proof.
  revert m; induction l as [|a l IH]; intros [|b m]; simpl; auto.
Qed.

Lemma map_ext_where {A B : Type} (P : A -> Prop) (f g : A -> B) (l : list A) :
  Forall P l -> (forall a, P a -> f a = g a) -> map f l = map g l.
Proof.
  intros HF E; induction HF as [|a l Pa _ IH]; simpl; [reflexivity|].
  now rewrite IH, (E a Pa).
Qed.

Lemma Forall_map_iff {A B : Type} (P : B -> Prop) (f : A -> B) (l : list A) :
  Forall P (map f l) <-> Forall (fun a => P (f a)) l.
Proof.
  induction l as [|a l IH]; simpl; split; intros HF; try constructor;
    inversion HF; subst; auto; now apply IH.
Qed.

Lemma Forall_firstn {A : Type} (P : A -> Prop) (n : nat) (l : list A) :
  Forall P l -> Forall P (firstn n l).
Proof.
  intros HF; revert n; induction HF; intros [|n]; simpl; auto.
Qed.

Lemma Forall_skipn {A : Type} (P : A -> Prop) (n : nat) (l : list A) :
  Forall P l -> Forall P (skipn n l).
Proof.
  intros HF; revert n; induction HF; intros [|n]; simpl; auto.
Qed.

(** [firstn n (skipn a l)] is the segment of [l] that starts at [a] and has
    length [n]. *)
Lemma segment_app {A : Type} (pre s post : list A) (a n : nat) :
  a = length pre -> n = length s ->
  firstn n (skipn a (pre ++ s ++ post)) = s.
Proof.
  intros -> ->.
  rewrite skipn_app, skipn_all, Nat.sub_diag; simpl.
  rewrite firstn_app, Nat.sub_diag, firstn_all; simpl.
  apply app_nil_r.
Qed.

Lemma segment_length {A : Type} (l : list A) (a n : nat) :
  a + n <= length l -> length (firstn n (skipn a l)) = n.
Proof.
  intros Hl; rewrite length_firstn, length_skipn; lia.
Qed.

Lemma segment_map {A B : Type} (f : A -> B) (l : list A) (a n : nat) :
  firstn n (skipn a (map f l)) = map f (firstn n (skipn a l)).
Proof.
  now rewrite skipn_map, firstn_map.
Qed.

Lemma segment_join {A : Type} (l : list A) (a n m : nat) :
  firstn n (skipn a l) ++ firstn m (skipn (a + n) l) = firstn (n + m) (skipn a l).
Proof.
  rewrite (Nat.add_comm a n), <- skipn_skipn.
  generalize (skipn a l) as t; clear; intros t.
  revert t; induction n as [|n IH]; intros t; simpl; [reflexivity|].
  destruct t as [|x t]; simpl.
  - now rewrite firstn_nil.
  - now rewrite IH.
Qed.

(** ** Chunks and planes *)

Lemma chunks_length {A : Type} (h w : nat) (l : list A) :
  length (chunks h w l) = h.
Proof.
  revert l; induction h as [|h IH]; intros l; simpl; auto.
Qed.

Lemma chunks_rows {A : Type} (h w : nat) (l : list A) :
  h * w <= length l -> rows_ok h w (chunks h w l).
Proof.
  split; [apply chunks_length|].
  revert l H; induction h as [|h IH]; intros l Hl; simpl; constructor.
  - rewrite length_firstn; simpl in Hl; lia.
  - apply IH; rewrite length_skipn; simpl in Hl; lia.
Qed.

Lemma chunks_concat {A : Type} (h w : nat) (p : list (list A)) (rest : list A) :
  rows_ok h w p -> chunks h w (concat p ++ rest) = p.
Proof.
  intros [Hh Hw]; revert h Hh; induction Hw as [|r p Hr _ IH]; intros h Hh;
    simpl in *; subst h; simpl; [reflexivity|].
  rewrite <- app_assoc.
  rewrite firstn_app, Hr, Nat.sub_diag, firstn_all2 by lia; simpl.
  rewrite app_nil_r; f_equal.
  rewrite skipn_app, Hr, Nat.sub_diag, skipn_all2 by lia; simpl.
  now apply IH.
Qed.

Lemma concat_chunks {A : Type} (h w : nat) (l : list A) :
  concat (chunks h w l) = firstn (h * w) l.
Proof.
  revert l; induction h as [|h IH]; intros l; simpl; [reflexivity|].
  rewrite IH; exact (segment_join l 0 w (h * w)).
Qed.

Lemma rows_ok_concat_length {A : Type} (h w : nat) (p : list (list A)) :
  rows_ok h w p -> length (concat p) = h * w.
Proof.
  intros [Hh Hw]; subst h; induction Hw as [|r p Hr _ IH]; simpl; auto.
  rewrite length_app, IH, Hr; reflexivity.
Qed.

Lemma map2_cons_rows {A : Type} (n : nat) (r : list A) (t : list (list A)) :
  Forall (fun c => length c = n) t ->
  Forall (fun c => length c = S n) (map2 cons r t).
Proof.
  intros Ht; revert r; induction Ht as [|c t Hc _ IH]; intros [|a r]; simpl;
    constructor; simpl; auto.
Qed.

Lemma transpose_rows {A : Type} (h w : nat) (m : list (list A)) :
  rows_ok h w m -> rows_ok w h (transpose w m).
Proof.
  intros [Hh Hw]; subst h.
  induction Hw as [|r m Hr _ [IH1 IH2]]; simpl.
  - split; [apply repeat_length|].
    induction w; simpl; constructor; auto.
  - split; [rewrite map2_length; lia|].
    now apply map2_cons_rows.
Qed.

(** ** Slices *)

Lemma clamp_index_nonneg (n : nat) (i : Z) :
  (0 <= i)%Z -> clamp_index n i = Nat.min (Z.to_nat i) n.
Proof.
  intros Hi; unfold clamp_index.
  destruct (Z.ltb_spec i 0); [lia | reflexivity].
Qed.

Lemma clamp_index_le (n : nat) (i : Z) : clamp_index n i <= n.
Proof.
  unfold clamp_index; destruct (Z.ltb_spec i 0); lia.
Qed.

Lemma slice_bounds_le (n : nat) (e : extent) :
  fst (slice_bounds n e) <= n /\ snd (slice_bounds n e) <= n.
Proof.
  destruct e as [[a|] [b|]]; simpl; repeat split;
    auto using clamp_index_le with arith.
Qed.

Lemma slice_length {A : Type} (e : extent) (l : list A) :
  length (slice e l) = slice_len (length l) e.
Proof.
  unfold slice; rewrite length_firstn, length_skipn.
  pose proof (slice_bounds_le (length l) e); unfold slice_len; lia.
Qed.

Lemma slice_map {A B : Type} (f : A -> B) (e : extent) (l : list A) :
  slice e (map f l) = map f (slice e l).
Proof.
  unfold slice; now rewrite length_map, segment_map.
Qed.

Lemma crop_plane_rows {A : Type} (H W : nat) (rows cols : extent) (p : list (list A)) :
  rows_ok H W p ->
  rows_ok (slice_len H rows) (slice_len W cols) (crop_plane rows cols p).
Proof.
  intros [HH HW]; unfold crop_plane; split.
  - now rewrite length_map, slice_length, HH.
  - apply Forall_map_iff.
    assert (HS : Forall (fun r => length r = W) (slice rows p)).
    { unfold slice; now apply Forall_firstn, Forall_skipn. }
    revert HS; apply Forall_impl; intros r Hr.
    now rewrite slice_length, Hr.
Qed.

Lemma crop_plane_map {A B : Type} (f : A -> B) (rows cols : extent) (p : list (list A)) :
  crop_plane rows cols (map (map f) p) = map (map f) (crop_plane rows cols p).
Proof.
  unfold crop_plane; rewrite slice_map, !map_map.
  apply map_ext; intros r; apply slice_map.
Qed.

(** ** Tensor operations on tensors built channel by channel *)

Lemma mapM_ok {T U : Type} (f : T -> result U) (h : T -> U) (l : list T) :
  (forall a, f a = Ok (h a)) -> mapM f l = Ok (map h l).
Proof.
  intros E; induction l as [|a l IH]; simpl; [reflexivity|].
  now rewrite E, IH.
Qed.

Lemma mapM_map {T U V : Type} (f : U -> result V) (g : T -> U) (h : T -> V)
      (l : list T) :
  (forall a, f (g a) = Ok (h a)) -> mapM f (map g l) = Ok (map h l).
Proof.
  intros E; induction l as [|a l IH]; simpl; [reflexivity|].
  now rewrite E, IH.
Qed.

Lemma cat_last_fold {A I : Type} (C : nat) (data : list (list (list A)))
      (n : I -> nat) (f : I -> list (list A) -> list A) (rs : list I) :
  forall (n0 : nat) (g : list (list A) -> list A),
    fold_left (fun acc u => a <- acc ;; cat_last2 a u)
              (map (fun i => T2 C (n i) (map (f i) data)) rs)
              (Ok (T2 C n0 (map g data)))
    = Ok (T2 C (n0 + list_sum (map n rs))
             (map (fun p => g p ++ concat (map (fun i => f i p) rs)) data)).
Proof.
  induction rs as [|i rs IH]; intros n0 g; simpl.
  - rewrite Nat.add_0_r; do 2 f_equal.
    apply map_ext; intros p; now rewrite app_nil_r.
  - unfold cat_last2 at 2; simpl; rewrite Nat.eqb_refl, map2_map_diag, IH.
    rewrite Nat.add_assoc; do 2 f_equal.
    apply map_ext; intros p; now rewrite app_assoc.
Qed.

Lemma cat_last_map {A I : Type} (C : nat) (data : list (list (list A)))
      (n : I -> nat) (f : I -> list (list A) -> list A) (rs : list I) :
  rs <> [] ->
  cat_last (map (fun i => T2 C (n i) (map (f i) data)) rs)
  = Ok (T2 C (list_sum (map n rs))
           (map (fun p => concat (map (fun i => f i p) rs)) data)).
Proof.
  destruct rs as [|r rs]; [congruence | intros _].
  simpl; apply cat_last_fold.
Qed.

Lemma refill_all {A I : Type} (g : I -> tensor3 A) (h : I -> tensor2 A)
      (rs : list I) :
  (forall r, flatten3 (transpose23 (g r)) = Ok (h r)) ->
  forall (i : nat) (flattened : list (tensor2 A)),
    length flattened = i + length rs ->
    refill i (map g rs) flattened = Ok (firstn i flattened ++ map h rs).
Proof.
  intros E; induction rs as [|r rs IH]; intros i fl Hl; simpl in *.
  - now rewrite Nat.add_0_r in Hl; rewrite <- Hl, firstn_all, app_nil_r.
  - rewrite E; cbn [bind].
    unfold list_assign; destruct (Nat.ltb_spec i (length fl)); [cbn [bind]|lia].
    rewrite IH.
    + f_equal.
      rewrite firstn_app, length_firstn, Nat.min_l by lia.
      rewrite firstn_all2 by (rewrite length_firstn; lia).
      replace (S i - i) with 1 by lia; simpl.
      now rewrite <- app_assoc.
    + rewrite length_app, length_firstn.
      change (length (h r :: skipn (S i) fl)) with (S (length (skipn (S i) fl))).
      rewrite length_skipn; lia.
Qed.

Lemma guards_all (H W : nat) (kernel : Z) :
  (0 <= kernel)%Z -> (kernel + 2 <= Z.of_nat H)%Z -> (kernel + 2 <= Z.of_nat W)%Z ->
  forall r, guard (Z.of_nat H) (Z.of_nat W) kernel r = true.
Proof.
  intros Hk HH HW r.
  assert (0 < h_center (Z.of_nat H) kernel)%Z by (unfold h_center; apply Z.div_str_pos; lia).
  assert (0 < w_center (Z.of_nat W) kernel)%Z by (unfold w_center; apply Z.div_str_pos; lia).
  assert (0 < Z.of_nat H - (h_center (Z.of_nat H) kernel + kernel))%Z.
  { unfold h_center. pose proof (Z.mul_div_le (Z.of_nat H - kernel) 2 ltac:(lia)). lia. }
  assert (0 < Z.of_nat W - (w_center (Z.of_nat W) kernel + kernel))%Z.
  { unfold w_center. pose proof (Z.mul_div_le (Z.of_nat W - kernel) 2 ltac:(lia)). lia. }
  destruct r; simpl; rewrite ?andb_true_iff, ?Z.ltb_lt; auto.
Qed.

(** The three row (or column) slices of a grid side [n] cut it into
    consecutive parts whenever the window fits. *)
Lemma bands_cover (n : nat) (kernel : Z) :
  (0 <= kernel)%Z -> (kernel <= Z.of_nat n)%Z ->
  let c := ((Z.of_nat n - kernel) / 2)%Z in
  slice_len n (None, Some c) = Z.to_nat c /\
  slice_len n (Some c, Some (c + kernel)%Z) = Z.to_nat kernel /\
  slice_len n (Some (c + kernel)%Z, None) = n - Z.to_nat (c + kernel) /\
  Z.to_nat c + Z.to_nat kernel + (n - Z.to_nat (c + kernel)) = n.
Proof.
  intros Hk Hn c.
  assert (0 <= c)%Z by (apply Z.div_pos; lia).
  assert (2 * c <= Z.of_nat n - kernel)%Z by (apply Z.mul_div_le; lia).
  unfold slice_len, slice_bounds; simpl.
  rewrite !clamp_index_nonneg by lia. lia.
Qed.

Lemma window_area (H W : nat) (kernel : Z) :
  (0 <= kernel)%Z -> (kernel <= Z.of_nat H)%Z -> (kernel <= Z.of_nat W)%Z ->
  list_sum (map (fun r => let w := window (Z.of_nat H) (Z.of_nat W) kernel r in
                          slice_len H (fst w) * slice_len W (snd w)) lr_order)
  = H * W /\
  list_sum (map (fun r => let w := window (Z.of_nat H) (Z.of_nat W) kernel r in
                          slice_len W (snd w) * slice_len H (fst w)) ud_order)
  = H * W.
Proof.
  intros Hk HH HW.
  destruct (bands_cover H Hk HH) as (R0 & R1 & R2 & RS).
  destruct (bands_cover W Hk HW) as (C0 & C1 & C2 & CS).
  cbv [lr_order ud_order map window fst snd list_sum h_center w_center].
  rewrite R0, R1, R2, C0, C1, C2.
  replace (H * W) with
    ((Z.to_nat ((Z.of_nat H - kernel) / 2) + Z.to_nat kernel +
      (H - Z.to_nat ((Z.of_nat H - kernel) / 2 + kernel))) *
     (Z.to_nat ((Z.of_nat W - kernel) / 2) + Z.to_nat kernel +
      (W - Z.to_nat ((Z.of_nat W - kernel) / 2 + kernel))))
    by (now rewrite RS, CS).
  generalize (H - Z.to_nat ((Z.of_nat H - kernel) / 2 + kernel)).
  generalize (W - Z.to_nat ((Z.of_nat W - kernel) / 2 + kernel)).
  intros; cbn [fold_right]; split; ring.
Qed.

Lemma flatten_lr_length {A : Type} (H W : nat) (kernel : Z) (p : list (list A)) :
  (0 <= kernel)%Z -> (kernel <= Z.of_nat H)%Z -> (kernel <= Z.of_nat W)%Z ->
  rows_ok H W p -> length (flatten_lr H W kernel p) = H * W.
Proof.
  intros Hk HH HW Hp.
  rewrite <- (proj1 (window_area H W Hk HH HW)).
  unfold flatten_lr; rewrite length_concat, map_map; f_equal.
  apply map_ext; intros r; cbv zeta.
  now apply rows_ok_concat_length, crop_plane_rows.
Qed.

Lemma flatten_ud_length {A : Type} (H W : nat) (kernel : Z) (p : list (list A)) :
  (0 <= kernel)%Z -> (kernel <= Z.of_nat H)%Z -> (kernel <= Z.of_nat W)%Z ->
  rows_ok H W p -> length (flatten_ud H W kernel p) = H * W.
Proof.
  intros Hk HH HW Hp.
  rewrite <- (proj2 (window_area H W Hk HH HW)).
  unfold flatten_ud; rewrite length_concat, map_map; f_equal.
  apply map_ext; intros r; cbv zeta.
  now apply rows_ok_concat_length, transpose_rows, crop_plane_rows.
Qed.

Lemma view_rows {A : Type} (C L : nat) (rows : list (list A)) :
  rows_ok C L rows -> chunks C L (concat rows) = rows.
Proof.
  intros Hr; rewrite <- (app_nil_r (concat rows)); now apply chunks_concat.
Qed.

Lemma rearrange_ok {A : Type} (x : tensor3 A) (kernel : Z) :
  wf3 x -> 1 <= t3_C x ->
  (0 <= kernel)%Z -> (kernel + 2 <= Z.of_nat (t3_H x))%Z ->
  (kernel + 2 <= Z.of_nat (t3_W x))%Z ->
  rearrange_center_blocks x kernel =
  Ok (T3 4 (t3_C x) (t3_H x * t3_W x)
         [map (flatten_lr (t3_H x) (t3_W x) kernel) (t3_data x);
          map (flatten_ud (t3_H x) (t3_W x) kernel) (t3_data x);
          map (fun p => rev (flatten_lr (t3_H x) (t3_W x) kernel p)) (t3_data x);
          map (fun p => rev (flatten_ud (t3_H x) (t3_W x) kernel p)) (t3_data x)]).
Proof.
  intros [HC Hwf] HC1 Hk HH HW.
  destruct x as [C H W data]; simpl in *.
  pose proof (guards_all _ _ Hk HH HW) as G.
  destruct (window_area H W Hk) as [AL AU]; try lia.
  unfold rearrange_center_blocks; cbn [t3_C t3_H t3_W t3_data].
  set (win := window (Z.of_nat H) (Z.of_nat W) kernel).
  (* blocks_lr and blocks_ud *)
  replace (filter (guard (Z.of_nat H) (Z.of_nat W) kernel) lr_order)
    with lr_order
    by (symmetry; apply forallb_filter_id, forallb_forall; auto).
  rewrite (mapM_ok _ (fun r => crop (win r) (T3 C H W data)))
    by (intros r; now rewrite G).
  cbn [bind].
  set (nlr := fun r => slice_len H (fst (win r)) * slice_len W (snd (win r))).
  set (flr := fun r (p : list (list A)) =>
                concat (crop_plane (fst (win r)) (snd (win r)) p)).
  set (nud := fun r => slice_len W (snd (win r)) * slice_len H (fst (win r))).
  set (fud := fun r (p : list (list A)) =>
                concat (transpose (slice_len W (snd (win r)))
                                  (crop_plane (fst (win r)) (snd (win r)) p))).
  assert (HF : forall r, flatten3 (crop (win r) (T3 C H W data)) =
                         Ok (T2 C (nlr r) (map (flr r) data))).
  { intros r; unfold flatten3, crop; cbn [t3_C t3_H t3_W t3_data].
    destruct (Nat.eqb_spec C 0); [lia|]. now rewrite map_map. }
  assert (HT : forall r, flatten3 (transpose23 (crop (win r) (T3 C H W data))) =
                         Ok (T2 C (nud r) (map (fud r) data))).
  { intros r; unfold flatten3, transpose23, crop; cbn [t3_C t3_H t3_W t3_data].
    destruct (Nat.eqb_spec C 0); [lia|]. now rewrite !map_map. }
  rewrite (mapM_map _ _ _ _ HF); cbn [bind].
  rewrite (cat_last_map C data nlr flr) by discriminate; cbn [bind].
  rewrite (refill_all _ _ _ HT) by reflexivity.
  cbn [bind firstn app].
  rewrite (cat_last_map C data nud fud) by discriminate; cbn [bind].
  unfold stack_view, flip, same_shape2; cbn [t2_C t2_L t2_data forallb length].
  change (list_sum (map nlr lr_order) = H * W) in AL.
  change (list_sum (map nud ud_order) = H * W) in AU.
  rewrite AL, AU, !Nat.eqb_refl; cbn [andb negb].
  assert (HL : H * W <> 0) by nia.
  replace (4 * C * (H * W)) with (C * (4 * (H * W))) by ring.
  rewrite Nat.Div0.mod_mul, Nat.div_mul by lia.
  destruct (Nat.eqb_spec (4 * (H * W)) 0) as [|_]; [lia|].
  cbn [Nat.eqb negb map t2_data].
  rewrite !map_map.
  assert (V : forall f : list (list A) -> list A,
             (forall p, rows_ok H W p -> length (f p) = H * W) ->
             chunks C (H * W) (concat (map f data)) = map f data).
  { intros f Hf; apply view_rows; split; [now rewrite length_map|].
    apply Forall_map_iff; revert Hwf; apply Forall_impl; exact Hf. }
  assert (LL := fun p => @flatten_lr_length A H W kernel p Hk ltac:(lia) ltac:(lia)).
  assert (LU := fun p => @flatten_ud_length A H W kernel p Hk ltac:(lia) ltac:(lia)).
  change (Ok (T3 4 C (H * W)
                [chunks C (H * W) (concat (map (flatten_lr H W kernel) data));
                 chunks C (H * W) (concat (map (flatten_ud H W kernel) data));
                 chunks C (H * W)
                   (concat (map (fun p => rev (flatten_lr H W kernel p)) data));
                 chunks C (H * W)
                   (concat (map (fun p => rev (flatten_ud H W kernel p)) data))])
          = Ok (T3 4 C (H * W)
                [map (flatten_lr H W kernel) data;
                 map (flatten_ud H W kernel) data;
                 map (fun p => rev (flatten_lr H W kernel p)) data;
                 map (fun p => rev (flatten_ud H W kernel p)) data])).
  rewrite !V; auto; intros p Hp; rewrite length_rev; auto.
Qed.

(** ** The recoverers on a sequence of length (2 * kernel)^2 *)

Lemma slice_bounds_segment (L a n : nat) (lo hi : option Z) :
  a + n <= L ->
  match lo with None => a = 0 | Some z => z = Z.of_nat a end ->
  match hi with None => a + n = L | Some z => z = Z.of_nat (a + n) end ->
  fst (slice_bounds L (lo, hi)) = a /\ slice_len L (lo, hi) = n.
Proof.
  intros Hl Hlo Hhi.
  assert (fst (slice_bounds L (lo, hi)) = a /\
          snd (slice_bounds L (lo, hi)) = a + n) as [Ea Eb].
  { unfold slice_bounds; cbn [fst snd]; split.
    - destruct lo as [z|]; [subst z; rewrite clamp_index_nonneg; lia | lia].
    - destruct hi as [z|]; [subst z; rewrite clamp_index_nonneg; lia | lia]. }
  unfold slice_len; rewrite Ea, Eb; split; lia.
Qed.

Lemma slice_segment {A : Type} (a n : nat) (lo hi : option Z) (l : list A) :
  a + n <= length l ->
  match lo with None => a = 0 | Some z => z = Z.of_nat a end ->
  match hi with None => a + n = length l | Some z => z = Z.of_nat (a + n) end ->
  slice (lo, hi) l = firstn n (skipn a l).
Proof.
  intros Hl Hlo Hhi.
  destruct (@slice_bounds_segment (length l) a n lo hi) as [Ea En]; auto.
  unfold slice; now rewrite Ea, En.
Qed.

Lemma reshape_piece {A : Type} (x : tensor2 A) (a h w : nat)
      (lo hi : option Z) (hz wz : Z) :
  wf2 x -> a + h * w <= t2_L x ->
  match lo with None => a = 0 | Some z => z = Z.of_nat a end ->
  match hi with None => a + h * w = t2_L x | Some z => z = Z.of_nat (a + h * w) end ->
  hz = Z.of_nat h -> wz = Z.of_nat w ->
  reshape_hw (slice_last (lo, hi) x) hz wz
  = Ok (T3 (t2_C x) h w (map (piece a h w) (t2_data x))).
Proof.
  intros [HC HL] Ha Hlo Hhi -> ->.
  destruct x as [C L data]; cbn [t2_C t2_L t2_data] in *.
  unfold reshape_hw, slice_last; cbn [t2_C t2_L t2_data].
  destruct (Z.ltb_spec (Z.of_nat h) 0); [lia|].
  destruct (Z.ltb_spec (Z.of_nat w) 0); [lia|]; cbn [orb].
  assert (EL : slice_len L (lo, hi) = h * w).
  { now apply (@slice_bounds_segment L a (h * w) lo hi). }
  rewrite EL, !Nat2Z.id.
  destruct (Z.eqb_spec (Z.of_nat (C * (h * w))) (Z.of_nat C * (Z.of_nat h * Z.of_nat w)));
    [|lia].
  do 2 f_equal; rewrite map_map.
  apply map_ext_where with (P := fun r => length r = L); auto.
  intros r Hr; unfold piece; f_equal.
  apply slice_segment; rewrite ?Hr; auto.
Qed.

Lemma assemble_ok {A : Type} (C h0 h1 h2 w0 w1 w2 : nat)
      (d : list (list A)) (f00 f01 f02 f10 f11 f12 f20 f21 f22 : list A -> list (list A)) :
  assemble (T3 C h0 w0 (map f00 d)) (T3 C h0 w1 (map f01 d)) (T3 C h0 w2 (map f02 d))
           (T3 C h1 w0 (map f10 d)) (T3 C h1 w1 (map f11 d)) (T3 C h1 w2 (map f12 d))
           (T3 C h2 w0 (map f20 d)) (T3 C h2 w1 (map f21 d)) (T3 C h2 w2 (map f22 d))
  = Ok (T3 C (h0 + h1 + h2) (w0 + w1 + w2)
           (map (fun r => glue (f00 r) (f01 r) (f02 r) (f10 r) (f11 r) (f12 r)
                               (f20 r) (f21 r) (f22 r)) d)).
Proof.
  unfold assemble, cat3, cat_dim3, cat_dim2; cbn [t3_C t3_H t3_W t3_data bind].
  rewrite !Nat.eqb_refl; cbn [andb bind t3_C t3_H t3_W t3_data].
  rewrite !Nat.eqb_refl; cbn [andb bind t3_C t3_H t3_W t3_data].
  rewrite !Nat.eqb_refl; cbn [andb bind t3_C t3_H t3_W t3_data].
  rewrite !map2_map_diag, !Nat.eqb_refl; cbn [andb].
  do 2 f_equal; apply map_ext; intros r; unfold glue.
  now rewrite app_assoc.
Qed.

Lemma band_sum (n : nat) : band n 0 + band n 1 + band n 2 = 2 * n.
Proof.
  unfold band; pose proof (Nat.div_mod_eq n 2); lia.
Qed.

(** Parity of the kernel, as the recoverers see it. *)
Lemma kernel_parity (n : nat) :
  let s := n / 2 in
  (Z.of_nat n / 2)%Z = Z.of_nat s /\
  (if Z.even (Z.of_nat n) then n = 2 * s else n = 2 * s + 1).
Proof.
  intros s; split.
  - unfold s; now rewrite (Nat2Z.inj_div n 2).
  - pose proof (Nat.div_mod_eq n 2) as E; fold s in E.
    pose proof (Nat.mod_upper_bound n 2 ltac:(lia)).
    destruct (Z.even (Z.of_nat n)) eqn:Ev.
    + apply Z.even_spec in Ev; destruct Ev as [k Hk]; lia.
    + assert (Od : Z.odd (Z.of_nat n) = true)
        by (rewrite <- Z.negb_even, Ev; reflexivity).
      apply Z.odd_spec in Od; destruct Od as [k Hk]; lia.
Qed.

Ltac piece_step x a h w :=
  rewrite (@reshape_piece _ x a h w); cbn [bind t2_C t2_L t2_data].

Ltac piece_steps x a shapes :=
  lazymatch shapes with
  | (?h, ?w) :: ?rest =>
      piece_step x a h w; [piece_steps x (a + h * w) rest | .. ]
  | _ => idtac
  end.

Lemma recover_window_lr_ok {A : Type} (x : tensor2 A) (n : nat) :
  wf2 x -> t2_L x = 2 * n * (2 * n) ->
  recover_window_lr x (Z.of_nat n)
  = Ok (T3 (t2_C x) (2 * n) (2 * n) (map (unflatten_lr n) (t2_data x))).
Proof.
  intros Hwf HL.
  destruct (kernel_parity n) as [Hs Hn].
  replace (T3 (t2_C x) (2 * n) (2 * n) (map (unflatten_lr n) (t2_data x)))
    with (T3 (t2_C x) (band n 0 + band n 1 + band n 2)
             (band n 0 + band n 1 + band n 2) (map (unflatten_lr n) (t2_data x)))
    by now rewrite band_sum.
  unfold unflatten_lr, shapes_lr; cbn [pieces].
  set (b0 := band n 0). set (b1 := band n 1). set (b2 := band n 2).
  assert (B0 : b0 = n / 2) by reflexivity.
  assert (B1 : b1 = n) by reflexivity.
  assert (B2 : b2 = n - n / 2) by reflexivity.
  clearbody b0 b1 b2.
  unfold recover_window_lr.
  revert Hs Hn B0 B2; generalize (n / 2); intros s Hs Hn B0 B2.
  destruct (Z.even (Z.of_nat n)).
  - assert (B2' : b2 = s) by lia; clear B2.
    piece_steps x 0
      [(b0, b0); (b0, b1); (b0, b2); (b1, b0); (b1, b1); (b1, b2);
       (b2, b0); (b2, b1); (b2, b2)].
    all: try solve [ assumption
                   | cbv beta iota; rewrite ?Hs, ?HL; subst b0 b1 b2 n; lia ].
    apply assemble_ok.
  - assert (B2' : b2 = s + 1) by lia; clear B2.
    piece_steps x 0
      [(b0, b0); (b0, b1); (b0, b2); (b1, b0); (b1, b1); (b1, b2);
       (b2, b0); (b2, b1); (b2, b2)].
    all: try solve [ assumption
                   | cbv beta iota; rewrite ?Hs, ?HL; subst b0 b1 b2 n; lia ].
    apply assemble_ok.
Qed.

Lemma recover_window_ud_ok {A : Type} (x : tensor2 A) (n : nat) :
  wf2 x -> t2_L x = 2 * n * (2 * n) ->
  recover_window_ud x (Z.of_nat n)
  = Ok (T3 (t2_C x) (2 * n) (2 * n) (map (unflatten_ud n) (t2_data x))).
Proof.
  intros Hwf HL.
  destruct (kernel_parity n) as [Hs Hn].
  replace (T3 (t2_C x) (2 * n) (2 * n) (map (unflatten_ud n) (t2_data x)))
    with (T3 (t2_C x) (band n 0 + band n 1 + band n 2)
             (band n 0 + band n 1 + band n 2) (map (unflatten_ud n) (t2_data x)))
    by now rewrite band_sum.
  unfold unflatten_ud, shapes_ud; cbn [pieces].
  set (b0 := band n 0). set (b1 := band n 1). set (b2 := band n 2).
  assert (B0 : b0 = n / 2) by reflexivity.
  assert (B1 : b1 = n) by reflexivity.
  assert (B2 : b2 = n - n / 2) by reflexivity.
  clearbody b0 b1 b2.
  unfold recover_window_ud.
  revert Hs Hn B0 B2; generalize (n / 2); intros s Hs Hn B0 B2.
  destruct (Z.even (Z.of_nat n)).
  - assert (B2' : b2 = s) by lia; clear B2.
    piece_steps x 0
      [(b0, b0); (b1, b0); (b2, b0); (b0, b1); (b1, b1); (b2, b1);
       (b0, b2); (b1, b2); (b2, b2)].
    all: try solve [ assumption
                   | cbv beta iota; rewrite ?Hs, ?HL; subst b0 b1 b2 n; lia ].
    apply assemble_ok.
  - assert (B2' : b2 = s + 1) by lia; clear B2.
    piece_steps x 0
      [(b0, b0); (b1, b0); (b2, b0); (b0, b1); (b1, b1); (b2, b1);
       (b0, b2); (b1, b2); (b2, b2)].
    all: try solve [ assumption
                   | cbv beta iota; rewrite ?Hs, ?HL; subst b0 b1 b2 n; lia ].
    apply assemble_ok.
Qed.

(** ** Cutting a plane into the nine blocks and gluing it back *)

Lemma slices_cover {A : Type} (n : nat) (kernel : Z) (l : list A) :
  length l = n -> (0 <= kernel)%Z -> (kernel <= Z.of_nat n)%Z ->
  let c := ((Z.of_nat n - kernel) / 2)%Z in
  slice (None, Some c) l ++ slice (Some c, Some (c + kernel)%Z) l
  ++ slice (Some (c + kernel)%Z, None) l = l.
Proof.
  intros Hl Hk Hn c.
  assert (0 <= c)%Z by (apply Z.div_pos; lia).
  assert (2 * c <= Z.of_nat n - kernel)%Z by (apply Z.mul_div_le; lia).
  rewrite (@slice_segment A 0 (Z.to_nat c)), 
    (@slice_segment A (Z.to_nat c) (Z.to_nat kernel)),
    (@slice_segment A (Z.to_nat c + Z.to_nat kernel)
                    (n - (Z.to_nat c + Z.to_nat kernel))); try lia.
  rewrite (segment_join l (Z.to_nat c)).
  change (Z.to_nat c) with (0 + Z.to_nat c) at 3.
  rewrite (segment_join l 0); simpl skipn.
  apply firstn_all2; lia.
Qed.

Section Glue.
Context {A : Type}.
Variables (H W : nat) (kernel : Z).
Hypothesis Hk : (0 <= kernel)%Z.
Hypothesis HH : (kernel <= Z.of_nat H)%Z.
Hypothesis HW : (kernel <= Z.of_nat W)%Z.

Let block (p : list (list A)) (r : region) : list (list A) :=
  let w := window (Z.of_nat H) (Z.of_nat W) kernel r in
  crop_plane (fst w) (snd w) p.

(** The blocks of a plane, side by side and one above the other, are the
    plane. *)
Lemma glue_blocks (p : list (list A)) :
  rows_ok H W p ->
  glue (block p TopLeft) (block p Top) (block p TopRight)
       (block p Left) (block p Center) (block p Right)
       (block p BottomLeft) (block p Bottom) (block p BottomRight) = p.
Proof.
  intros [Hh Hw].
  unfold glue, block, crop_plane, window; cbn [fst snd].
  rewrite !map2_map_diag.
  assert (E : forall q : list (list A),
             Forall (fun r => length r = W) q ->
             map (fun a => (slice (None, Some (w_center (Z.of_nat W) kernel)) a
                            ++ slice (Some (w_center (Z.of_nat W) kernel),
                                      Some (w_center (Z.of_nat W) kernel + kernel)%Z) a)
                            ++ slice (Some (w_center (Z.of_nat W) kernel + kernel)%Z, None) a) q
             = q).
  { intros q Hq; rewrite <- (map_id q) at 2.
    apply map_ext_where with (P := fun r => length r = W); auto.
    intros r Hr; rewrite <- app_assoc.
    now apply slices_cover. }
  unfold slice at 1 5 9.
  rewrite !E by (unfold slice; now apply Forall_firstn, Forall_skipn).
  now apply slices_cover.
Qed.
End Glue.

(** ** Blocks read back from a concatenation *)

Lemma pieces_concat {A : Type} (shapes : list (nat * nat))
      (blocks : list (list (list A))) :
  Forall2 (fun s b => rows_ok (fst s) (snd s) b) shapes blocks ->
  forall (pre rest : list A) (a : nat),
    a = length pre ->
    pieces a shapes (pre ++ concat (map (@concat A) blocks) ++ rest) = blocks.
Proof.
  induction 1 as [|[h w] b shapes blocks Hb _ IH]; intros pre rest a Ha;
    simpl; [reflexivity|].
  cbn [fst snd] in Hb.
  pose proof (rows_ok_concat_length Hb) as Lb.
  f_equal.
  - unfold piece; rewrite <- app_assoc, segment_app by auto.
    now apply view_rows.
  - rewrite <- app_assoc, app_assoc.
    apply IH; rewrite length_app; lia.
Qed.

Lemma pieces_shapes {A : Type} (shapes : list (nat * nat)) (row : list A) :
  forall a, a + list_sum (map (fun s => fst s * snd s) shapes) <= length row ->
  Forall2 (fun s b => rows_ok (fst s) (snd s) b) shapes (pieces a shapes row).
Proof.
  induction shapes as [|[h w] shapes IH]; intros a Ha; simpl in *; constructor.
  - cbn [fst snd]; unfold piece; apply chunks_rows.
    rewrite segment_length; lia.
  - apply IH; lia.
Qed.

Lemma concat_pieces {A : Type} (shapes : list (nat * nat)) (row : list A) :
  forall a,
    concat (map (@concat A) (pieces a shapes row))
    = firstn (list_sum (map (fun s => fst s * snd s) shapes)) (skipn a row).
Proof.
  induction shapes as [|[h w] shapes IH]; intros a; simpl; [reflexivity|].
  rewrite IH; unfold piece; rewrite concat_chunks, firstn_firstn, Nat.min_id.
  apply segment_join.
Qed.

(** ** A grid of side 2n with a window of side n *)

Lemma band_slices (n : nat) :
  let c := h_center (Z.of_nat (2 * n)) (Z.of_nat n) in
  slice_len (2 * n) (None, Some c) = band n 0 /\
  slice_len (2 * n) (Some c, Some (c + Z.of_nat n)%Z) = band n 1 /\
  slice_len (2 * n) (Some (c + Z.of_nat n)%Z, None) = band n 2.
Proof.
  intros c.
  destruct (@bands_cover (2 * n) (Z.of_nat n)) as (E0 & E1 & E2 & _); try lia.
  assert (Ec : c = Z.of_nat (n / 2)).
  { unfold c, h_center. rewrite <- (proj1 (kernel_parity n)); f_equal; lia. }
  fold (h_center (Z.of_nat (2 * n)) (Z.of_nat n)) in E0, E1, E2; fold c in E0, E1, E2.
  rewrite E0, E1, E2, Ec; unfold band.
  pose proof (Nat.div_mod_eq n 2); repeat split; lia.
Qed.

Lemma blocks_shapes {A : Type} (n : nat) (p : list (list A)) (order : list region)
      (shape : region -> nat * nat) :
  rows_ok (2 * n) (2 * n) p ->
  (forall r,
      let w := window (Z.of_nat (2 * n)) (Z.of_nat (2 * n)) (Z.of_nat n) r in
      shape r = (slice_len (2 * n) (fst w), slice_len (2 * n) (snd w))) ->
  Forall2 (fun s b => rows_ok (fst s) (snd s) b)
          (map shape order)
          (map (fun r =>
                  let w := window (Z.of_nat (2 * n)) (Z.of_nat (2 * n)) (Z.of_nat n) r in
                  crop_plane (fst w) (snd w) p) order).
Proof.
  intros Hp Hs; induction order as [|r order IH]; simpl; constructor; auto.
  rewrite Hs; cbn [fst snd]; now apply crop_plane_rows.
Qed.

Lemma region_shape_window (n : nat) (r : region) :
  let w := window (Z.of_nat (2 * n)) (Z.of_nat (2 * n)) (Z.of_nat n) r in
  region_shape n r = (slice_len (2 * n) (fst w), slice_len (2 * n) (snd w)).
Proof.
  destruct (band_slices n) as (E0 & E1 & E2).
  unfold w_center; unfold h_center in *.
  destruct r; cbn [window fst snd region_shape]; unfold w_center, h_center;
    now rewrite ?E0, ?E1, ?E2.
Qed.

(** [recover_window_lr] undoes the left-to-right flattening. *)
Lemma unflatten_flatten_lr {A : Type} (n : nat) (p : list (list A)) :
  rows_ok (2 * n) (2 * n) p ->
  unflatten_lr n (flatten_lr (2 * n) (2 * n) (Z.of_nat n) p) = p.
Proof.
  intros Hp.
  pose proof (@pieces_concat A _ _
                (@blocks_shapes A n p lr_order (region_shape n) Hp
                                (region_shape_window n))
                [] [] 0 eq_refl) as E.
  cbn [app] in E; rewrite app_nil_r, map_map in E.
  unfold unflatten_lr, flatten_lr.
  change (shapes_lr n) with (map (region_shape n) lr_order).
  rewrite E; cbn [map lr_order].
  apply glue_blocks; auto; lia.
Qed.

Lemma slice_pick {T : Type} (b0 b1 b2 : nat) (l0 l1 l2 : list T) :
  length l0 = b0 -> length l1 = b1 -> length l2 = b2 ->
  let c := Z.of_nat b0 in
  let k := Z.of_nat b1 in
  slice (None, Some c) ((l0 ++ l1) ++ l2) = l0 /\
  slice (Some c, Some (c + k)%Z) ((l0 ++ l1) ++ l2) = l1 /\
  slice (Some (c + k)%Z, None) ((l0 ++ l1) ++ l2) = l2.
Proof.
  intros H0 H1 H2 c k.
  assert (HL : length ((l0 ++ l1) ++ l2) = b0 + b1 + b2)
    by (rewrite !length_app; lia).
  rewrite (@slice_segment T 0 b0), (@slice_segment T b0 b1),
    (@slice_segment T (b0 + b1) b2); try lia.
  rewrite <- app_assoc; repeat split.
  - now apply (segment_app []).
  - now apply segment_app.
  - rewrite app_assoc, <- (app_nil_r l2) at 1.
    apply segment_app; auto; rewrite length_app; lia.
Qed.

Lemma rows_pick {A : Type} (e0 e1 e2 : extent) (w0 w1 w2 : nat) :
  (forall l0 l1 l2 : list A,
      length l0 = w0 -> length l1 = w1 -> length l2 = w2 ->
      slice e0 ((l0 ++ l1) ++ l2) = l0 /\
      slice e1 ((l0 ++ l1) ++ l2) = l1 /\
      slice e2 ((l0 ++ l1) ++ l2) = l2) ->
  forall (h : nat) (X Y Z : list (list A)),
    rows_ok h w0 X -> rows_ok h w1 Y -> rows_ok h w2 Z ->
    let G := map2 (@app A) (map2 (@app A) X Y) Z in
    length G = h /\
    map (slice e0) G = X /\ map (slice e1) G = Y /\ map (slice e2) G = Z.
Proof.
  intros Hpick h; induction h as [|h IH]; intros X Y Z [HX FX] [HY FY] [HZ FZ].
  - destruct X, Y, Z; try discriminate; simpl; auto.
  - destruct X as [|x X], Y as [|y Y], Z as [|z Z]; try discriminate.
    inversion FX; inversion FY; inversion FZ; subst.
    simpl in HX, HY, HZ.
    destruct (IH X Y Z) as (E & E0 & E1 & E2); try (split; auto; lia).
    destruct (Hpick x y z) as (P0 & P1 & P2); auto.
    cbn [map2 map length]; rewrite E, E0, E1, E2, P0, P1, P2; auto.
Qed.

Lemma h_center_band (n : nat) :
  h_center (Z.of_nat (2 * n)) (Z.of_nat n) = Z.of_nat (band n 0).
Proof.
  unfold h_center, band; rewrite <- (proj1 (kernel_parity n)); f_equal; lia.
Qed.

Lemma crop_glue {A : Type} (n : nat)
      (b00 b01 b02 b10 b11 b12 b20 b21 b22 : list (list A)) :
  rows_ok (band n 0) (band n 0) b00 -> rows_ok (band n 0) (band n 1) b01 ->
  rows_ok (band n 0) (band n 2) b02 -> rows_ok (band n 1) (band n 0) b10 ->
  rows_ok (band n 1) (band n 1) b11 -> rows_ok (band n 1) (band n 2) b12 ->
  rows_ok (band n 2) (band n 0) b20 -> rows_ok (band n 2) (band n 1) b21 ->
  rows_ok (band n 2) (band n 2) b22 ->
  map (fun r =>
         let w := window (Z.of_nat (2 * n)) (Z.of_nat (2 * n)) (Z.of_nat n) r in
         crop_plane (fst w) (snd w)
                    (glue b00 b01 b02 b10 b11 b12 b20 b21 b22)) lr_order
  = [b00; b01; b02; b10; b11; b12; b20; b21; b22].
Proof.
  intros R00 R01 R02 R10 R11 R12 R20 R21 R22.
  cbn [map lr_order window fst snd]; unfold w_center.
  fold (h_center (Z.of_nat (2 * n)) (Z.of_nat n)); rewrite h_center_band.
  change (Z.of_nat n) with (Z.of_nat (band n 1)).
  set (e0 := (None, Some (Z.of_nat (band n 0)))).
  set (e1 := (Some (Z.of_nat (band n 0)),
              Some (Z.of_nat (band n 0) + Z.of_nat (band n 1))%Z)).
  set (e2 := (Some (Z.of_nat (band n 0) + Z.of_nat (band n 1))%Z, @None Z)).
  assert (P : forall T (l0 l1 l2 : list T),
             length l0 = band n 0 -> length l1 = band n 1 -> length l2 = band n 2 ->
             slice e0 ((l0 ++ l1) ++ l2) = l0 /\
             slice e1 ((l0 ++ l1) ++ l2) = l1 /\
             slice e2 ((l0 ++ l1) ++ l2) = l2).
  { intros T l0 l1 l2 H0 H1 H2; now apply slice_pick with (b2 := band n 2). }
  destruct (rows_pick e0 e1 e2 (P A) R00 R01 R02) as (L0 & E00 & E01 & E02).
  destruct (rows_pick e0 e1 e2 (P A) R10 R11 R12) as (L1 & E10 & E11 & E12).
  destruct (rows_pick e0 e1 e2 (P A) R20 R21 R22) as (L2 & E20 & E21 & E22).
  unfold glue, crop_plane; rewrite app_assoc.
  destruct (P _ _ _ _ L0 L1 L2) as (S0 & S1 & S2).
  rewrite S0, S1, S2, E00, E01, E02, E10, E11, E12, E20, E21, E22.
  reflexivity.
Qed.

Lemma shapes_lr_area (n : nat) :
  list_sum (map (fun s => fst s * snd s) (shapes_lr n)) = 2 * n * (2 * n).
Proof.
  rewrite <- (band_sum n); unfold shapes_lr; cbn [map list_sum fst snd fold_right].
  generalize (band n 0) (band n 1) (band n 2); intros; ring.
Qed.

Lemma shapes_ud_area (n : nat) :
  list_sum (map (fun s => fst s * snd s) (shapes_ud n)) = 2 * n * (2 * n).
Proof.
  rewrite <- (band_sum n); unfold shapes_ud; cbn [map list_sum fst snd fold_right].
  generalize (band n 0) (band n 1) (band n 2); intros; ring.
Qed.

Lemma glue_rows {A : Type} (h0 h1 h2 w0 w1 w2 : nat)
      (b00 b01 b02 b10 b11 b12 b20 b21 b22 : list (list A)) :
  rows_ok h0 w0 b00 -> rows_ok h0 w1 b01 -> rows_ok h0 w2 b02 ->
  rows_ok h1 w0 b10 -> rows_ok h1 w1 b11 -> rows_ok h1 w2 b12 ->
  rows_ok h2 w0 b20 -> rows_ok h2 w1 b21 -> rows_ok h2 w2 b22 ->
  rows_ok (h0 + h1 + h2) (w0 + w1 + w2)
          (glue b00 b01 b02 b10 b11 b12 b20 b21 b22).
Proof.
  assert (B : forall h X Y Z,
             rows_ok h w0 X -> rows_ok h w1 Y -> rows_ok h w2 Z ->
             rows_ok h (w0 + w1 + w2) (map2 (@app A) (map2 (@app A) X Y) Z)).
  { induction h as [|h IH]; intros X Y Z [HX FX] [HY FY] [HZ FZ].
    - destruct X, Y, Z; try discriminate; split; simpl; auto.
    - destruct X as [|x X], Y as [|y Y], Z as [|z Z]; try discriminate.
      inversion FX; inversion FY; inversion FZ; subst.
      simpl in HX, HY, HZ.
      destruct (IH X Y Z) as [E F]; try (split; auto; lia).
      split; cbn [map2 length]; [lia|].
      constructor; auto; rewrite !length_app; lia. }
  intros R00 R01 R02 R10 R11 R12 R20 R21 R22.
  destruct (B _ _ _ _ R00 R01 R02) as [L0 F0].
  destruct (B _ _ _ _ R10 R11 R12) as [L1 F1].
  destruct (B _ _ _ _ R20 R21 R22) as [L2 F2].
  unfold glue; split.
  - rewrite !length_app; lia.
  - repeat (apply Forall_app; split); auto.
Qed.

Lemma flatten_unflatten_lr {A : Type} (n : nat) (row : list A) :
  length row = 2 * n * (2 * n) ->
  rows_ok (2 * n) (2 * n) (unflatten_lr n row) /\
  flatten_lr (2 * n) (2 * n) (Z.of_nat n) (unflatten_lr n row) = row.
Proof.
  intros Hrow.
  pose proof (@pieces_shapes A (shapes_lr n) row 0) as HS.
  rewrite shapes_lr_area in HS; specialize (HS ltac:(lia)).
  pose proof (@concat_pieces A (shapes_lr n) row 0) as HC.
  rewrite shapes_lr_area in HC; simpl skipn in HC.
  rewrite firstn_all2 in HC by lia.
  unfold unflatten_lr, flatten_lr.
  destruct (pieces 0 (shapes_lr n) row)
    as [|b00 [|b01 [|b02 [|b10 [|b11 [|b12 [|b20 [|b21 [|b22 [|? ?]]]]]]]]]];
    try (apply Forall2_length in HS; discriminate).
  unfold shapes_lr in HS; revert Hrow HC.
  repeat match goal with
         | H : Forall2 _ (_ :: _) (_ :: _) |- _ => inversion H; subst; clear H
         end.
  cbn [fst snd] in *; intros Hrow HC.
  split.
  - rewrite <- (band_sum n); now apply glue_rows.
  - rewrite <- (map_map _ (@concat A)), crop_glue by assumption.
    exact HC.
Qed.

(** ** The recoverers read the segments of their table *)

Ltac run_binds :=
  repeat match goal with
         | |- context [bind (reshape_hw ?t ?h ?w) _] =>
             destruct (reshape_hw t h w); cbn [bind]; [|reflexivity]
         end.

Lemma recover_window_lr_table {A : Type} (x : tensor2 A) (kernel : Z) :
  recover_window_lr x kernel =
  (bs <- mapM (cut x) (lr_segments kernel) ;;
   match bs with
   | [b00; b01; b02; b10; b11; b12; b20; b21; b22] =>
       assemble b00 b01 b02 b10 b11 b12 b20 b21 b22
   | _ => Raise RuntimeError
   end).
Proof.
  unfold recover_window_lr, lr_segments, cut.
  destruct (Z.even kernel); cbn [mapM fst snd]; run_binds; reflexivity.
Qed.


Lemma mapM_Ok_Forall {T U : Type} (f : T -> result U) (l : list T) (v : list U) :
  mapM f l = Ok v -> Forall (fun a => exists b, f a = Ok b) l.
Proof.
  revert v; induction l as [|a l IH]; intros v E; simpl in E; constructor.
  - destruct (f a); [eauto | discriminate].
  - destruct (f a); [|discriminate]; cbn [bind] in E.
    destruct (mapM f l) eqn:E'; [eauto | discriminate].
Qed.

Lemma cut_Ok {A : Type} (x : tensor2 A) (s : extent * (Z * Z)) (b : tensor3 A) :
  1 <= t2_C x -> cut x s = Ok b ->
  (0 <= fst (snd s))%Z /\ (0 <= snd (snd s))%Z /\ fits (t2_L x) s.
Proof.
  intros HC; unfold cut, reshape_hw, fits, slice_last; cbn [t2_C t2_L].
  destruct (Z.ltb_spec (fst (snd s)) 0); [discriminate|].
  destruct (Z.ltb_spec (snd (snd s)) 0); [discriminate|]; cbn [orb].
  destruct (Z.eqb_spec (Z.of_nat (t2_C x * slice_len (t2_L x) (fst s)))
                       (Z.of_nat (t2_C x) * (fst (snd s) * snd (snd s))))
    as [E|]; [intros _ | discriminate].
  repeat split; auto.
  rewrite Nat2Z.inj_mul in E; apply Z.mul_reg_l in E; auto; lia.
Qed.

Lemma slice_len_mid (L : nat) (lo hi : Z) :
  (0 <= lo)%Z -> (lo <= hi)%Z ->
  Z.of_nat (slice_len L (Some lo, Some hi))
  = (Z.min hi (Z.of_nat L) - Z.min lo (Z.of_nat L))%Z.
Proof.
  intros; unfold slice_len, slice_bounds; cbn [fst snd].
  rewrite !clamp_index_nonneg by lia; lia.
Qed.

Lemma slice_len_first (L : nat) (hi : Z) :
  (0 <= hi)%Z ->
  Z.of_nat (slice_len L (None, Some hi)) = Z.min hi (Z.of_nat L).
Proof.
  intros; unfold slice_len, slice_bounds; cbn [fst snd].
  rewrite !clamp_index_nonneg by lia; lia.
Qed.

Lemma slice_len_last (L : nat) (lo : Z) :
  (0 <= lo)%Z ->
  Z.of_nat (slice_len L (Some lo, None))
  = (Z.of_nat L - Z.min lo (Z.of_nat L))%Z.
Proof.
  intros; unfold slice_len, slice_bounds; cbn [fst snd].
  rewrite !clamp_index_nonneg by lia; lia.
Qed.

Lemma parity_cases (kernel : Z) :
  if Z.even kernel then kernel = (2 * (kernel / 2))%Z
  else kernel = (2 * (kernel / 2) + 1)%Z.
Proof.
  pose proof (Z.div_mod kernel 2 ltac:(lia)) as E.
  rewrite Zmod_even in E; destruct (Z.even kernel); lia.
Qed.

Ltac split_Forall H :=
  repeat (let H1 := fresh "F" in
          apply Forall_cons_iff in H; destruct H as [H1 H]).

Lemma fits_total_lr (L : nat) (kernel : Z) :
  (0 <= kernel / 2)%Z -> Forall (fits L) (lr_segments kernel) ->
  Z.of_nat L = (2 * kernel * (2 * kernel))%Z.
Proof.
  intros Hs HF; pose proof (parity_cases kernel) as Hp.
  unfold lr_segments in HF; destruct (Z.even kernel); cbv zeta in HF;
    set (s := (kernel / 2)%Z) in *; clearbody s; subst kernel;
    split_Forall HF; clear HF; unfold fits in *; cbn [fst snd] in *;
    repeat match goal with
           | H : Z.of_nat (slice_len _ _) = _ |- _ =>
               first [ rewrite slice_len_mid in H by nia
                     | rewrite slice_len_first in H by nia
                     | rewrite slice_len_last in H by nia ];
               ring_simplify in H; revert H
           end; intros; lia.
Qed.








Lemma recover_window_lr_inv {A : Type} (x : tensor2 A) (kernel : Z) (g : tensor3 A) :
  1 <= t2_C x -> recover_window_lr x kernel = Ok g ->
  (0 <= kernel)%Z /\ Z.of_nat (t2_L x) = (2 * kernel * (2 * kernel))%Z.
Proof.
  intros HC E; rewrite recover_window_lr_table in E.
  apply bind_Ok in E; destruct E as (bs & E & _).
  apply mapM_Ok_Forall in E.
  assert (F : Forall (fun s => (0 <= fst (snd s))%Z /\ fits (t2_L x) s)
                     (lr_segments kernel)).
  { revert E; apply Forall_impl; intros s [b Hb].
    destruct (cut_Ok x s HC Hb) as (? & ? & ?); auto. }
  assert (Hs : (0 <= kernel / 2)%Z).
  { unfold lr_segments in F; destruct (Z.even kernel);
      apply Forall_inv in F; apply F. }
  split.
  - destruct (Z.le_gt_cases 0 kernel) as [|Hn]; auto.
    pose proof (Z.div_lt_upper_bound kernel 2 0 ltac:(lia) ltac:(lia)); lia.
  - apply fits_total_lr; auto.
    revert F; apply Forall_impl; intros s [_ Hf]; exact Hf.
Qed.

(** ** [recover_center_blocks] *)

Lemma reshape_BL_rows {A : Type} (C L : nat) (rows : list (list A)) :
  rows_ok C L rows ->
  reshape_BL L (T2 C L rows)
  = if (L =? 0)%nat then Raise RuntimeError else Ok (T2 C L rows).
Proof.
  intros Hr; unfold reshape_BL; cbn [t2_C t2_L t2_data].
  destruct (Nat.eqb_spec L 0) as [|HL]; [reflexivity|].
  rewrite Nat.Div0.mod_mul, Nat.div_mul by auto; cbn [Nat.eqb negb].
  now rewrite view_rows.
Qed.

Lemma rows_ok_rev {A : Type} (C L : nat) (rows : list (list A)) :
  rows_ok C L rows -> rows_ok C L (map (@rev A) rows).
Proof.
  intros [Hc Hl]; split; [now rewrite length_map|].
  apply Forall_map_iff; revert Hl; apply Forall_impl; intros r Hr.
  now rewrite length_rev.
Qed.

Lemma rows_ok_map2 {A : Type} (f : A -> A -> A) (C L : nat) (a b : list (list A)) :
  rows_ok C L a -> rows_ok C L b -> rows_ok C L (map2 (map2 f) a b).
Proof.
  intros [Ha Fa] [Hb Fb]; split; [rewrite map2_length; lia|].
  clear Ha Hb; revert b Fb; induction Fa as [|r a Hr _ IH]; intros b Fb;
    destruct Fb as [|s b Hs Fb]; simpl; constructor; auto.
  rewrite map2_length; lia.
Qed.

Section Recover.
Context {A : Type}.
Variable add : A -> A -> A.

Lemma paired_wf (C L : nat) (fwd bwd : list (list A)) :
  rows_ok C L fwd -> rows_ok C L bwd -> wf2 (paired add C L fwd bwd).
Proof.
  intros; unfold paired; apply rows_ok_map2; auto using rows_ok_rev.
Qed.

Lemma recover_center_blocks_eq (K C L : nat) (lr ud rl du : list (list A))
      (rest : list (list (list A))) (kernel : Z) :
  rows_ok C L lr -> rows_ok C L ud -> rows_ok C L rl -> rows_ok C L du ->
  L <> 0 ->
  recover_center_blocks add (T3 K C L (lr :: ud :: rl :: du :: rest)) kernel
  = (y1 <- recover_window_lr (paired add C L lr rl) kernel ;;
     y2 <- recover_window_ud (paired add C L ud du) kernel ;;
     add3 add y1 y2).
Proof.
  intros Hlr Hud Hrl Hdu HL.
  unfold recover_center_blocks, select, flip;
    cbn [t3_data t3_H t3_W nth_error bind t2_C t2_L t2_data].
  rewrite !reshape_BL_rows by auto using rows_ok_rev.
  destruct (Nat.eqb_spec L 0) as [|_]; [contradiction|]; cbn [bind].
  unfold add2, same_shape2; cbn [t2_C t2_L t2_data].
  rewrite !Nat.eqb_refl; cbn [andb bind].
  reflexivity.
Qed.

Lemma recover_center_blocks_Ok (x y : tensor3 A) (kernel : Z) :
  wf3 x -> recover_center_blocks add x kernel = Ok y ->
  exists lr ud rl du rest,
    t3_data x = lr :: ud :: rl :: du :: rest /\ t3_W x <> 0 /\
    rows_ok (t3_H x) (t3_W x) lr /\ rows_ok (t3_H x) (t3_W x) ud /\
    rows_ok (t3_H x) (t3_W x) rl /\ rows_ok (t3_H x) (t3_W x) du.
Proof.
  intros [_ Hwf] E; destruct x as [K C L data]; cbn [t3_data t3_H t3_W] in *.
  unfold recover_center_blocks, select in E; cbn [t3_data t3_H t3_W] in E.
  destruct data as [|lr [|ud [|rl [|du rest]]]];
    cbn [nth_error bind] in E; try discriminate;
    try (repeat match type of E with
                | bind (bind ?m ?f) ?g = _ =>
                    destruct m; cbn [bind] in E; try discriminate
                | bind ?m ?g = _ =>
                    destruct m; cbn [bind] in E; try discriminate
                end; fail).
  apply Forall_cons_iff in Hwf; destruct Hwf as [Hlr Hwf].
  apply Forall_cons_iff in Hwf; destruct Hwf as [Hud Hwf].
  apply Forall_cons_iff in Hwf; destruct Hwf as [Hrl Hwf].
  apply Forall_cons_iff in Hwf; destruct Hwf as [Hdu Hwf].
  exists lr, ud, rl, du, rest; repeat split; try apply Hlr; try apply Hud;
    try apply Hrl; try apply Hdu.
  intros ->; rewrite reshape_BL_rows in E by auto; discriminate.
Qed.
End Recover.

(** The steps of [recover_center_blocks] on four sequences of length
    (2 * kernel)^2: every forward sequence is added to its backward partner
    put back in forward order ([s_lr = lr_out + reverse(rl_out)],
    [s_ud = ud_out + reverse(du_out)], element by element), the first sum
    goes to [recover_window_lr], whose result is the grid with that
    left-to-right flattening, the second to [recover_window_ud], and the
    result is the elementwise sum of the two grids.  Nothing is said here of
    the grid that [recover_window_ud] returns. *)
Lemma recover_center_blocks_recombines {A : Type} (add : A -> A -> A)
        (C n : nat) (lr ud rl du : list (list A)) :
  1 <= n ->
  rows_ok C (2 * n * (2 * n)) lr -> rows_ok C (2 * n * (2 * n)) ud ->
  rows_ok C (2 * n * (2 * n)) rl -> rows_ok C (2 * n * (2 * n)) du ->
  let L := 2 * n * (2 * n) in
  let s_lr := T2 C L (map2 (map2 add) lr (map (@rev A) rl)) in
  let s_ud := T2 C L (map2 (map2 add) ud (map (@rev A) du)) in
  exists g_lr g_ud : tensor3 A,
    recover_window_lr s_lr (Z.of_nat n) = Ok g_lr /\
    recover_window_ud s_ud (Z.of_nat n) = Ok g_ud /\
    wf3 g_lr /\ t3_H g_lr = 2 * n /\ t3_W g_lr = 2 * n /\
    map (flatten_lr (2 * n) (2 * n) (Z.of_nat n)) (t3_data g_lr) = t2_data s_lr /\
    recover_center_blocks add (T3 4 C L [lr; ud; rl; du]) (Z.of_nat n)
    = Ok (T3 C (2 * n) (2 * n)
             (map2 (map2 (map2 add)) (t3_data g_lr) (t3_data g_ud))).
Proof.
  intros Hn Hlr Hud Hrl Hdu L s_lr s_ud.
  pose proof (paired_wf add Hlr Hrl) as Wlr.
  pose proof (paired_wf add Hud Hdu) as Wud.
  fold L in Wlr, Wud.
  change (paired add C L lr rl) with s_lr in Wlr.
  change (paired add C L ud du) with s_ud in Wud.
  pose proof (recover_window_lr_ok n Wlr eq_refl) as Elr.
  pose proof (recover_window_ud_ok n Wud eq_refl) as Eud.
  eexists; eexists; split; [exact Elr|]; split; [exact Eud|].
  cbn [t3_H t3_W t3_data t2_C t2_data].
  destruct Wlr as [WC WL].
  assert (FU : Forall (fun row => rows_ok (2 * n) (2 * n) (unflatten_lr n row) /\
                                  flatten_lr (2 * n) (2 * n) (Z.of_nat n)
                                             (unflatten_lr n row) = row)
                      (t2_data s_lr)).
  { revert WL; apply Forall_impl; intros row Hrow.
    now apply flatten_unflatten_lr. }
  repeat split.
  - cbn [t3_data t3_C]; now rewrite length_map.
  - cbn [t3_data t3_H t3_W]; apply Forall_map_iff.
    revert FU; apply Forall_impl; intros row [Hr _]; exact Hr.
  - rewrite map_map; etransitivity; [|apply map_id].
    apply map_ext_where with (P := fun row => rows_ok (2 * n) (2 * n) (unflatten_lr n row) /\
                                  flatten_lr (2 * n) (2 * n) (Z.of_nat n)
                                             (unflatten_lr n row) = row); auto.
    intros row [_ Hr]; exact Hr.
  - rewrite recover_center_blocks_eq by (auto; unfold L; nia).
    change (paired add C L lr rl) with s_lr.
    change (paired add C L ud du) with s_ud.
    rewrite Elr, Eud; cbn [bind].
    unfold add3; cbn [t3_C t3_H t3_W t3_data].
    now rewrite !Nat.eqb_refl.
Qed.

Lemma recover_center_blocks_recombines_witness :
  exists g_lr g_ud : tensor3 Z,
    recover_window_lr (T2 1 4 (map2 (map2 Z.add) [[1; 2; 3; 4]%Z] (map (@rev Z) [[5; 6; 7; 8]%Z]))) 1 = Ok g_lr /\
    recover_window_ud (T2 1 4 (map2 (map2 Z.add) [[10; 20; 30; 40]%Z] (map (@rev Z) [[50; 60; 70; 80]%Z]))) 1 = Ok g_ud /\
    wf3 g_lr /\ t3_H g_lr = 2 /\ t3_W g_lr = 2 /\
    map (flatten_lr 2 2 1) (t3_data g_lr)
    = map2 (map2 Z.add) [[1; 2; 3; 4]%Z] (map (@rev Z) [[5; 6; 7; 8]%Z]) /\
    recover_center_blocks Z.add
      (T3 4 1 4 [[[1; 2; 3; 4]]; [[10; 20; 30; 40]]; [[5; 6; 7; 8]];
                 [[50; 60; 70; 80]]]%Z) 1
    = Ok (T3 1 2 2 (map2 (map2 (map2 Z.add)) (t3_data g_lr) (t3_data g_ud))).
Proof.
  apply (@recover_center_blocks_recombines Z Z.add 1 1
           [[1; 2; 3; 4]%Z] [[10; 20; 30; 40]%Z] [[5; 6; 7; 8]%Z]
           [[50; 60; 70; 80]%Z]);
    [lia | split; [reflexivity | repeat constructor] ..].
Defined.

(** C4 (what the code does, against the claim): [recover_center_blocks]
    forms [s_lr = lr_out + reverse(rl_out)] and
    [s_ud = ud_out + reverse(du_out)], inverts the left-to-right flattening
    on [s_lr] and returns the elementwise sum of the two recovered grids,
    but the grid that it recovers from [s_ud] is not the one whose
    top-to-bottom flattening is [s_ud].  With kernel 2, on the sequences of
    length 16 below, [recover_window_ud] returns the grid [g_ud], in which
    the cells (1, 2) and (2, 1) of [inverse_ud], the grid that flattens to
    [s_ud], are exchanged; the result holds 15 and 15 at these cells where
    the sum of the two inverted grids holds 12 and 18. *)
Theorem recover_center_blocks_ud_not_inverted :
  let lr_out := [[0; 1; 2; 3; 4; 8; 5; 6; 9; 10; 7; 11; 12; 13; 14; 15]]%Z in
  let ud_out := [[0; 4; 8; 12; 1; 2; 5; 9; 6; 10; 13; 14; 3; 7; 11; 15]]%Z in
  let rl_out := [[100; 0; 0; 0; 0; 0; 0; 0; 0; 0; 0; 0; 0; 0; 0; 0]]%Z in
  let du_out := [[1000; 0; 0; 0; 0; 0; 0; 0; 0; 0; 0; 0; 0; 0; 0; 0]]%Z in
  let s_lr := T2 1 16 (map2 (map2 Z.add) lr_out (map (@rev Z) rl_out)) in
  let s_ud := T2 1 16 (map2 (map2 Z.add) ud_out (map (@rev Z) du_out)) in
  let g_lr :=
    [[0; 1; 2; 3]; [4; 5; 6; 7]; [8; 9; 10; 11]; [12; 13; 14; 115]]%Z in
  let g_ud :=
    [[0; 1; 2; 3]; [4; 5; 9; 7]; [8; 6; 10; 11]; [12; 13; 14; 1015]]%Z in
  let inverse_ud :=
    [[0; 1; 2; 3]; [4; 5; 6; 7]; [8; 9; 10; 11]; [12; 13; 14; 1015]]%Z in
  t2_data s_lr
  = [[0; 1; 2; 3; 4; 8; 5; 6; 9; 10; 7; 11; 12; 13; 14; 115]]%Z /\
  t2_data s_ud
  = [[0; 4; 8; 12; 1; 2; 5; 9; 6; 10; 13; 14; 3; 7; 11; 1015]]%Z /\
  recover_window_lr s_lr 2 = Ok (plane_tensor 4 4 g_lr) /\
  [flatten_lr 4 4 2 g_lr] = t2_data s_lr /\
  recover_window_ud s_ud 2 = Ok (plane_tensor 4 4 g_ud) /\
  [flatten_ud 4 4 2 inverse_ud] = t2_data s_ud /\
  [flatten_ud 4 4 2 g_ud] <> t2_data s_ud /\
  recover_center_blocks Z.add (T3 4 1 16 [lr_out; ud_out; rl_out; du_out]) 2
  = Ok (plane_tensor 4 4 (map2 (map2 Z.add) g_lr g_ud)) /\
  map2 (map2 Z.add) g_lr g_ud
  = [[0; 2; 4; 6]; [8; 10; 15; 14]; [16; 15; 20; 22]; [24; 26; 28; 1130]]%Z /\
  map2 (map2 Z.add) g_lr inverse_ud
  = [[0; 2; 4; 6]; [8; 10; 12; 14]; [16; 18; 20; 22]; [24; 26; 28; 1130]]%Z.
Proof.
  cbv zeta; repeat split; try (vm_compute; reflexivity).
  vm_compute; discriminate.
Qed.

(** C10 (amended): the recoverer never reads H and W: it takes every
    segment length and the shape of its result from [kernel].  On an input
    of shape (B, 4, C, L) with at least one channel (C >= 1) it returns a
    grid only if L = (2 * kernel)^2, and the grid then has the spatial shape
    (2 * kernel, 2 * kernel); with the kernel H // 2 that [C_SS2D.forward]
    passes, a square grid must therefore have H = W = 2 * kernel. *)
Theorem recover_center_blocks_square {A : Type} (add : A -> A -> A)
        (x y : tensor3 A) (kernel : Z) :
  wf3 x -> 1 <= t3_H x ->
  recover_center_blocks add x kernel = Ok y ->
  (0 <= kernel)%Z /\
  Z.of_nat (t3_W x) = (2 * kernel * (2 * kernel))%Z /\
  t3_C y = t3_H x /\
  Z.of_nat (t3_H y) = (2 * kernel)%Z /\
  Z.of_nat (t3_W y) = (2 * kernel)%Z /\
  (forall H W : nat,
      t3_W x = H * W -> H = W -> kernel = forward_kernel (Z.of_nat H) ->
      Z.of_nat H = (2 * kernel)%Z /\ Z.of_nat W = (2 * kernel)%Z).
Proof.
  intros Hwf HC E.
  destruct (@recover_center_blocks_Ok A add x y kernel Hwf E)
    as (lr & ud & rl & du & rest & Hd & HL & Hlr & Hud & Hrl & Hdu).
  destruct x as [K C L data]; cbn [t3_data t3_H t3_W] in *; subst data.
  rewrite recover_center_blocks_eq in E by auto.
  apply bind_Ok in E; destruct E as (y1 & E1 & E).
  apply bind_Ok in E; destruct E as (y2 & E2 & E).
  destruct (@recover_window_lr_inv A (paired add C L lr rl) kernel y1 HC E1) as [Hk HLk].
  cbn [paired t2_L] in HLk.
  assert (Hn : kernel = Z.of_nat (Z.to_nat kernel)) by lia.
  assert (HLn : L = 2 * Z.to_nat kernel * (2 * Z.to_nat kernel)) by nia.
  rewrite Hn in E1, E2.
  rewrite (@recover_window_lr_ok A _ (Z.to_nat kernel) (paired_wf add Hlr Hrl) HLn) in E1.
  rewrite (@recover_window_ud_ok A _ (Z.to_nat kernel) (paired_wf add Hud Hdu) HLn) in E2.
  injection E1 as <-; injection E2 as <-.
  unfold add3 in E; cbn [t3_C t3_H t3_W t3_data paired t2_C] in E.
  rewrite !Nat.eqb_refl in E; cbn [andb] in E; injection E as <-.
  cbn [t3_C t3_H t3_W].
  split; [lia|]; split; [lia|]; split; [reflexivity|].
  split; [lia|]; split; [lia|].
  intros gH gW EL EW EK; unfold forward_kernel in EK; subst gW.
  assert (Z.of_nat gH = 2 * kernel)%Z by nia; lia.
Qed.

Lemma recover_center_blocks_square_witness :
  (0 <= 1)%Z /\
  Z.of_nat 4 = (2 * 1 * (2 * 1))%Z /\
  t3_C (T3 1 2 2 [[[6; 5]; [0; 4]]]%Z) = 1 /\
  Z.of_nat (t3_H (T3 1 2 2 [[[6; 5]; [0; 4]]]%Z)) = (2 * 1)%Z /\
  Z.of_nat (t3_W (T3 1 2 2 [[[6; 5]; [0; 4]]]%Z)) = (2 * 1)%Z /\
  (forall H W : nat,
      4 = H * W -> H = W -> 1%Z = forward_kernel (Z.of_nat H) ->
      Z.of_nat H = (2 * 1)%Z /\ Z.of_nat W = (2 * 1)%Z).
Proof.
  apply (@recover_center_blocks_square Z Z.add
           (T3 4 1 4 [[[1; 0; 0; 0]]; [[0; 0; 3; 0]]; [[4; 0; 2; 5]];
                      [[0; 0; 0; 0]]]%Z)
           (T3 1 2 2 [[[6; 5]; [0; 4]]]%Z) 1%Z).
  - split; [reflexivity | repeat constructor].
  - simpl; lia.
  - vm_compute; reflexivity.
Defined.

(** C10 (the claim fails on the code): without channels the length is not
    tied to the kernel.  Every slice of a tensor of shape (B, 0, L) is
    empty, torch reshapes an empty tensor to any shape with a zero axis, and
    the concatenations agree: the input of shape (B, 4, C, L) = (1, 4, 0, 5)
    with kernel 1 comes back as the empty grid of shape (0, 2, 2), although
    5 is not (2 * 1)^2. *)
Lemma recover_center_blocks_without_channels :
  wf3 (T3 4 0 5 [[]; []; []; []] : tensor3 Z) /\
  recover_center_blocks Z.add (T3 4 0 5 [[]; []; []; []]) 1
  = Ok (T3 0 2 2 []) /\
  Z.of_nat 5 <> (2 * 1 * (2 * 1))%Z.
Proof.
  split; [split; [reflexivity | repeat constructor]|].
  split; [vm_compute; reflexivity | vm_compute; discriminate].
Qed.

(** ** When [rearrange_center_blocks] returns *)

Lemma rearrange_Ok_guards {A : Type} (x out : tensor3 A) (kernel : Z) :
  rearrange_center_blocks x kernel = Ok out ->
  (forall r, guard (Z.of_nat (t3_H x)) (Z.of_nat (t3_W x)) kernel r = true) /\
  1 <= t3_C x.
Proof.
  unfold rearrange_center_blocks; intros E.
  apply bind_Ok in E; destruct E as (blocks_ud & E1 & E).
  apply bind_Ok in E; destruct E as (flattened & E2 & _).
  apply mapM_Ok_Forall in E1.
  assert (G : forall r, guard (Z.of_nat (t3_H x)) (Z.of_nat (t3_W x)) kernel r = true).
  { intros r; rewrite Forall_forall in E1.
    destruct (E1 r) as [b Hb].
    - destruct r; simpl; tauto.
    - destruct (guard _ _ _ r); [reflexivity | discriminate]. }
  split; [exact G|].
  apply mapM_Ok_Forall in E2; rewrite Forall_forall in E2.
  destruct (E2 (crop (window (Z.of_nat (t3_H x)) (Z.of_nat (t3_W x)) kernel Center) x))
    as [b Hb].
  - apply (in_map (fun r => crop (window (Z.of_nat (t3_H x)) (Z.of_nat (t3_W x)) kernel r) x)).
    apply filter_In; split; [simpl; tauto | apply G].
  - unfold flatten3, crop in Hb; cbn [t3_C] in Hb.
    destruct (Nat.eqb_spec (t3_C x) 0); [discriminate | lia].
Qed.

Lemma guards_fit (H W : nat) (kernel : Z) :
  (forall r, guard (Z.of_nat H) (Z.of_nat W) kernel r = true) ->
  (kernel + 2 <= Z.of_nat H)%Z /\ (kernel + 2 <= Z.of_nat W)%Z.
Proof.
  intros G.
  pose proof (G Top) as GT; pose proof (G Left) as GL.
  cbn [guard] in GT, GL; apply Z.ltb_lt in GT, GL.
  unfold h_center in GT; unfold w_center in GL.
  pose proof (Z.mul_div_le (Z.of_nat H - kernel) 2 ltac:(lia)).
  pose proof (Z.mul_div_le (Z.of_nat W - kernel) 2 ltac:(lia)).
  lia.
Qed.

Lemma rearrange_Ok_inv {A : Type} (x out : tensor3 A) (kernel : Z) :
  wf3 x -> (0 <= kernel)%Z ->
  rearrange_center_blocks x kernel = Ok out ->
  out = T3 4 (t3_C x) (t3_H x * t3_W x)
           [map (flatten_lr (t3_H x) (t3_W x) kernel) (t3_data x);
            map (flatten_ud (t3_H x) (t3_W x) kernel) (t3_data x);
            map (fun p => rev (flatten_lr (t3_H x) (t3_W x) kernel p)) (t3_data x);
            map (fun p => rev (flatten_ud (t3_H x) (t3_W x) kernel p)) (t3_data x)].
Proof.
  intros Hwf Hk E.
  destruct (rearrange_Ok_guards _ _ E) as [G HC].
  destruct (guards_fit _ _ _ G) as [HH HW].
  rewrite (rearrange_ok Hwf HC Hk HH HW) in E; now injection E.
Qed.

Lemma rearrange_unbound {A : Type} (x : tensor3 A) (kernel : Z) :
  guard (Z.of_nat (t3_H x)) (Z.of_nat (t3_W x)) kernel TopLeft = false ->
  rearrange_center_blocks x kernel = Raise (UnboundLocalError "top_left").
Proof.
  intros G; unfold rearrange_center_blocks; cbn [ud_order mapM].
  now rewrite G.
Qed.

(** C5 (what the code does, against the claim): when H = W = kernel the
    partition is the Center region alone, but [rearrange_center_blocks]
    does not return the four sequences: it appends the never-bound
    [top_left] to [blocks_ud] and fails. *)
Theorem window_covering_grid_fails {A : Type} (x : tensor3 A) (kernel : Z) :
  (1 <= kernel)%Z ->
  Z.of_nat (t3_H x) = kernel -> Z.of_nat (t3_W x) = kernel ->
  blocks_lr_regions (t3_H x) (t3_W x) kernel = [Center] /\
  rearrange_center_blocks x kernel = Raise (UnboundLocalError "top_left").
Proof.
  intros Hk HH HW.
  assert (Hh : h_center (Z.of_nat (t3_H x)) kernel = 0%Z)
    by (unfold h_center; rewrite HH, Z.sub_diag; reflexivity).
  assert (Hw : w_center (Z.of_nat (t3_W x)) kernel = 0%Z)
    by (unfold w_center; rewrite HW, Z.sub_diag; reflexivity).
  split.
  - unfold blocks_lr_regions, lr_order; cbn [filter guard].
    rewrite Hh, Hw, HH, HW.
    replace (kernel - (0 + kernel))%Z with 0%Z by lia.
    reflexivity.
  - apply rearrange_unbound; cbn [guard]; now rewrite Hh.
Qed.

Lemma window_covering_grid_fails_witness :
  blocks_lr_regions 2 2 2 = [Center] /\
  rearrange_center_blocks (plane_tensor 2 2 [[0; 1]; [2; 3]]%Z) 2
  = Raise (UnboundLocalError "top_left").
Proof.
  apply (@window_covering_grid_fails Z (plane_tensor 2 2 [[0; 1]; [2; 3]]%Z) 2%Z);
    [lia | reflexivity | reflexivity].
Defined.

(** C7 (the claim fails on the code): a kernel of 0 is accepted although the
    claim wants [InvalidKernel], and the valid kernel 2 on a 2 x 2 grid
    raises although the claim allows no failure there. *)
Lemma kernel_contract_counterexample :
  raises (rearrange_center_blocks (plane_tensor 4 4 grid4) 0)
  <> invalid_kernel 4 4 0 /\
  raises (rearrange_center_blocks (plane_tensor 2 2 [[0; 1]; [2; 3]]%Z) 2)
  <> invalid_kernel 2 2 2.
Proof.
  split; vm_compute; discriminate.
Qed.

(** C7 (amended): [rearrange_center_blocks] checks nothing about the kernel
    and signals no [InvalidKernel]; whenever 0 <= kernel <= min(H, W) - 2,
    on a well-formed grid with at least one channel, it returns the four
    sequences, each of length H * W, for every channel. *)
Theorem rearrange_accepts {A : Type} (x : tensor3 A) (kernel : Z) :
  wf3 x -> 1 <= t3_C x ->
  (0 <= kernel)%Z ->
  (kernel + 2 <= Z.min (Z.of_nat (t3_H x)) (Z.of_nat (t3_W x)))%Z ->
  exists out : tensor3 A,
    rearrange_center_blocks x kernel = Ok out /\
    t3_C out = 4 /\ t3_H out = t3_C x /\ t3_W out = t3_H x * t3_W x /\
    wf3 out.
Proof.
  intros Hwf HC Hk Hm.
  eexists; split; [apply rearrange_ok; auto; lia|].
  cbn [t3_C t3_H t3_W t3_data]; repeat split; auto.
  destruct Hwf as [HCl Hp].
  assert (LL := fun p => @flatten_lr_length A (t3_H x) (t3_W x) kernel p Hk
                           ltac:(lia) ltac:(lia)).
  assert (LU := fun p => @flatten_ud_length A (t3_H x) (t3_W x) kernel p Hk
                           ltac:(lia) ltac:(lia)).
  repeat constructor; try (now rewrite length_map);
    apply Forall_map_iff; revert Hp; apply Forall_impl; intros p Hp;
    rewrite ?length_rev; auto.
Qed.

Lemma rearrange_accepts_witness :
  exists out : tensor3 Z,
    rearrange_center_blocks (plane_tensor 4 4 grid4) 0 = Ok out /\
    t3_C out = 4 /\ t3_H out = 1 /\ t3_W out = 4 * 4 /\ wf3 out.
Proof.
  apply (@rearrange_accepts Z (plane_tensor 4 4 grid4) 0%Z);
    [ split; [reflexivity | repeat constructor] | simpl; lia | lia
    | vm_compute; discriminate ].
Defined.

(** ** The flattenings move cells and do not look at them *)

Lemma map2_cons_map {A B : Type} (f : A -> B) (r : list A) (t : list (list A)) :
  map2 cons (map f r) (map (map f) t) = map (map f) (map2 cons r t).
Proof.
  revert t; induction r as [|a r IH]; intros [|c t]; simpl; auto.
  now rewrite IH.
Qed.

Lemma transpose_map {A B : Type} (f : A -> B) (w : nat) (m : list (list A)) :
  transpose w (map (map f) m) = map (map f) (transpose w m).
Proof.
  induction m as [|r m IH]; simpl.
  - induction w; simpl; [reflexivity | now f_equal].
  - now rewrite IH, map2_cons_map.
Qed.

Lemma flatten_lr_map {A B : Type} (f : A -> B) (H W : nat) (kernel : Z)
      (p : list (list A)) :
  flatten_lr H W kernel (map (map f) p) = map f (flatten_lr H W kernel p).
Proof.
  unfold flatten_lr; rewrite concat_map, map_map; f_equal.
  apply map_ext; intros r; cbv zeta.
  now rewrite crop_plane_map, concat_map.
Qed.

Lemma flatten_ud_map {A B : Type} (f : A -> B) (H W : nat) (kernel : Z)
      (p : list (list A)) :
  flatten_ud H W kernel (map (map f) p) = map f (flatten_ud H W kernel p).
Proof.
  unfold flatten_ud; rewrite concat_map, map_map; f_equal.
  apply map_ext; intros r; cbv zeta.
  now rewrite crop_plane_map, transpose_map, concat_map.
Qed.


(** C8: whenever [rearrange_center_blocks] returns on a valid kernel, its
    right-to-left sequence is the left-to-right one reversed along the
    flattened axis and its bottom-to-top sequence the top-to-bottom one
    reversed; the reversal acts inside every channel, so the value at
    position p of channel c comes from position L - 1 - p of the same
    channel, and the channel vector of a cell is left as it is. *)
Theorem reversed_sequences {A : Type} (x out : tensor3 A) (kernel : Z) :
  wf3 x ->
  (1 <= kernel)%Z ->
  (kernel <= Z.min (Z.of_nat (t3_H x)) (Z.of_nat (t3_W x)))%Z ->
  rearrange_center_blocks x kernel = Ok out ->
  exists lr ud : list (list A),
    t3_data out = [lr; ud; map (@rev A) lr; map (@rev A) ud] /\
    rows_ok (t3_C x) (t3_H x * t3_W x) lr /\
    rows_ok (t3_C x) (t3_H x * t3_W x) ud /\
    (forall (c p : nat) (d : A),
        p < t3_H x * t3_W x ->
        nth p (nth c (map (@rev A) lr) []) d
        = nth (t3_H x * t3_W x - 1 - p) (nth c lr []) d) /\
    (forall (c p : nat) (d : A),
        p < t3_H x * t3_W x ->
        nth p (nth c (map (@rev A) ud) []) d
        = nth (t3_H x * t3_W x - 1 - p) (nth c ud []) d).
Proof.
  intros Hwf Hk Hm E.
  assert (Hk0 : (0 <= kernel)%Z) by lia.
  assert (HkH : (kernel <= Z.of_nat (t3_H x))%Z) by lia.
  assert (HkW : (kernel <= Z.of_nat (t3_W x))%Z) by lia.
  rewrite (rearrange_Ok_inv Hwf Hk0 E); cbn [t3_data].
  destruct Hwf as [HC Hp].
  assert (LL := fun p => @flatten_lr_length A (t3_H x) (t3_W x) kernel p
                           Hk0 HkH HkW).
  assert (LU := fun p => @flatten_ud_length A (t3_H x) (t3_W x) kernel p
                           Hk0 HkH HkW).
  assert (Rlr : rows_ok (t3_C x) (t3_H x * t3_W x)
                        (map (flatten_lr (t3_H x) (t3_W x) kernel) (t3_data x))).
  { split; [now rewrite length_map|].
    apply Forall_map_iff; revert Hp; apply Forall_impl; auto. }
  assert (Rud : rows_ok (t3_C x) (t3_H x * t3_W x)
                        (map (flatten_ud (t3_H x) (t3_W x) kernel) (t3_data x))).
  { split; [now rewrite length_map|].
    apply Forall_map_iff; revert Hp; apply Forall_impl; auto. }
  assert (N : forall (rows : list (list A)) (c p : nat) (d : A),
             rows_ok (t3_C x) (t3_H x * t3_W x) rows ->
             p < t3_H x * t3_W x ->
             nth p (nth c (map (@rev A) rows) []) d
             = nth (t3_H x * t3_W x - 1 - p) (nth c rows []) d).
  { intros rows c p d [Hc Hr] Hlt.
    destruct (Nat.lt_ge_cases c (length rows)) as [Hin|Hout].
    - change (@nil A) with (rev (@nil A)) at 1; rewrite map_nth.
      assert (Hl : length (nth c rows []) = t3_H x * t3_W x).
      { rewrite Forall_forall in Hr; apply Hr, nth_In, Hin. }
      rewrite rev_nth by lia; f_equal; lia.
    - rewrite (nth_overflow (map (@rev A) rows)) by (rewrite length_map; lia).
      rewrite (nth_overflow rows) by lia.
      generalize (t3_H x * t3_W x - 1 - p); intros q.
      destruct p, q; reflexivity. }
  exists (map (flatten_lr (t3_H x) (t3_W x) kernel) (t3_data x)),
         (map (flatten_ud (t3_H x) (t3_W x) kernel) (t3_data x)).
  rewrite !map_map; repeat split; try apply Rlr; try apply Rud.
  - intros c p d Hlt; rewrite <- map_map; now apply N.
  - intros c p d Hlt; rewrite <- map_map; now apply N.
Qed.

Lemma reversed_sequences_witness :
  exists lr ud : list (list Z),
    t3_data (T3 4 1 16
               [[[0; 1; 2; 3; 4; 8; 5; 6; 9; 10; 7; 11; 12; 13; 14; 15]];
                [[0; 4; 8; 12; 1; 2; 5; 9; 6; 10; 13; 14; 3; 7; 11; 15]];
                [[15; 14; 13; 12; 11; 7; 10; 9; 6; 5; 8; 4; 3; 2; 1; 0]];
                [[15; 11; 7; 3; 14; 13; 10; 6; 9; 5; 2; 1; 12; 8; 4; 0]]]%Z)
    = [lr; ud; map (@rev Z) lr; map (@rev Z) ud] /\
    rows_ok 1 (4 * 4) lr /\ rows_ok 1 (4 * 4) ud /\
    (forall (c p : nat) (d : Z),
        p < 4 * 4 ->
        nth p (nth c (map (@rev Z) lr) []) d = nth (4 * 4 - 1 - p) (nth c lr []) d) /\
    (forall (c p : nat) (d : Z),
        p < 4 * 4 ->
        nth p (nth c (map (@rev Z) ud) []) d = nth (4 * 4 - 1 - p) (nth c ud []) d).
Proof.
  apply (@reversed_sequences Z (plane_tensor 4 4 grid4) _ 2%Z);
    [ split; [reflexivity | repeat constructor] | lia | vm_compute; discriminate
    | vm_compute; reflexivity ].
Defined.

(** C3 (what the code does, against the claim): [recover_window_ud] reshapes
    every segment to the (height, width) of its region without transposing
    it back.  On the 4 x 4 grid 0..15 with kernel 2 the top-to-bottom
    sequence is rebuilt with the cells 6 and 9 of the centre exchanged. *)
Theorem recover_window_ud_not_inverse :
  (xs <- rearrange_center_blocks (plane_tensor 4 4 grid4) 2 ;;
   s_ud <- select 1 xs ;;
   recover_window_ud s_ud 2)
  = Ok (plane_tensor 4 4
          [[0; 1; 2; 3]; [4; 5; 9; 7]; [8; 6; 10; 11]; [12; 13; 14; 15]]%Z)
  /\ plane_tensor 4 4
       [[0; 1; 2; 3]; [4; 5; 9; 7]; [8; 6; 10; 11]; [12; 13; 14; 15]]%Z
     <> plane_tensor 4 4 grid4.
Proof.
  split; [vm_compute; reflexivity | discriminate].
Qed.






(** ** The regions as sets of cells *)

Lemma centers_fit (H W : nat) (kernel : Z) :
  (1 <= kernel)%Z -> (kernel <= Z.of_nat H)%Z -> (kernel <= Z.of_nat W)%Z ->
  (0 <= h_center (Z.of_nat H) kernel)%Z /\
  (h_center (Z.of_nat H) kernel + kernel <= Z.of_nat H)%Z /\
  (0 <= w_center (Z.of_nat W) kernel)%Z /\
  (w_center (Z.of_nat W) kernel + kernel <= Z.of_nat W)%Z.
Proof.
  intros Hk HH HW; unfold h_center, w_center.
  pose proof (Z.mul_div_le (Z.of_nat H - kernel) 2 ltac:(lia)).
  pose proof (Z.mul_div_le (Z.of_nat W - kernel) 2 ltac:(lia)).
  assert (0 <= (Z.of_nat H - kernel) / 2)%Z by (apply Z.div_pos; lia).
  assert (0 <= (Z.of_nat W - kernel) / 2)%Z by (apply Z.div_pos; lia).
  lia.
Qed.

Lemma in_region_bands (H W : nat) (kernel : Z) (reg : region) (r c : nat) :
  (1 <= kernel)%Z -> (kernel <= Z.of_nat H)%Z -> (kernel <= Z.of_nat W)%Z ->
  in_region H W kernel reg r c = true <->
  in_band kernel H (h_center (Z.of_nat H) kernel) (row_band reg) r /\
  in_band kernel W (w_center (Z.of_nat W) kernel) (col_band reg) c.
Proof.
  intros Hk HH HW.
  destruct (centers_fit H W Hk HH HW) as (H0 & H1 & W0 & W1).
  unfold in_region, slice_bounds.
  set (hc := h_center (Z.of_nat H) kernel) in *.
  set (wc := w_center (Z.of_nat W) kernel) in *.
  destruct reg; cbn [window fst snd row_band col_band in_band];
    fold hc; fold wc;
    rewrite ?clamp_index_nonneg by lia;
    rewrite !andb_true_iff, !Nat.leb_le, !Nat.ltb_lt; lia.
Qed.

Lemma guard_bands (H W : nat) (kernel : Z) (reg : region) :
  (1 <= kernel)%Z -> (kernel <= Z.of_nat H)%Z -> (kernel <= Z.of_nat W)%Z ->
  guard (Z.of_nat H) (Z.of_nat W) kernel reg = true <->
  (exists r, in_band kernel H (h_center (Z.of_nat H) kernel) (row_band reg) r) /\
  (exists c, in_band kernel W (w_center (Z.of_nat W) kernel) (col_band reg) c).
Proof.
  intros Hk HH HW.
  destruct (centers_fit H W Hk HH HW) as (H0 & H1 & W0 & W1).
  set (hc := h_center (Z.of_nat H) kernel) in *.
  set (wc := w_center (Z.of_nat W) kernel) in *.
  assert (T : forall n c, (0 < c)%Z <-> exists i, in_band kernel n c 0 i).
  { intros n c; split; [intros; exists 0; simpl; lia | intros [i Hi]; simpl in Hi; lia]. }
  assert (M : forall n c, (0 <= c)%Z -> exists i, in_band kernel n c 1 i).
  { intros n c Hc; exists (Z.to_nat c); simpl; lia. }
  assert (B : forall n c, (0 <= c + kernel)%Z ->
                          (0 < Z.of_nat n - (c + kernel))%Z <-> exists i, in_band kernel n c 2 i).
  { intros n c Hc; split.
    - intros; exists (Z.to_nat (c + kernel)); simpl; lia.
    - intros [i Hi]; simpl in Hi; lia. }
  destruct reg; cbn [guard row_band col_band]; fold hc; fold wc;
    rewrite ?andb_true_iff, ?Z.ltb_lt;
    rewrite ?(T H hc), ?(T W wc), ?(B H hc), ?(B W wc) by lia;
    intuition auto.
Qed.

Lemma guard_extents (H W : nat) (kernel : Z) (reg : region) :
  (1 <= kernel)%Z -> (kernel <= Z.of_nat H)%Z -> (kernel <= Z.of_nat W)%Z ->
  let w := window (Z.of_nat H) (Z.of_nat W) kernel reg in
  guard (Z.of_nat H) (Z.of_nat W) kernel reg = true <->
  0 < slice_len H (fst w) /\ 0 < slice_len W (snd w).
Proof.
  intros Hk HH HW.
  destruct (centers_fit H W Hk HH HW) as (H0 & H1 & W0 & W1).
  unfold slice_len, slice_bounds.
  destruct reg; cbn [guard window fst snd];
    rewrite ?clamp_index_nonneg by lia;
    rewrite ?andb_true_iff, ?Z.ltb_lt; lia.
Qed.

Lemma region_in_order (reg : region) : In reg lr_order.
Proof. destruct reg; simpl; tauto. Qed.

(** C2: for 1 <= kernel <= min(H, W), the regions kept by the partitioner
    are those whose two extents are positive, Center is one of them, and
    every cell (r, c) of the H x W grid lies in exactly one of them, while
    their cells are all cells of the grid: they are pairwise disjoint and
    their union is the grid. *)
Theorem partition_covers (H W : nat) (kernel : Z) :
  (1 <= kernel)%Z ->
  (kernel <= Z.min (Z.of_nat H) (Z.of_nat W))%Z ->
  In Center (blocks_lr_regions H W kernel) /\
  (forall reg,
      In reg (blocks_lr_regions H W kernel) <->
      0 < slice_len H (fst (window (Z.of_nat H) (Z.of_nat W) kernel reg)) /\
      0 < slice_len W (snd (window (Z.of_nat H) (Z.of_nat W) kernel reg))) /\
  (forall r c,
      r < H -> c < W ->
      exists reg,
        In reg (blocks_lr_regions H W kernel) /\
        in_region H W kernel reg r c = true /\
        forall reg',
          In reg' (blocks_lr_regions H W kernel) ->
          in_region H W kernel reg' r c = true -> reg' = reg) /\
  (forall reg r c,
      In reg (blocks_lr_regions H W kernel) ->
      in_region H W kernel reg r c = true -> r < H /\ c < W).
Proof.
  intros Hk Hm.
  assert (HH : (kernel <= Z.of_nat H)%Z) by lia.
  assert (HW : (kernel <= Z.of_nat W)%Z) by lia.
  destruct (centers_fit H W Hk HH HW) as (H0 & H1 & W0 & W1).
  assert (Hin : forall reg, In reg (blocks_lr_regions H W kernel) <->
                            guard (Z.of_nat H) (Z.of_nat W) kernel reg = true).
  { intros reg; unfold blocks_lr_regions; rewrite filter_In.
    pose proof (region_in_order reg); tauto. }
  split; [apply Hin; reflexivity|].
  split; [intros reg; rewrite Hin; now apply guard_extents|].
  split.
  - intros r c Hr Hc.
    assert (Rb : exists b, in_band kernel H (h_center (Z.of_nat H) kernel) b r /\ b <= 2).
    { destruct (Z_lt_dec (Z.of_nat r) (h_center (Z.of_nat H) kernel));
        [exists 0; simpl; lia|].
      destruct (Z_lt_dec (Z.of_nat r) (h_center (Z.of_nat H) kernel + kernel));
        [exists 1; simpl; lia | exists 2; simpl; lia]. }
    assert (Cb : exists b, in_band kernel W (w_center (Z.of_nat W) kernel) b c /\ b <= 2).
    { destruct (Z_lt_dec (Z.of_nat c) (w_center (Z.of_nat W) kernel));
        [exists 0; simpl; lia|].
      destruct (Z_lt_dec (Z.of_nat c) (w_center (Z.of_nat W) kernel + kernel));
        [exists 1; simpl; lia | exists 2; simpl; lia]. }
    destruct Rb as (br & Hbr & Lr), Cb as (bc & Hbc & Lc).
    assert (Ex : exists reg, row_band reg = br /\ col_band reg = bc).
    { destruct br as [|[|[|?]]], bc as [|[|[|?]]]; try lia;
        [ exists TopLeft | exists Top | exists TopRight
        | exists Left | exists Center | exists Right
        | exists BottomLeft | exists Bottom | exists BottomRight ]; auto. }
    destruct Ex as (reg & Er & Ec); exists reg; repeat split.
    + apply Hin, (@guard_bands H W kernel reg Hk HH HW); rewrite Er, Ec; eauto.
    + apply (@in_region_bands H W kernel reg r c Hk HH HW); rewrite Er, Ec; auto.
    + intros reg' _ Hreg'.
      apply (@in_region_bands H W kernel reg' r c Hk HH HW) in Hreg'; destruct Hreg' as [R' C'].
      subst br bc.
      destruct reg, reg'; cbn [row_band col_band in_band] in *;
        try reflexivity; lia.
  - intros reg r c _ Hreg.
    apply (@in_region_bands H W kernel reg r c Hk HH HW) in Hreg; destruct Hreg as [R' C'].
    destruct reg; cbn [row_band col_band in_band] in *; lia.
Qed.

Lemma partition_covers_witness :
  In Center (blocks_lr_regions 5 4 2) /\
  (forall reg,
      In reg (blocks_lr_regions 5 4 2) <->
      0 < slice_len 5 (fst (window (Z.of_nat 5) (Z.of_nat 4) 2 reg)) /\
      0 < slice_len 4 (snd (window (Z.of_nat 5) (Z.of_nat 4) 2 reg))) /\
  (forall r c,
      r < 5 -> c < 4 ->
      exists reg,
        In reg (blocks_lr_regions 5 4 2) /\
        in_region 5 4 2 reg r c = true /\
        forall reg',
          In reg' (blocks_lr_regions 5 4 2) ->
          in_region 5 4 2 reg' r c = true -> reg' = reg) /\
  (forall reg r c,
      In reg (blocks_lr_regions 5 4 2) ->
      in_region 5 4 2 reg r c = true -> r < 5 /\ c < 4).
Proof.
  apply (@partition_covers 5 4 2%Z); [lia | vm_compute; discriminate].
Defined.

(** ** The flattenings as permutations of the cells *)

Lemma cells_prod (H W : nat) : cells H W = list_prod (seq 0 H) (seq 0 W).
Proof.
  unfold cells, index_grid; generalize (seq 0 H) as rs.
  induction rs as [|r rs IH]; simpl; [reflexivity | now rewrite IH].
Qed.

Lemma in_cells (H W : nat) (rc : nat * nat) :
  In rc (cells H W) <-> fst rc < H /\ snd rc < W.
Proof.
  destruct rc as [r c]; rewrite cells_prod, in_prod_iff, !in_seq; simpl; lia.
Qed.

Lemma NoDup_cells (H W : nat) : NoDup (cells H W).
Proof.
  rewrite cells_prod; generalize (seq_NoDup H 0); generalize (seq 0 H) as rs.
  induction rs as [|r rs IH]; intros Hnd; simpl; [constructor|].
  inversion Hnd as [|? ? Hr Hrs]; subst.
  apply NoDup_app.
  - apply Finite.Injective_map_NoDup; [|apply seq_NoDup].
    intros a b Hab; now injection Hab.
  - now apply IH.
  - intros [a b] Ha Hb; apply in_map_iff in Ha; destruct Ha as (c & Hc & _).
    injection Hc as <- <-; apply in_prod_iff in Hb; tauto.
Qed.

Lemma cells_length (H W : nat) : length (cells H W) = H * W.
Proof.
  now rewrite cells_prod, length_prod, !length_seq.
Qed.

Lemma tabulate_nth {A : Type} (d : A) (l : list A) :
  map (fun i => nth i l d) (seq 0 (length l)) = l.
Proof.
  induction l as [|a l IH]; simpl; [reflexivity|].
  now rewrite <- seq_shift, map_map, IH.
Qed.

Lemma index_grid_rows (H W : nat) : rows_ok H W (index_grid H W).
Proof.
  unfold index_grid; split; [now rewrite length_map, length_seq|].
  apply Forall_map_iff, Forall_forall; intros r _.
  now rewrite length_map, length_seq.
Qed.

(** A plane is read back from the index grid. *)
Lemma index_grid_cells {A : Type} (d : A) (H W : nat) (p : list (list A)) :
  rows_ok H W p -> map (map (cell d p)) (index_grid H W) = p.
Proof.
  intros [Hh Hw]; unfold index_grid; rewrite map_map.
  etransitivity; [|apply (tabulate_nth [] p)]; rewrite Hh.
  apply map_ext_in; intros r Hr; rewrite map_map; unfold cell; cbn [fst snd].
  apply in_seq in Hr.
  assert (Hl : length (nth r p []) = W).
  { rewrite Forall_forall in Hw; apply Hw, nth_In; lia. }
  etransitivity; [|apply (tabulate_nth d (nth r p []))]; now rewrite Hl.
Qed.

Lemma gather_flatten_lr {A : Type} (d : A) (H W : nat) (kernel : Z)
      (p : list (list A)) :
  rows_ok H W p -> flatten_lr H W kernel p = gather d (lr_perm H W kernel) p.
Proof.
  intros Hp; unfold gather, lr_perm.
  now rewrite <- flatten_lr_map, index_grid_cells.
Qed.

Lemma gather_flatten_ud {A : Type} (d : A) (H W : nat) (kernel : Z)
      (p : list (list A)) :
  rows_ok H W p -> flatten_ud H W kernel p = gather d (ud_perm H W kernel) p.
Proof.
  intros Hp; unfold gather, ud_perm.
  now rewrite <- flatten_ud_map, index_grid_cells.
Qed.

Lemma concat_map2_app {A : Type} (X Y : list (list A)) :
  length X = length Y ->
  Permutation (concat (map2 (@app A) X Y)) (concat X ++ concat Y).
Proof.
  revert Y; induction X as [|x X IH]; intros [|y Y] E; simpl in *;
    try discriminate; [constructor|].
  rewrite <- !app_assoc; apply Permutation_app_head.
  rewrite (IH Y) by lia.
  rewrite !app_assoc; apply Permutation_app_tail, Permutation_app_comm.
Qed.

Lemma concat_map2_cons {A : Type} (r : list A) (T : list (list A)) :
  length r = length T ->
  Permutation (concat (map2 cons r T)) (r ++ concat T).
Proof.
  revert T; induction r as [|a r IH]; intros [|c T] E; simpl in *;
    try discriminate; [constructor|].
  constructor; rewrite (IH T) by lia.
  rewrite !app_assoc; apply Permutation_app_tail, Permutation_app_comm.
Qed.

Lemma concat_transpose {A : Type} (h w : nat) (m : list (list A)) :
  rows_ok h w m -> Permutation (concat (transpose w m)) (concat m).
Proof.
  intros [Hh Hw]; subst h; induction Hw as [|r m Hr Hm IH]; simpl.
  - induction w; simpl; auto.
  - rewrite concat_map2_cons.
    + now apply Permutation_app_head.
    + destruct (@transpose_rows A (length m) w m) as [E _]; [split; auto|].
      now rewrite E.
Qed.

Lemma orders_permutation : Permutation ud_order lr_order.
Proof.
  apply NoDup_Permutation.
  - unfold ud_order; repeat constructor; simpl; intuition discriminate.
  - unfold lr_order; repeat constructor; simpl; intuition discriminate.
  - intros r; destruct r; simpl; tauto.
Qed.

Lemma Permutation_concat_map {I A : Type} (f g : I -> list A) (l : list I) :
  (forall i, Permutation (f i) (g i)) ->
  Permutation (concat (map f l)) (concat (map g l)).
Proof.
  intros E; induction l as [|i l IH]; simpl; [constructor|].
  now apply Permutation_app.
Qed.

Lemma band_concat {A : Type} (h w0 w1 w2 : nat) (X Y Z : list (list A)) :
  rows_ok h w0 X -> rows_ok h w1 Y -> rows_ok h w2 Z ->
  Permutation (concat (map2 (@app A) (map2 (@app A) X Y) Z))
              (concat X ++ concat Y ++ concat Z).
Proof.
  intros [HX _] [HY _] [HZ _].
  rewrite concat_map2_app by (rewrite map2_length; lia).
  rewrite concat_map2_app by lia.
  now rewrite <- app_assoc.
Qed.

Lemma flatten_lr_permutation {A : Type} (H W : nat) (kernel : Z) (g : list (list A)) :
  (0 <= kernel)%Z -> (kernel <= Z.of_nat H)%Z -> (kernel <= Z.of_nat W)%Z ->
  rows_ok H W g -> Permutation (flatten_lr H W kernel g) (concat g).
Proof.
  intros Hk HH HW Hg.
  pose proof (@glue_blocks A H W kernel Hk HH HW g Hg) as G; cbv zeta in G.
  assert (R : forall r,
             rows_ok (slice_len H (fst (window (Z.of_nat H) (Z.of_nat W) kernel r)))
                     (slice_len W (snd (window (Z.of_nat H) (Z.of_nat W) kernel r)))
                     (crop_plane (fst (window (Z.of_nat H) (Z.of_nat W) kernel r))
                                 (snd (window (Z.of_nat H) (Z.of_nat W) kernel r)) g))
    by (intros r; now apply crop_plane_rows).
  rewrite <- G at 2; unfold glue, flatten_lr; cbn [map lr_order concat].
  rewrite !concat_app.
  rewrite (band_concat (R TopLeft) (R Top) (R TopRight)).
  rewrite (band_concat (R Left) (R Center) (R Right)).
  rewrite (band_concat (R BottomLeft) (R Bottom) (R BottomRight)).
  rewrite <- !app_assoc, app_nil_r; reflexivity.
Qed.

Lemma flatten_ud_permutation {A : Type} (H W : nat) (kernel : Z) (g : list (list A)) :
  (0 <= kernel)%Z -> (kernel <= Z.of_nat H)%Z -> (kernel <= Z.of_nat W)%Z ->
  rows_ok H W g -> Permutation (flatten_ud H W kernel g) (concat g).
Proof.
  intros Hk HH HW Hg.
  rewrite <- (flatten_lr_permutation Hk HH HW Hg).
  unfold flatten_ud, flatten_lr.
  etransitivity.
  - apply Permutation_concat_map; intros r; cbv zeta.
    eapply concat_transpose, crop_plane_rows; eauto.
  - rewrite <- !flat_map_concat_map.
    apply Permutation_flat_map, orders_permutation.
Qed.

(** C9: for fixed (H, W, kernel), with a valid kernel on which
    [rearrange_center_blocks] returns, the left-to-right and the
    top-to-bottom flattenings are fixed bijections between the H * W cells
    of the grid and the positions 0 .. L - 1, L = H * W: the lists
    [lr_perm] and [ud_perm] of the cell read at every position hold every
    cell exactly once, and each of the four sequences has length H * W and
    holds, for every channel, the values of the cells in that order (in the
    reverse order for the two backward sequences). *)
Theorem flattenings_are_bijections {A : Type} (d : A) (x out : tensor3 A)
        (kernel : Z) :
  wf3 x ->
  (1 <= kernel)%Z ->
  (kernel <= Z.min (Z.of_nat (t3_H x)) (Z.of_nat (t3_W x)))%Z ->
  rearrange_center_blocks x kernel = Ok out ->
  let sigma := lr_perm (t3_H x) (t3_W x) kernel in
  let tau := ud_perm (t3_H x) (t3_W x) kernel in
  Permutation sigma (cells (t3_H x) (t3_W x)) /\
  Permutation tau (cells (t3_H x) (t3_W x)) /\
  NoDup sigma /\ NoDup tau /\
  length sigma = t3_H x * t3_W x /\ length tau = t3_H x * t3_W x /\
  (forall rc, In rc (cells (t3_H x) (t3_W x)) <->
              fst rc < t3_H x /\ snd rc < t3_W x) /\
  t3_W out = t3_H x * t3_W x /\
  t3_data out = [map (gather d sigma) (t3_data x);
                 map (gather d tau) (t3_data x);
                 map (gather d (rev sigma)) (t3_data x);
                 map (gather d (rev tau)) (t3_data x)].
Proof.
  intros Hwf Hk Hm E sigma tau.
  assert (Hk0 : (0 <= kernel)%Z) by lia.
  assert (HkH : (kernel <= Z.of_nat (t3_H x))%Z) by lia.
  assert (HkW : (kernel <= Z.of_nat (t3_W x))%Z) by lia.
  pose proof (index_grid_rows (t3_H x) (t3_W x)) as Hg.
  assert (Ps : Permutation sigma (cells (t3_H x) (t3_W x)))
    by (now apply flatten_lr_permutation).
  assert (Pt : Permutation tau (cells (t3_H x) (t3_W x)))
    by (now apply flatten_ud_permutation).
  pose proof (NoDup_cells (t3_H x) (t3_W x)) as Nd.
  split; [exact Ps|]; split; [exact Pt|].
  split; [apply (Permutation_NoDup (Permutation_sym Ps) Nd)|].
  split; [apply (Permutation_NoDup (Permutation_sym Pt) Nd)|].
  split; [now rewrite (Permutation_length Ps), cells_length|].
  split; [now rewrite (Permutation_length Pt), cells_length|].
  split; [apply in_cells|].
  rewrite (rearrange_Ok_inv Hwf Hk0 E); cbn [t3_W t3_data].
  split; [reflexivity|].
  destruct Hwf as [_ Hp].
  assert (E1 : map (flatten_lr (t3_H x) (t3_W x) kernel) (t3_data x)
               = map (gather d sigma) (t3_data x)).
  { apply map_ext_where with (P := rows_ok (t3_H x) (t3_W x)); auto.
    intros p Rp; now apply gather_flatten_lr. }
  assert (E2 : map (flatten_ud (t3_H x) (t3_W x) kernel) (t3_data x)
               = map (gather d tau) (t3_data x)).
  { apply map_ext_where with (P := rows_ok (t3_H x) (t3_W x)); auto.
    intros p Rp; now apply gather_flatten_ud. }
  assert (E3 : map (fun p => rev (flatten_lr (t3_H x) (t3_W x) kernel p)) (t3_data x)
               = map (gather d (rev sigma)) (t3_data x)).
  { apply map_ext_where with (P := rows_ok (t3_H x) (t3_W x)); auto.
    intros p Rp; unfold gather; rewrite map_rev; f_equal.
    now apply gather_flatten_lr. }
  assert (E4 : map (fun p => rev (flatten_ud (t3_H x) (t3_W x) kernel p)) (t3_data x)
               = map (gather d (rev tau)) (t3_data x)).
  { apply map_ext_where with (P := rows_ok (t3_H x) (t3_W x)); auto.
    intros p Rp; unfold gather; rewrite map_rev; f_equal.
    now apply gather_flatten_ud. }
  now rewrite E1, E2, E3, E4.
Qed.

Lemma flattenings_are_bijections_witness :
  Permutation (lr_perm 4 4 2) (cells 4 4) /\
  Permutation (ud_perm 4 4 2) (cells 4 4) /\
  NoDup (lr_perm 4 4 2) /\ NoDup (ud_perm 4 4 2) /\
  length (lr_perm 4 4 2) = 4 * 4 /\ length (ud_perm 4 4 2) = 4 * 4 /\
  (forall rc, In rc (cells 4 4) <-> fst rc < 4 /\ snd rc < 4) /\
  t3_W (T3 4 1 16
          [[[0; 1; 2; 3; 4; 8; 5; 6; 9; 10; 7; 11; 12; 13; 14; 15]];
           [[0; 4; 8; 12; 1; 2; 5; 9; 6; 10; 13; 14; 3; 7; 11; 15]];
           [[15; 14; 13; 12; 11; 7; 10; 9; 6; 5; 8; 4; 3; 2; 1; 0]];
           [[15; 11; 7; 3; 14; 13; 10; 6; 9; 5; 2; 1; 12; 8; 4; 0]]]%Z) = 4 * 4 /\
  t3_data (T3 4 1 16
          [[[0; 1; 2; 3; 4; 8; 5; 6; 9; 10; 7; 11; 12; 13; 14; 15]];
           [[0; 4; 8; 12; 1; 2; 5; 9; 6; 10; 13; 14; 3; 7; 11; 15]];
           [[15; 14; 13; 12; 11; 7; 10; 9; 6; 5; 8; 4; 3; 2; 1; 0]];
           [[15; 11; 7; 3; 14; 13; 10; 6; 9; 5; 2; 1; 12; 8; 4; 0]]]%Z)
  = [map (gather 0%Z (lr_perm 4 4 2)) [grid4];
     map (gather 0%Z (ud_perm 4 4 2)) [grid4];
     map (gather 0%Z (rev (lr_perm 4 4 2))) [grid4];
     map (gather 0%Z (rev (ud_perm 4 4 2))) [grid4]].
Proof.
  apply (@flattenings_are_bijections Z 0%Z (plane_tensor 4 4 grid4) _ 2%Z);
    [ split; [reflexivity | repeat constructor] | lia | vm_compute; discriminate
    | vm_compute; reflexivity ].
Defined.

(** * Further properties of the four functions *)

(** ** Outcomes of [rearrange_center_blocks] *)

Lemma rearrange_margin {A : Type} (x : tensor3 A) (kernel : Z) :
  (Z.of_nat (t3_H x) - kernel <= 1 \/ Z.of_nat (t3_W x) - kernel <= 1)%Z ->
  rearrange_center_blocks x kernel = Raise (UnboundLocalError "top_left").
Proof.
  intros Hm; apply rearrange_unbound; cbn [guard].
  apply andb_false_iff; rewrite !Z.ltb_ge; unfold h_center, w_center.
  destruct Hm as [Hm|Hm]; [left | right];
    apply Z.lt_succ_r, Z.div_lt_upper_bound; lia.
Qed.

Lemma rearrange_cases {A : Type} (x : tensor3 A) (kernel : Z) :
  wf3 x -> (0 <= kernel)%Z ->
  rearrange_center_blocks x kernel =
  if ((Z.of_nat (t3_H x) - kernel <=? 1) || (Z.of_nat (t3_W x) - kernel <=? 1))%Z
  then Raise (UnboundLocalError "top_left")
  else if (t3_C x =? 0)%nat then Raise RuntimeError
  else Ok (T3 4 (t3_C x) (t3_H x * t3_W x)
              [map (flatten_lr (t3_H x) (t3_W x) kernel) (t3_data x);
               map (flatten_ud (t3_H x) (t3_W x) kernel) (t3_data x);
               map (fun p => rev (flatten_lr (t3_H x) (t3_W x) kernel p)) (t3_data x);
               map (fun p => rev (flatten_ud (t3_H x) (t3_W x) kernel p)) (t3_data x)]).
Proof.
  intros Hwf Hk.
  destruct (Z.leb_spec (Z.of_nat (t3_H x) - kernel) 1) as [HH|HH];
    [apply rearrange_margin; auto|].
  destruct (Z.leb_spec (Z.of_nat (t3_W x) - kernel) 1) as [HW|HW];
    [apply rearrange_margin; auto|]; cbn [orb].
  destruct (Nat.eqb_spec (t3_C x) 0) as [HC|HC];
    [|apply rearrange_ok; auto; lia].
  pose proof (@guards_all (t3_H x) (t3_W x) kernel Hk ltac:(lia) ltac:(lia)) as G.
  unfold rearrange_center_blocks.
  rewrite (mapM_ok _ (fun r => crop (window (Z.of_nat (t3_H x)) (Z.of_nat (t3_W x)) kernel r) x))
    by (intros r; now rewrite G).
  cbn [bind]; unfold lr_order; cbn [filter]; rewrite G.
  cbn [map mapM]; unfold flatten3 at 1; cbn [crop t3_C]; rewrite HC; reflexivity.
Qed.

(** X1: when fewer than two rows, or fewer than two columns, are left
    around the window (a kernel larger than the grid included), the call
    raises [UnboundLocalError] on [top_left], whatever the grid holds. *)
Theorem rearrange_small_margin_unbound {A : Type} (x : tensor3 A) (kernel : Z) :
  (Z.of_nat (t3_H x) - kernel <= 1 \/ Z.of_nat (t3_W x) - kernel <= 1)%Z ->
  rearrange_center_blocks x kernel = Raise (UnboundLocalError "top_left").
Proof.
  exact (@rearrange_margin A x kernel).
Qed.

Lemma rearrange_small_margin_unbound_witness :
  rearrange_center_blocks (plane_tensor 4 4 grid4) 7
  = Raise (UnboundLocalError "top_left").
Proof.
  apply (@rearrange_small_margin_unbound Z (plane_tensor 4 4 grid4) 7%Z).
  left; vm_compute; discriminate.
Defined.

(** X2: on a well-formed grid and a kernel >= 0 the call has three
    outcomes: [UnboundLocalError] when a margin is below two, [RuntimeError]
    (from the first reshape) when the grid has no channel, and otherwise the
    four sequences. *)
Theorem rearrange_outcome {A : Type} (x : tensor3 A) (kernel : Z) :
  wf3 x -> (0 <= kernel)%Z ->
  rearrange_center_blocks x kernel =
  if ((Z.of_nat (t3_H x) - kernel <=? 1) || (Z.of_nat (t3_W x) - kernel <=? 1))%Z
  then Raise (UnboundLocalError "top_left")
  else if (t3_C x =? 0)%nat then Raise RuntimeError
  else Ok (T3 4 (t3_C x) (t3_H x * t3_W x)
              [map (flatten_lr (t3_H x) (t3_W x) kernel) (t3_data x);
               map (flatten_ud (t3_H x) (t3_W x) kernel) (t3_data x);
               map (fun p => rev (flatten_lr (t3_H x) (t3_W x) kernel p)) (t3_data x);
               map (fun p => rev (flatten_ud (t3_H x) (t3_W x) kernel p)) (t3_data x)]).
Proof.
  exact (@rearrange_cases A x kernel).
Qed.

Lemma rearrange_outcome_witness :
  rearrange_center_blocks (T3 0 4 4 (@nil (list (list Z)))) 2 =
  if ((Z.of_nat 4 - 2 <=? 1) || (Z.of_nat 4 - 2 <=? 1))%Z
  then Raise (UnboundLocalError "top_left")
  else if (0 =? 0)%nat then Raise RuntimeError
  else Ok (T3 4 0 (4 * 4)
              [map (flatten_lr 4 4 2) []; map (flatten_ud 4 4 2) [];
               map (fun p => rev (flatten_lr 4 4 2 p)) [];
               map (fun p => rev (flatten_ud 4 4 2 p)) []]).
Proof.
  apply (@rearrange_outcome Z (T3 0 4 4 []) 2%Z);
    [split; [reflexivity | constructor] | lia].
Defined.

(** ** The left-to-right round trip *)

(** X3: on a grid with H = W = 2 * kernel, kernel >= 2 and at least one
    channel, [recover_window_lr] gives the grid back from the left-to-right
    sequence of [rearrange_center_blocks], and also from the right-to-left
    sequence once it is flipped. *)
Theorem recover_window_lr_inverts {A : Type} (x : tensor3 A) (n : nat) :
  wf3 x -> 1 <= t3_C x -> 2 <= n -> t3_H x = 2 * n -> t3_W x = 2 * n ->
  exists xs lr rl : _,
    rearrange_center_blocks x (Z.of_nat n) = Ok xs /\
    select 0 xs = Ok lr /\ select 2 xs = Ok rl /\
    recover_window_lr lr (Z.of_nat n) = Ok x /\
    recover_window_lr (flip rl) (Z.of_nat n) = Ok x.
Proof.
  intros Hwf HC Hn HH HW.
  destruct x as [C H W data]; cbn [t3_C t3_H t3_W t3_data] in *; subst H W.
  assert (Hk : (0 <= Z.of_nat n)%Z) by lia.
  assert (Hfit : (Z.of_nat n + 2 <= Z.of_nat (2 * n))%Z) by lia.
  pose proof (@rearrange_ok A (T3 C (2 * n) (2 * n) data) (Z.of_nat n)
                            Hwf HC Hk Hfit Hfit) as ER.
  cbn [t3_C t3_H t3_W t3_data] in ER.
  destruct Hwf as [HCl Hp]; cbn [t3_C t3_H t3_W t3_data] in HCl, Hp.
  assert (LL := fun p => @flatten_lr_length A (2 * n) (2 * n) (Z.of_nat n) p
                           Hk ltac:(lia) ltac:(lia)).
  set (lr := map (flatten_lr (2 * n) (2 * n) (Z.of_nat n)) data) in *.
  assert (Rlr : rows_ok C (2 * n * (2 * n)) lr).
  { split; [unfold lr; now rewrite length_map|].
    apply Forall_map_iff; revert Hp; apply Forall_impl; auto. }
  assert (Back : map (unflatten_lr n) lr = data).
  { unfold lr; rewrite map_map; etransitivity; [|apply map_id].
    apply map_ext_where with (P := rows_ok (2 * n) (2 * n)); auto.
    intros p Rp; now apply unflatten_flatten_lr. }
  assert (Elr : recover_window_lr (T2 C (2 * n * (2 * n)) lr) (Z.of_nat n)
                = Ok (T3 C (2 * n) (2 * n) data)).
  { rewrite (@recover_window_lr_ok A (T2 C (2 * n * (2 * n)) lr) n Rlr eq_refl).
    cbn [t2_C t2_data]; now rewrite Back. }
  eexists; eexists; eexists; split; [exact ER|].
  unfold select, flip; cbn [t3_data t3_H t3_W nth_error t2_C t2_L t2_data].
  split; [reflexivity|]; split; [reflexivity|]; split; [exact Elr|].
  cbn [t2_C t2_L t2_data]; rewrite map_map.
  replace (map (fun p => rev (rev (flatten_lr (2 * n) (2 * n) (Z.of_nat n) p))) data)
    with lr by (apply map_ext; intros p; now rewrite rev_involutive).
  exact Elr.
Qed.

Lemma recover_window_lr_inverts_witness :
  exists xs lr rl : _,
    rearrange_center_blocks (plane_tensor 4 4 grid4) (Z.of_nat 2) = Ok xs /\
    select 0 xs = Ok lr /\ select 2 xs = Ok rl /\
    recover_window_lr lr (Z.of_nat 2) = Ok (plane_tensor 4 4 grid4) /\
    recover_window_lr (flip rl) (Z.of_nat 2) = Ok (plane_tensor 4 4 grid4).
Proof.
  apply (@recover_window_lr_inverts Z (plane_tensor 4 4 grid4) 2);
    [ split; [reflexivity | repeat constructor] | simpl; lia | lia
    | reflexivity | reflexivity ].
Defined.

(** ** Failures of the recoverers *)












(** ** When [recover_center_blocks] returns *)

Lemma stack_head {A : Type} (x : tensor3 A) :
  wf3 x -> 4 <= t3_C x ->
  exists lr ud rl du rest,
    t3_data x = lr :: ud :: rl :: du :: rest /\
    rows_ok (t3_H x) (t3_W x) lr /\ rows_ok (t3_H x) (t3_W x) ud /\
    rows_ok (t3_H x) (t3_W x) rl /\ rows_ok (t3_H x) (t3_W x) du.
Proof.
  intros [Hl Hp] HK.
  destruct (t3_data x) as [|lr [|ud [|rl [|du rest]]]]; simpl in Hl; try lia.
  apply Forall_cons_iff in Hp; destruct Hp as [Hlr Hp].
  apply Forall_cons_iff in Hp; destruct Hp as [Hud Hp].
  apply Forall_cons_iff in Hp; destruct Hp as [Hrl Hp].
  apply Forall_cons_iff in Hp; destruct Hp as [Hdu Hp].
  exists lr, ud, rl, du, rest; auto 10.
Qed.

Lemma recover_center_blocks_total {A : Type} (add : A -> A -> A)
      (x : tensor3 A) (n : nat) :
  wf3 x -> 4 <= t3_C x -> 1 <= n -> t3_W x = 2 * n * (2 * n) ->
  exists y, recover_center_blocks add x (Z.of_nat n) = Ok y /\
            t3_C y = t3_H x /\ t3_H y = 2 * n /\ t3_W y = 2 * n.
Proof.
  intros Hwf HK Hn HL.
  destruct (stack_head Hwf HK) as (lr & ud & rl & du & rest & Hd & Hlr & Hud & Hrl & Hdu).
  destruct x as [K C L data]; cbn [t3_C t3_H t3_W t3_data] in *; subst data.
  rewrite recover_center_blocks_eq by (auto; nia).
  rewrite (@recover_window_lr_ok A (paired add C L lr rl) n
             (paired_wf add Hlr Hrl) HL).
  rewrite (@recover_window_ud_ok A (paired add C L ud du) n
             (paired_wf add Hud Hdu) HL).
  cbn [bind]; unfold add3; cbn [t3_C t3_H t3_W t3_data paired t2_C t2_L t2_data].
  rewrite !Nat.eqb_refl; cbn [andb].
  eexists; split; [reflexivity|]; cbn [t3_C t3_H t3_W]; auto.
Qed.



(** ** [C_SS2D.forward] *)

Lemma rearrange_wf {A : Type} (x : tensor3 A) (kernel : Z) :
  wf3 x -> (0 <= kernel)%Z ->
  (kernel <= Z.of_nat (t3_H x))%Z -> (kernel <= Z.of_nat (t3_W x))%Z ->
  wf3 (T3 4 (t3_C x) (t3_H x * t3_W x)
          [map (flatten_lr (t3_H x) (t3_W x) kernel) (t3_data x);
           map (flatten_ud (t3_H x) (t3_W x) kernel) (t3_data x);
           map (fun p => rev (flatten_lr (t3_H x) (t3_W x) kernel p)) (t3_data x);
           map (fun p => rev (flatten_ud (t3_H x) (t3_W x) kernel p)) (t3_data x)]).
Proof.
  intros [Hl Hp] Hk HH HW.
  assert (Rlr : rows_ok (t3_C x) (t3_H x * t3_W x)
                        (map (flatten_lr (t3_H x) (t3_W x) kernel) (t3_data x))).
  { split; [now rewrite length_map|].
    apply Forall_map_iff; revert Hp; apply Forall_impl; intros p Rp.
    now apply flatten_lr_length. }
  assert (Rud : rows_ok (t3_C x) (t3_H x * t3_W x)
                        (map (flatten_ud (t3_H x) (t3_W x) kernel) (t3_data x))).
  { split; [now rewrite length_map|].
    apply Forall_map_iff; revert Hp; apply Forall_impl; intros p Rp.
    now apply flatten_ud_length. }
  split; [reflexivity|]; cbn [t3_data t3_H t3_W].
  repeat apply Forall_cons; auto.
  - rewrite <- (map_map _ (@rev A)); now apply rows_ok_rev.
  - rewrite <- (map_map _ (@rev A)); now apply rows_ok_rev.
Qed.

Lemma odd_side_no_square (k W : Z) :
  (1 <= k)%Z -> ((2 * k + 1) * W <> 2 * k * (2 * k))%Z.
Proof.
  intros Hk E.
  assert (E' : ((2 * k + 1) * (W - (2 * k - 1)) = 1)%Z) by lia.
  destruct (Z.le_gt_cases (W - (2 * k - 1)) 0); nia.
Qed.

(** X7: [C_SS2D.forward] splits with kernel = H // 2, scans the four
    sequences and recombines them.  Whatever the scan computes, as long as it
    keeps the shape (B, 4, C, L) of its input, the pipeline returns exactly
    on grids with at least one channel that are square, of even side and at
    least 4 x 4, and then the result has the shape of the input; an odd side
    is never accepted. *)
Theorem C_SS2D_forward_returns_iff {A : Type} (scan : tensor3 A -> tensor3 A)
        (add : A -> A -> A) (x : tensor3 A) :
  shape_preserving scan -> wf3 x ->
  ((exists y, C_SS2D_forward scan add x = Ok y) <->
   1 <= t3_C x /\ t3_W x = t3_H x /\ Nat.even (t3_H x) = true /\ 4 <= t3_H x) /\
  (forall y, C_SS2D_forward scan add x = Ok y ->
             t3_C y = t3_C x /\ t3_H y = t3_H x /\ t3_W y = t3_W x).
Proof.
  intros Hscan Hwf.
  assert (Hk0 : (0 <= forward_kernel (Z.of_nat (t3_H x)))%Z)
    by (unfold forward_kernel; apply Z.div_pos; lia).
  assert (Fwd : forall y, C_SS2D_forward scan add x = Ok y ->
                          (1 <= t3_C x /\ t3_W x = t3_H x /\
                           Nat.even (t3_H x) = true /\ 4 <= t3_H x) /\
                          t3_C y = t3_C x /\ t3_H y = t3_H x /\ t3_W y = t3_W x).
  { intros y E; unfold C_SS2D_forward in E.
    apply bind_Ok in E; destruct E as (xs & Exs & E).
    destruct (rearrange_Ok_guards _ _ Exs) as [Hg HC].
    destruct (guards_fit _ _ _ Hg) as [HH HW].
    pose proof (rearrange_Ok_inv Hwf Hk0 Exs) as Hxs.
    assert (Wxs : wf3 xs) by (subst xs; apply rearrange_wf; auto; lia).
    destruct (Hscan xs Wxs) as (Wt & tC & tH & tW).
    assert (sC : t3_C xs = 4) by now subst xs.
    assert (sH : t3_H xs = t3_C x) by now subst xs.
    assert (sW : t3_W xs = t3_H x * t3_W x) by now subst xs.
    clear Hxs Exs.
    assert (HCt : 1 <= t3_H (scan xs)) by lia.
    assert (HKt : 4 <= t3_C (scan xs)) by lia.
    destruct (stack_head Wt HKt)
      as (lr & ud & rl & du & rest & Hd & Hlr & Hud & Hrl & Hdu).
    pose proof E as E0.
    destruct (scan xs) as [K C L data];
      cbn [t3_C t3_H t3_W t3_data] in *; subst data.
    assert (L0 : L <> 0).
    { destruct (@recover_center_blocks_Ok A add _ y _ Wt E)
        as (? & ? & ? & ? & ? & _ & HL0 & _); exact HL0. }
    rewrite recover_center_blocks_eq in E by auto.
    apply bind_Ok in E; destruct E as (y1 & E1 & E).
    apply bind_Ok in E; destruct E as (y2 & E2 & E).
    pose proof (recover_window_lr_inv (paired add C L lr rl) _ HCt E1) as [_ HL].
    cbn [paired t2_L] in HL.
    set (k := forward_kernel (Z.of_nat (t3_H x))) in *.
    assert (Hdiv : (Z.of_nat (t3_H x) = 2 * k \/ Z.of_nat (t3_H x) = 2 * k + 1)%Z).
    { unfold k, forward_kernel.
      pose proof (Z.div_mod (Z.of_nat (t3_H x)) 2 ltac:(lia)).
      pose proof (Z.mod_pos_bound (Z.of_nat (t3_H x)) 2 ltac:(lia)); lia. }
    assert (HLz : (Z.of_nat (t3_H x) * Z.of_nat (t3_W x) = 2 * k * (2 * k))%Z)
      by (rewrite <- HL, tW, sW; lia).
    assert (Hk1 : (1 <= k)%Z) by lia.
    destruct Hdiv as [He|Ho];
      [|exfalso; rewrite Ho in HLz; now apply (@odd_side_no_square k (Z.of_nat (t3_W x)) Hk1)].
    assert (HWz : Z.of_nat (t3_W x) = (2 * k)%Z) by nia.
    assert (Hn : k = Z.of_nat (Z.to_nat k)) by lia.
    assert (HLn : L = 2 * Z.to_nat k * (2 * Z.to_nat k)) by nia.
    rewrite Hn in E1.
    rewrite (@recover_window_lr_ok A (paired add C L lr rl) (Z.to_nat k)
               (paired_wf add Hlr Hrl) HLn) in E1.
    injection E1 as <-.
    unfold add3 in E; cbn [t3_C t3_H t3_W t3_data] in E.
    destruct (_ && _)%bool in E; [|discriminate].
    injection E as <-; cbn [t3_C t3_H t3_W paired t2_C].
    split; [split; [lia|]; split; [lia|]; split; [|lia] | split; [lia|]; split; lia].
    apply Nat.even_spec. exists (Z.to_nat k); lia. }
  split; [split|].
  - intros [y E]; now apply (Fwd y).
  - intros (HC & HW & Hev & H4).
    apply Nat.even_spec in Hev; destruct Hev as [n Hn].
    unfold C_SS2D_forward.
    assert (Ek : forward_kernel (Z.of_nat (t3_H x)) = Z.of_nat n).
    { unfold forward_kernel; rewrite Hn, Nat2Z.inj_mul.
      change (Z.of_nat 2) with 2%Z; rewrite Z.mul_comm; now apply Z.div_mul. }
    rewrite Ek.
    rewrite (@rearrange_ok A x (Z.of_nat n)) by (auto; lia).
    cbn [bind].
    match goal with |- context [scan ?t] => set (xs := t) end.
    assert (Wxs : wf3 xs) by (apply rearrange_wf; auto; lia).
    destruct (Hscan xs Wxs) as (Wt & tC & tH & tW).
    destruct (@recover_center_blocks_total A add (scan xs) n Wt)
      as (y & E & _); [rewrite tC; reflexivity | lia | |eauto].
    rewrite tW; unfold xs; cbn [t3_W]; rewrite HW, Hn; reflexivity.
  - intros y E; now apply (Fwd y).
Qed.

Lemma C_SS2D_forward_returns_iff_witness :
  let x := plane_tensor 4 4 grid4 in
  ((exists y, C_SS2D_forward (fun t => t) Z.add x = Ok y) <->
   1 <= t3_C x /\ t3_W x = t3_H x /\ Nat.even (t3_H x) = true /\ 4 <= t3_H x) /\
  (forall y, C_SS2D_forward (fun t => t) Z.add x = Ok y ->
             t3_C y = t3_C x /\ t3_H y = t3_H x /\ t3_W y = t3_W x).
Proof.
  apply (@C_SS2D_forward_returns_iff Z (fun t => t) Z.add (plane_tensor 4 4 grid4));
    [ intros t Ht; auto | split; [reflexivity | repeat constructor] ].
Defined.

(** ** The recoverers only move values *)

Lemma nine_blocks_permutation {A : Type} (c : region -> list A) :
  Permutation (concat (map c ud_order)) (concat (map c lr_order)).
Proof.
  rewrite <- !flat_map_concat_map; apply Permutation_flat_map, orders_permutation.
Qed.

Lemma unflatten_lr_permutation {A : Type} (n : nat) (row : list A) :
  length row = 2 * n * (2 * n) ->
  Permutation (concat (unflatten_lr n row)) row.
Proof.
  intros HL; destruct (flatten_unflatten_lr n row HL) as [R E].
  rewrite <- E at 2; symmetry.
  apply flatten_lr_permutation with (H := 2 * n) (W := 2 * n); auto; lia.
Qed.

Lemma unflatten_ud_permutation {A : Type} (n : nat) (row : list A) :
  length row = 2 * n * (2 * n) ->
  Permutation (concat (unflatten_ud n row)) row.
Proof.
  intros HL.
  assert (F := @pieces_shapes A (shapes_ud n) row 0
                 ltac:(rewrite shapes_ud_area; lia)).
  assert (CP := @concat_pieces A (shapes_ud n) row 0).
  rewrite shapes_ud_area in CP; cbn [skipn] in CP.
  rewrite firstn_all2 in CP by lia.
  unfold unflatten_ud; unfold shapes_ud in *; cbn [pieces] in *.
  repeat match goal with
         | Hq : Forall2 _ (_ :: _) (_ :: _) |- _ =>
             apply Forall2_cons_iff in Hq; destruct Hq as [? Hq]
         end.
  cbn [fst snd] in *.
  repeat match goal with
         | Hq : rows_ok _ _ (piece ?a ?h ?w row) |- _ =>
             let b := fresh "b" in
             set (b := piece a h w row) in *; clearbody b
         end.
  cbv beta iota; unfold glue; rewrite !concat_app.
  repeat match goal with
         | |- context [concat (map2 (@app A) (map2 (@app A) ?X ?Y) ?Z)] =>
             first [ rewrite (@band_concat A (band n 0) _ _ _ X Y Z) by eassumption
                   | rewrite (@band_concat A (band n 1) _ _ _ X Y Z) by eassumption
                   | rewrite (@band_concat A (band n 2) _ _ _ X Y Z) by eassumption ]
         end.
  rewrite <- CP.
  cbn [map concat].
  match goal with
  | |- Permutation _ (concat ?c00 ++ concat ?c10 ++ concat ?c20 ++ concat ?c01
                      ++ concat ?c11 ++ concat ?c21 ++ concat ?c02
                      ++ concat ?c12 ++ concat ?c22 ++ []) =>
      pose (f := fun r => match r with
                          | TopLeft => concat c00 | Top => concat c01
                          | TopRight => concat c02 | Left => concat c10
                          | Center => concat c11 | Right => concat c12
                          | BottomLeft => concat c20 | Bottom => concat c21
                          | BottomRight => concat c22
                          end)
  end.
  etransitivity; [|exact (Permutation_sym (nine_blocks_permutation f))].
  cbn [map lr_order concat f]; rewrite <- !app_assoc, app_nil_r; reflexivity.
Qed.

Lemma Forall2_map_where {X Y : Type} (R : Y -> X -> Prop) (P : X -> Prop)
      (f : X -> Y) (l : list X) :
  (forall a, P a -> R (f a) a) -> Forall P l -> Forall2 R (map f l) l.
Proof.
  intros HR HP; induction HP; simpl; constructor; auto.
Qed.

(** X8: on a well-formed sequence tensor with L = (2 * kernel)^2 both
    recoverers return, and each plane they build holds exactly the values of
    its sequence, every one as often as the sequence does: the recoverers
    move values and neither drop nor repeat any. *)
Theorem window_recoverers_move_values {A : Type} (x : tensor2 A) (n : nat) :
  wf2 x -> t2_L x = 2 * n * (2 * n) ->
  exists g_lr g_ud : tensor3 A,
    recover_window_lr x (Z.of_nat n) = Ok g_lr /\
    recover_window_ud x (Z.of_nat n) = Ok g_ud /\
    Forall2 (fun plane row => Permutation (concat plane) row)
            (t3_data g_lr) (t2_data x) /\
    Forall2 (fun plane row => Permutation (concat plane) row)
            (t3_data g_ud) (t2_data x).
Proof.
  intros Hwf HL.
  rewrite (@recover_window_lr_ok A x n Hwf HL), (@recover_window_ud_ok A x n Hwf HL).
  eexists; eexists; split; [reflexivity|]; split; [reflexivity|].
  destruct Hwf as [_ Hrows]; cbn [t3_data]; split.
  - apply Forall2_map_where with (P := fun r => length r = t2_L x); auto.
    intros row Hr; apply unflatten_lr_permutation; lia.
  - apply Forall2_map_where with (P := fun r => length r = t2_L x); auto.
    intros row Hr; apply unflatten_ud_permutation; lia.
Qed.

Lemma window_recoverers_move_values_witness :
  exists g_lr g_ud : tensor3 Z,
    recover_window_lr (T2 1 4 [[1; 2; 3; 4]%Z]) (Z.of_nat 1) = Ok g_lr /\
    recover_window_ud (T2 1 4 [[1; 2; 3; 4]%Z]) (Z.of_nat 1) = Ok g_ud /\
    Forall2 (fun plane row => Permutation (concat plane) row)
            (t3_data g_lr) (t2_data (T2 1 4 [[1; 2; 3; 4]%Z])) /\
    Forall2 (fun plane row => Permutation (concat plane) row)
            (t3_data g_ud) (t2_data (T2 1 4 [[1; 2; 3; 4]%Z])).
Proof.
  apply (@window_recoverers_move_values Z (T2 1 4 [[1; 2; 3; 4]%Z]) 1);
    [ split; [reflexivity | repeat constructor] | reflexivity ].
Defined.

(** ** What [recover_window_ud] makes of an up-to-down sequence *)

Lemma retile_rows {A : Type} (h w : nat) (b : list (list A)) :
  rows_ok h w b -> rows_ok h w (retile h w b).
Proof.
  intros Hb; apply chunks_rows.
  rewrite (rows_ok_concat_length (transpose_rows Hb)); lia.
Qed.

Lemma concat_retile {A : Type} (h w : nat) (b : list (list A)) :
  rows_ok h w b -> concat (retile h w b) = concat (transpose w b).
Proof.
  intros Hb; unfold retile; rewrite concat_chunks.
  apply firstn_all2.
  rewrite (rows_ok_concat_length (transpose_rows Hb)); lia.
Qed.

Lemma retile_square {A : Type} (h : nat) (b : list (list A)) :
  rows_ok h h b -> retile h h b = transpose h b.
Proof.
  intros Hb; unfold retile.
  rewrite <- (app_nil_r (concat _)); apply chunks_concat.
  now apply transpose_rows.
Qed.

Lemma unflatten_flatten_ud {A : Type} (n : nat) (p : list (list A)) :
  rows_ok (2 * n) (2 * n) p ->
  let B r :=
    let w := window (Z.of_nat (2 * n)) (Z.of_nat (2 * n)) (Z.of_nat n) r in
    retile (fst (region_shape n r)) (snd (region_shape n r))
           (crop_plane (fst w) (snd w) p) in
  unflatten_ud n (flatten_ud (2 * n) (2 * n) (Z.of_nat n) p)
  = glue (B TopLeft) (B Top) (B TopRight) (B Left) (B Center) (B Right)
         (B BottomLeft) (B Bottom) (B BottomRight) /\
  forall r, rows_ok (fst (region_shape n r)) (snd (region_shape n r)) (B r).
Proof.
  intros Hp B.
  assert (Rb : forall r,
             rows_ok (fst (region_shape n r)) (snd (region_shape n r))
                     (crop_plane
                        (fst (window (Z.of_nat (2 * n)) (Z.of_nat (2 * n)) (Z.of_nat n) r))
                        (snd (window (Z.of_nat (2 * n)) (Z.of_nat (2 * n)) (Z.of_nat n) r))
                        p)).
  { intros r; pose proof (region_shape_window n r) as E; cbv zeta in E.
    rewrite E; cbn [fst snd]; now apply crop_plane_rows. }
  assert (RB : forall r, rows_ok (fst (region_shape n r)) (snd (region_shape n r)) (B r))
    by (intros r; apply retile_rows, Rb).
  split; [|exact RB].
  assert (F : Forall2 (fun s b => rows_ok (fst s) (snd s) b)
                      (map (region_shape n) ud_order) (map B ud_order)).
  { unfold ud_order; cbn [map]; repeat constructor; apply RB. }
  pose proof (@pieces_concat A _ _ F [] [] 0 eq_refl) as E.
  cbn [app] in E; rewrite app_nil_r, map_map in E.
  assert (Efl : concat (map (fun r => concat (B r)) ud_order)
                = flatten_ud (2 * n) (2 * n) (Z.of_nat n) p).
  { unfold flatten_ud; f_equal; apply map_ext; intros r; cbv zeta.
    unfold B; rewrite concat_retile by apply Rb.
    pose proof (region_shape_window n r) as Er; cbv zeta in Er.
    now rewrite Er. }
  rewrite Efl in E.
  unfold unflatten_ud.
  change (shapes_ud n) with (map (region_shape n) ud_order).
  rewrite E; reflexivity.
Qed.

Lemma crop_unflatten_flatten_ud {A : Type} (n : nat) (p : list (list A)) (r : region) :
  rows_ok (2 * n) (2 * n) p ->
  let w := window (Z.of_nat (2 * n)) (Z.of_nat (2 * n)) (Z.of_nat n) r in
  crop_plane (fst w) (snd w)
             (unflatten_ud n (flatten_ud (2 * n) (2 * n) (Z.of_nat n) p))
  = retile (fst (region_shape n r)) (snd (region_shape n r))
           (crop_plane (fst w) (snd w) p).
Proof.
  intros Hp; destruct (@unflatten_flatten_ud A n p Hp) as [E RB]; cbv zeta in *.
  rewrite E.
  pose proof (crop_glue (RB TopLeft) (RB Top) (RB TopRight) (RB Left)
                        (RB Center) (RB Right) (RB BottomLeft) (RB Bottom)
                        (RB BottomRight)) as G.
  cbn [map lr_order] in G.
  injection G as G0 G1 G2 G3 G4 G5 G6 G7 G8.
  destruct r; assumption.
Qed.

(** X9: on a grid with H = W = 2 * kernel and kernel >= 2,
    [recover_window_ud] applied to the up-to-down sequence of
    [rearrange_center_blocks] returns a grid of the same shape in which
    every one of the nine blocks is in its place but refilled: the block's
    values, taken column by column, are laid out row by row.  The centre
    block, being square, comes back transposed. *)
Theorem recover_window_ud_refills_blocks {A : Type} (x : tensor3 A) (n : nat) :
  wf3 x -> 1 <= t3_C x -> 2 <= n -> t3_H x = 2 * n -> t3_W x = 2 * n ->
  exists xs ud g : _,
    rearrange_center_blocks x (Z.of_nat n) = Ok xs /\
    select 1 xs = Ok ud /\
    recover_window_ud ud (Z.of_nat n) = Ok g /\
    t3_C g = t3_C x /\ t3_H g = t3_H x /\ t3_W g = t3_W x /\
    (forall r,
        let w := window (Z.of_nat (2 * n)) (Z.of_nat (2 * n)) (Z.of_nat n) r in
        t3_data (crop w g)
        = map (fun p => retile (fst (region_shape n r)) (snd (region_shape n r))
                               (crop_plane (fst w) (snd w) p))
              (t3_data x)) /\
    crop (window (Z.of_nat (2 * n)) (Z.of_nat (2 * n)) (Z.of_nat n) Center) g
    = transpose23
        (crop (window (Z.of_nat (2 * n)) (Z.of_nat (2 * n)) (Z.of_nat n) Center) x).
Proof.
  intros Hwf HC Hn HH HW.
  destruct x as [C H W data]; cbn [t3_C t3_H t3_W t3_data] in *; subst H W.
  assert (Hk : (0 <= Z.of_nat n)%Z) by lia.
  assert (Hfit : (Z.of_nat n + 2 <= Z.of_nat (2 * n))%Z) by lia.
  pose proof (@rearrange_ok A (T3 C (2 * n) (2 * n) data) (Z.of_nat n)
                            Hwf HC Hk Hfit Hfit) as ER.
  cbn [t3_C t3_H t3_W t3_data] in ER.
  destruct Hwf as [HCl Hp]; cbn [t3_C t3_H t3_W t3_data] in HCl, Hp.
  set (ud := map (flatten_ud (2 * n) (2 * n) (Z.of_nat n)) data) in *.
  assert (Rud : rows_ok C (2 * n * (2 * n)) ud).
  { split; [unfold ud; now rewrite length_map|].
    apply Forall_map_iff; revert Hp; apply Forall_impl; intros p Rp.
    apply flatten_ud_length; auto; lia. }
  assert (Eud : recover_window_ud (T2 C (2 * n * (2 * n)) ud) (Z.of_nat n)
                = Ok (T3 C (2 * n) (2 * n) (map (unflatten_ud n) ud)))
    by exact (@recover_window_ud_ok A (T2 C (2 * n * (2 * n)) ud) n Rud eq_refl).
  assert (Blocks : forall r,
             map (crop_plane
                    (fst (window (Z.of_nat (2 * n)) (Z.of_nat (2 * n)) (Z.of_nat n) r))
                    (snd (window (Z.of_nat (2 * n)) (Z.of_nat (2 * n)) (Z.of_nat n) r)))
                 (map (unflatten_ud n) ud)
             = map (fun p =>
                      retile (fst (region_shape n r)) (snd (region_shape n r))
                             (crop_plane
                                (fst (window (Z.of_nat (2 * n)) (Z.of_nat (2 * n)) (Z.of_nat n) r))
                                (snd (window (Z.of_nat (2 * n)) (Z.of_nat (2 * n)) (Z.of_nat n) r))
                                p)) data).
  { intros r; unfold ud; rewrite !map_map.
    apply map_ext_where with (P := rows_ok (2 * n) (2 * n)); auto.
    intros p Rp; exact (@crop_unflatten_flatten_ud A n p r Rp). }
  eexists; eexists; eexists; split; [exact ER|].
  unfold select; cbn [t3_data t3_H t3_W nth_error].
  split; [reflexivity|]; split; [exact Eud|].
  cbn [t3_C t3_H t3_W]; repeat (split; [reflexivity|]).
  split; [intros r; cbv zeta; unfold crop; cbn [t3_data]; apply Blocks|].
  unfold transpose23, crop; cbn [t3_C t3_H t3_W t3_data].
  pose proof (region_shape_window n Center) as ES; cbv zeta in ES.
  assert (E1 : slice_len (2 * n)
                 (fst (window (Z.of_nat (2 * n)) (Z.of_nat (2 * n)) (Z.of_nat n) Center))
               = n) by exact (eq_sym (f_equal fst ES)).
  assert (E2 : slice_len (2 * n)
                 (snd (window (Z.of_nat (2 * n)) (Z.of_nat (2 * n)) (Z.of_nat n) Center))
               = n) by exact (eq_sym (f_equal snd ES)).
  rewrite Blocks, !E1, !E2, map_map; f_equal.
  apply map_ext_where with (P := rows_ok (2 * n) (2 * n)); auto.
  intros p Rp; cbn [region_shape band fst snd].
  apply retile_square.
  pose proof (@crop_plane_rows A (2 * n) (2 * n)
                (fst (window (Z.of_nat (2 * n)) (Z.of_nat (2 * n)) (Z.of_nat n) Center))
                (snd (window (Z.of_nat (2 * n)) (Z.of_nat (2 * n)) (Z.of_nat n) Center))
                p Rp) as R.
  now rewrite E1, E2 in R.
Qed.

Lemma recover_window_ud_refills_blocks_witness :
  exists xs ud g : _,
    rearrange_center_blocks (plane_tensor 4 4 grid4) (Z.of_nat 2) = Ok xs /\
    select 1 xs = Ok ud /\
    recover_window_ud ud (Z.of_nat 2) = Ok g /\
    t3_C g = 1 /\ t3_H g = 4 /\ t3_W g = 4 /\
    (forall r,
        let w := window (Z.of_nat (2 * 2)) (Z.of_nat (2 * 2)) (Z.of_nat 2) r in
        t3_data (crop w g)
        = map (fun p => retile (fst (region_shape 2 r)) (snd (region_shape 2 r))
                               (crop_plane (fst w) (snd w) p))
              [grid4]) /\
    crop (window (Z.of_nat (2 * 2)) (Z.of_nat (2 * 2)) (Z.of_nat 2) Center) g
    = transpose23
        (crop (window (Z.of_nat (2 * 2)) (Z.of_nat (2 * 2)) (Z.of_nat 2) Center)
              (plane_tensor 4 4 grid4)).
Proof.
  apply (@recover_window_ud_refills_blocks Z (plane_tensor 4 4 grid4) 2);
    [ split; [reflexivity | repeat constructor] | simpl; lia | lia
    | reflexivity | reflexivity ].
Defined.

(** * [PatchMerging2D.forward] *)

(** ** Every second element *)

Lemma step2_length {A : Type} (l : list A) :
  forall take, length (step2 take l) = step2_len take (length l).
Proof.
  induction l as [|a l IH]; intros [|]; cbn [step2 length]; auto.
  - rewrite IH; unfold step2_len.
    replace (S (length l) + 1) with (length l + 1 * 2) by lia.
    rewrite Nat.div_add by lia; lia.
  - rewrite IH; unfold step2_len; f_equal; lia.
Qed.

Lemma step2_nth_error {A : Type} (l : list A) :
  forall take i,
    nth_error (step2 take l) i
    = nth_error l (2 * i + (if take then 0 else 1)).
Proof.
  induction l as [|a l IH]; intros take i; cbn [step2].
  - now rewrite !nth_error_nil.
  - destruct take.
    + destruct i as [|i]; [reflexivity|].
      cbn [nth_error]; rewrite IH.
      replace (2 * S i + 0) with (S (2 * i + 1)) by lia; reflexivity.
    + rewrite IH.
      replace (2 * i + 1) with (S (2 * i + 0)) by lia; reflexivity.
Qed.

Lemma step2_Forall {A : Type} (P : A -> Prop) (l : list A) :
  Forall P l -> forall take, Forall P (step2 take l).
Proof.
  induction 1 as [|a l Ha _ IH]; intros [|]; simpl; auto.
Qed.

Lemma step2_len_lower (take : bool) (n : nat) : n / 2 <= step2_len take n.
Proof.
  destruct take; unfold step2_len; [|lia].
  apply Nat.Div0.div_le_mono; lia.
Qed.

Lemma step2_len_even (take : bool) (n : nat) :
  n mod 2 = 0 -> step2_len take n = n / 2.
Proof.
  intros Hn; destruct take; unfold step2_len; [|reflexivity].
  pose proof (Nat.div_mod_eq n 2) as E; rewrite Hn in E.
  rewrite E at 1.
  replace (2 * (n / 2) + 0 + 1) with (1 + (n / 2) * 2) by lia.
  rewrite Nat.div_add by lia; reflexivity.
Qed.

Lemma nth_error_firstn_lt {A : Type} (n i : nat) (l : list A) :
  i < n -> nth_error (firstn n l) i = nth_error l i.
Proof.
  revert i l; induction n as [|n IH]; intros i l Hi; [lia|].
  destruct l as [|a l]; [reflexivity|].
  destruct i as [|i]; simpl; [reflexivity|apply IH; lia].
Qed.

Lemma nth_error_map2 {X Y Z : Type} (f : X -> Y -> Z) (a : list X) (b : list Y)
      (i : nat) :
  nth_error (map2 f a b) i
  = match nth_error a i, nth_error b i with
    | Some u, Some v => Some (f u v)
    | _, _ => None
    end.
Proof.
  revert b i; induction a as [|u a IH]; intros b i; cbn [map2].
  - now destruct i.
  - destruct b as [|v b].
    + destruct i; cbn [nth_error]; [reflexivity|].
      now destruct (nth_error a i).
    + destruct i; cbn [nth_error]; [reflexivity | apply IH].
Qed.

(** ** The four corners and their concatenation *)

Lemma concat_concat_map {A : Type} (d : list (list (list A))) :
  concat (concat d) = concat (map (@concat A) d).
Proof.
  induction d as [|r d IH]; simpl; [reflexivity|].
  now rewrite concat_app, IH.
Qed.

Lemma regroup_id {A : Type} (h w c : nat) (d : list (list (list A))) :
  length d = h -> Forall (rows_ok w c) d ->
  map (chunks w c) (chunks h (w * c) (concat (concat d))) = d.
Proof.
  intros Hh Hd.
  assert (R : rows_ok h (w * c) (map (@concat A) d)).
  { split; [now rewrite length_map|].
    apply Forall_map_iff; revert Hd; apply Forall_impl; intros r Hr.
    now apply rows_ok_concat_length. }
  rewrite concat_concat_map, <- (app_nil_r (concat _)), (@chunks_concat _ h (w * c) (map (@concat A) d) [] R).
  rewrite map_map; etransitivity; [|apply map_id].
  apply map_ext_where with (P := rows_ok w c); auto.
  intros r Hr; rewrite <- (app_nil_r (concat r)); now apply chunks_concat.
Qed.

Lemma corner_wf {A : Type} (rows cols : bool) (x : image A) :
  wf_image x ->
  length (corner (im_H x / 2) (im_W x / 2) rows cols (im_data x)) = im_H x / 2 /\
  Forall (rows_ok (im_W x / 2) (im_C x))
         (corner (im_H x / 2) (im_W x / 2) rows cols (im_data x)).
Proof.
  intros [Hl Hd]; unfold corner; split.
  - rewrite length_map, length_firstn, step2_length, Hl.
    pose proof (step2_len_lower rows (im_H x)); lia.
  - apply Forall_map_iff, Forall_firstn, step2_Forall.
    revert Hd; apply Forall_impl; intros row [Hw Hc]; split.
    + rewrite length_firstn, step2_length, Hw.
      pose proof (step2_len_lower cols (im_W x)); lia.
    + now apply Forall_firstn, step2_Forall.
Qed.

Lemma strided_even {A : Type} (rows cols : bool) (x : image A) :
  wf_image x -> im_H x mod 2 = 0 -> im_W x mod 2 = 0 ->
  strided rows cols x
  = Img (im_H x / 2) (im_W x / 2) (im_C x)
        (corner (im_H x / 2) (im_W x / 2) rows cols (im_data x)).
Proof.
  intros [Hl Hd] HH HW; unfold strided, corner.
  rewrite (@step2_len_even rows (im_H x) HH), (@step2_len_even cols (im_W x) HW); f_equal.
  rewrite firstn_all2
    by (rewrite step2_length, Hl, (@step2_len_even rows (im_H x) HH); lia).
  apply map_ext_where with (P := rows_ok (im_W x) (im_C x));
    [now apply step2_Forall|].
  intros row [Hw _]; symmetry; apply firstn_all2.
  rewrite step2_length, Hw, (@step2_len_even cols (im_W x) HW); lia.
Qed.

Lemma crop_strided {A : Type} (rows cols : bool) (x : image A) :
  wf_image x ->
  crop_hw (Z.of_nat (im_H x / 2)) (Z.of_nat (im_W x / 2)) (strided rows cols x)
  = Img (im_H x / 2) (im_W x / 2) (im_C x)
        (corner (im_H x / 2) (im_W x / 2) rows cols (im_data x)).
Proof.
  intros [Hl Hd]; unfold crop_hw, strided, corner, crop_plane;
    cbn [im_H im_W im_C im_data].
  pose proof (step2_len_lower rows (im_H x)) as LH.
  pose proof (step2_len_lower cols (im_W x)) as LW.
  destruct (@slice_bounds_segment (step2_len rows (im_H x)) 0 (im_H x / 2)
              None (Some (Z.of_nat (im_H x / 2))) LH eq_refl eq_refl) as [_ EH].
  destruct (@slice_bounds_segment (step2_len cols (im_W x)) 0 (im_W x / 2)
              None (Some (Z.of_nat (im_W x / 2))) LW eq_refl eq_refl) as [_ EW].
  rewrite EH, EW; f_equal.
  rewrite (@slice_segment _ 0 (im_H x / 2) None (Some (Z.of_nat (im_H x / 2))))
    by (rewrite ?length_map, ?step2_length, ?Hl; auto).
  cbn [skipn]; rewrite firstn_map, map_map.
  apply map_ext_where with (P := rows_ok (im_W x) (im_C x));
    [now apply Forall_firstn, step2_Forall|].
  intros row [Hw _].
  rewrite (@slice_segment _ 0 (im_W x / 2) None (Some (Z.of_nat (im_W x / 2))))
    by (rewrite ?step2_length, ?Hw; auto).
  reflexivity.
Qed.

Lemma rows_ok_map2_app {A : Type} (w c1 c2 : nat) (a b : list (list A)) :
  rows_ok w c1 a -> rows_ok w c2 b -> rows_ok w (c1 + c2) (map2 (@app A) a b).
Proof.
  intros [Ha Fa] [Hb Fb]; split; [rewrite map2_length; lia|].
  clear Ha Hb; revert b Fb; induction Fa as [|u a Hu _ IH]; intros b Fb;
    cbn [map2]; [constructor|].
  destruct Fb as [|v b Hv Fb]; constructor; [|now apply IH].
  rewrite length_app; lia.
Qed.

Lemma wf_map2_app {A : Type} (h w c1 c2 : nat) (a b : list (list (list A))) :
  length a = h -> Forall (rows_ok w c1) a ->
  length b = h -> Forall (rows_ok w c2) b ->
  length (map2 (map2 (@app A)) a b) = h /\
  Forall (rows_ok w (c1 + c2)) (map2 (map2 (@app A)) a b).
Proof.
  intros Ha Fa Hb Fb; split; [rewrite map2_length; lia|].
  clear Ha Hb; revert b Fb; induction Fa as [|u a Hu _ IH]; intros b Fb;
    cbn [map2]; [constructor|].
  destruct Fb as [|v b Hv Fb]; constructor; [|now apply IH].
  now apply rows_ok_map2_app.
Qed.

Lemma PatchMerging2D_forward_ok {A : Type} (x : image A) :
  wf_image x -> 2 <= im_H x ->
  let part := corner (im_H x / 2) (im_W x / 2) in
  let merged :=
    map2 (map2 (@app A))
         (map2 (map2 (@app A))
               (map2 (map2 (@app A)) (part true true (im_data x))
                     (part false true (im_data x)))
               (part true false (im_data x)))
         (part false false (im_data x)) in
  PatchMerging2D_forward x
  = Ok (Img (im_H x / 2) (im_W x / 2) (4 * im_C x) merged) /\
  length merged = im_H x / 2 /\
  Forall (rows_ok (im_W x / 2) (4 * im_C x)) merged.
Proof.
  intros Hwf HH part merged.
  destruct (@corner_wf A true true x Hwf) as [L0 F0].
  destruct (@corner_wf A false true x Hwf) as [L1 F1].
  destruct (@corner_wf A true false x Hwf) as [L2 F2].
  destruct (@corner_wf A false false x Hwf) as [L3 F3].
  destruct (@wf_map2_app A _ _ _ _ _ _ L0 F0 L1 F1) as [L01 F01].
  destruct (@wf_map2_app A _ _ _ _ _ _ L01 F01 L2 F2) as [L012 F012].
  destruct (@wf_map2_app A _ _ _ _ _ _ L012 F012 L3 F3) as [Lm Fm].
  replace (im_C x + im_C x + im_C x + im_C x) with (4 * im_C x) in Fm by lia.
  fold part in Lm, Fm; fold merged in Lm, Fm.
  split; [|split; assumption].
  assert (Hh : 1 <= im_H x / 2)
    by (apply (Nat.div_le_lower_bound (im_H x) 2 1); lia).
  unfold PatchMerging2D_forward; cbv zeta.
  set (SHAPE_FIX := if negb (im_W x mod 2 =? 0) || negb (im_H x mod 2 =? 0)
                    then (Z.of_nat (im_H x / 2), Z.of_nat (im_W x / 2))
                    else ((-1)%Z, (-1)%Z)).
  assert (E : forall rows cols,
             (if (0 <? fst SHAPE_FIX)%Z
              then crop_hw (fst SHAPE_FIX) (snd SHAPE_FIX) (strided rows cols x)
              else strided rows cols x)
             = Img (im_H x / 2) (im_W x / 2) (im_C x)
                   (part rows cols (im_data x))).
  { intros rows cols; subst SHAPE_FIX.
    destruct (Nat.eqb_spec (im_W x mod 2) 0) as [EW|EW];
      destruct (Nat.eqb_spec (im_H x mod 2) 0) as [EH|EH]; cbn [negb orb fst snd];
      try (destruct (Z.ltb_spec 0 (Z.of_nat (im_H x / 2))); [|lia];
           now apply crop_strided).
    now apply strided_even. }
  rewrite !E.
  unfold cat_channels, same_hw; cbn [im_H im_W im_C im_data].
  rewrite !Nat.eqb_refl; cbn [andb bind].
  unfold view_hwc; cbn [im_H im_W im_C im_data].
  replace (im_C x + im_C x + im_C x + im_C x) with (4 * im_C x) by lia.
  rewrite Nat.eqb_refl; do 2 f_equal.
  now apply regroup_id.
Qed.

Lemma pixel_corner {A : Type} (h w : nat) (rows cols : bool)
      (data : list (list (list A))) (i j : nat) :
  i < h -> j < w ->
  match nth_error (corner h w rows cols data) i with
  | Some row => nth_error row j
  | None => None
  end
  = match nth_error data (2 * i + (if rows then 0 else 1)) with
    | Some row => nth_error row (2 * j + (if cols then 0 else 1))
    | None => None
    end.
Proof.
  intros Hi Hj; unfold corner.
  rewrite nth_error_map, nth_error_firstn_lt, step2_nth_error by assumption.
  destruct (nth_error data _) as [row|]; cbn [option_map]; [|reflexivity].
  now rewrite nth_error_firstn_lt, step2_nth_error.
Qed.

Lemma pixel_some {A : Type} (x : image A) (i j : nat) :
  wf_image x -> i < im_H x -> j < im_W x ->
  exists p, pixel x i j = Some p /\ length p = im_C x.
Proof.
  intros [Hl Hd] Hi Hj; unfold pixel.
  destruct (nth_error (im_data x) i) as [row|] eqn:Er;
    [|apply nth_error_None in Er; lia].
  pose proof (proj1 (Forall_forall _ _) Hd row (nth_error_In _ _ Er)) as [Hw Hc].
  destruct (nth_error row j) as [p|] eqn:Ep;
    [|apply nth_error_None in Ep; lia].
  exists p; split; [reflexivity|].
  exact (proj1 (Forall_forall _ _) Hc p (nth_error_In _ _ Ep)).
Qed.

(** X11: on a well-formed (B, H, W, C) tensor with H >= 2 the gathering
    returns a well-formed tensor of shape (B, H // 2, W // 2, 4 * C) whose
    pixel (i, j) is the concatenation of the input pixels (2i, 2j),
    (2i + 1, 2j), (2i, 2j + 1) and (2i + 1, 2j + 1), in this order; the last
    row of an odd H and the last column of an odd W are not read. *)
Theorem PatchMerging2D_gathers {A : Type} (x : image A) :
  wf_image x -> 2 <= im_H x ->
  exists y,
    PatchMerging2D_forward x = Ok y /\
    wf_image y /\
    im_H y = im_H x / 2 /\ im_W y = im_W x / 2 /\ im_C y = 4 * im_C x /\
    forall i j,
      i < im_H x / 2 -> j < im_W x / 2 ->
      exists a b c d,
        pixel x (2 * i) (2 * j) = Some a /\
        pixel x (2 * i + 1) (2 * j) = Some b /\
        pixel x (2 * i) (2 * j + 1) = Some c /\
        pixel x (2 * i + 1) (2 * j + 1) = Some d /\
        pixel y i j = Some (a ++ b ++ c ++ d).
Proof.
  intros Hwf HH.
  destruct (@PatchMerging2D_forward_ok A x Hwf HH) as (E & Lm & Fm); cbv zeta in *.
  eexists; split; [exact E|].
  split; [split; assumption|].
  cbn [im_H im_W im_C]; repeat (split; [reflexivity|]).
  intros i j Hi Hj.
  pose proof (Nat.Div0.mul_div_le (im_H x) 2) as BH.
  pose proof (Nat.Div0.mul_div_le (im_W x) 2) as BW.
  destruct (@pixel_some A x (2 * i) (2 * j) Hwf) as (a & Ea & _); [lia|lia|].
  destruct (@pixel_some A x (2 * i + 1) (2 * j) Hwf) as (b & Eb & _); [lia|lia|].
  destruct (@pixel_some A x (2 * i) (2 * j + 1) Hwf) as (c & Ec & _); [lia|lia|].
  destruct (@pixel_some A x (2 * i + 1) (2 * j + 1) Hwf) as (d & Ed & _); [lia|lia|].
  exists a, b, c, d; repeat (split; [assumption|]).
  pose proof (@pixel_corner A _ _ true true (im_data x) i j Hi Hj) as P0.
  pose proof (@pixel_corner A _ _ false true (im_data x) i j Hi Hj) as P1.
  pose proof (@pixel_corner A _ _ true false (im_data x) i j Hi Hj) as P2.
  pose proof (@pixel_corner A _ _ false false (im_data x) i j Hi Hj) as P3.
  rewrite !Nat.add_0_r in *.
  unfold pixel in *; cbn [im_data].
  rewrite !nth_error_map2.
  destruct (nth_error (corner _ _ true true _) i) as [r0|];
    [|rewrite Ea in P0; discriminate].
  destruct (nth_error (corner _ _ false true _) i) as [r1|];
    [|rewrite Eb in P1; discriminate].
  destruct (nth_error (corner _ _ true false _) i) as [r2|];
    [|rewrite Ec in P2; discriminate].
  destruct (nth_error (corner _ _ false false _) i) as [r3|];
    [|rewrite Ed in P3; discriminate].
  rewrite !nth_error_map2, P0, P1, P2, P3, Ea, Eb, Ec, Ed.
  now rewrite <- !app_assoc.
Qed.

Lemma PatchMerging2D_gathers_witness :
  exists y,
    PatchMerging2D_forward (Img 3 2 1 [[[1]; [2]]; [[3]; [4]]; [[5]; [6]]]%Z) = Ok y /\
    wf_image y /\
    im_H y = 3 / 2 /\ im_W y = 2 / 2 /\ im_C y = 4 * 1 /\
    forall i j,
      i < 3 / 2 -> j < 2 / 2 ->
      exists a b c d,
        pixel (Img 3 2 1 [[[1]; [2]]; [[3]; [4]]; [[5]; [6]]]%Z) (2 * i) (2 * j) = Some a /\
        pixel (Img 3 2 1 [[[1]; [2]]; [[3]; [4]]; [[5]; [6]]]%Z) (2 * i + 1) (2 * j) = Some b /\
        pixel (Img 3 2 1 [[[1]; [2]]; [[3]; [4]]; [[5]; [6]]]%Z) (2 * i) (2 * j + 1) = Some c /\
        pixel (Img 3 2 1 [[[1]; [2]]; [[3]; [4]]; [[5]; [6]]]%Z) (2 * i + 1) (2 * j + 1) = Some d /\
        pixel y i j = Some (a ++ b ++ c ++ d).
Proof.
  apply (@PatchMerging2D_gathers Z (Img 3 2 1 [[[1]; [2]]; [[3]; [4]]; [[5]; [6]]]%Z));
    [ split; [reflexivity | repeat constructor] | simpl; lia ].
Defined.

(** X12: a tensor with a single row is refused: for H = 1 the step-2 slices
    from row 1 are empty while those from row 0 are not, SHAPE_FIX[0] is 0
    so that nothing is cropped, and the concatenation raises a
    [RuntimeError], whatever W and C are. *)
Theorem PatchMerging2D_single_row {A : Type} (x : image A) :
  im_H x = 1 -> PatchMerging2D_forward x = Raise RuntimeError.
Proof.
  intros HH; unfold PatchMerging2D_forward; rewrite HH.
  change (1 mod 2 =? 0) with false; change (1 / 2) with 0.
  rewrite orb_true_r; cbn [negb fst snd Z.of_nat].
  change (0 <? 0)%Z with false; cbv iota.
  unfold cat_channels, same_hw at 1, strided at 1 2;
    cbn [im_H step2_len]; rewrite HH.
  reflexivity.
Qed.

Lemma PatchMerging2D_single_row_witness :
  PatchMerging2D_forward (Img 1 2 1 [[[1]; [2]]]%Z) = Raise RuntimeError.
Proof.
  apply (@PatchMerging2D_single_row Z (Img 1 2 1 [[[1]; [2]]]%Z)); reflexivity.
Defined.

(** * [W_SS2D] *)

(** ** The assertion on the window size *)

Lemma half_divides (H : nat) :
  2 <= H -> (H mod (H / 2) = 0 <-> Nat.even H = true \/ H = 3).
Proof.
  intros HH.
  pose proof (Nat.div_mod_eq H 2) as E.
  pose proof (Nat.mod_upper_bound H 2 ltac:(lia)) as B.
  set (k := H / 2) in *.
  assert (Hk : 1 <= k) by lia.
  destruct (Nat.eq_dec (H mod 2) 0) as [R|R].
  - assert (Ev : Nat.even H = true)
      by (apply Nat.even_spec; exists k; lia).
    split; [auto|intros _].
    replace H with (0 + 2 * k) by lia.
    now rewrite Nat.Div0.mod_add, Nat.Div0.mod_0_l.
  - assert (Od : Nat.even H = false).
    { destruct (Nat.even H) eqn:Ev; [|reflexivity].
      apply Nat.even_spec in Ev; destruct Ev as [m Hm].
      rewrite Hm, Nat.mul_comm, Nat.Div0.mod_mul in R; lia. }
    replace H with (1 + 2 * k) at 1 by lia.
    rewrite Nat.Div0.mod_add.
    destruct (Nat.eq_dec k 1) as [K1|K1].
    + rewrite K1; split; [intros _; right; lia | reflexivity].
    + rewrite Nat.mod_small by lia.
      split; [discriminate | intros [Ev|H3]; [congruence | lia]].
Qed.

(** X13: the first lines of [W_SS2D.forward_core] on a tensor of shape
    (B, C, H, W).  For H <= 1 the window size H // 2 is 0 and the assertion
    itself raises [ZeroDivisionError].  For H >= 2 the assertion fails
    exactly when H is odd and not 3, or W is no multiple of H // 2: the odd
    height 3 passes, and so does every width that is a multiple of H // 2,
    square or not. *)
Theorem W_SS2D_window_check {A : Type} (scan : ndarray A -> ndarray A)
        (x : ndarray A) (B C H W : nat) :
  nd_shape x = [B; C; H; W] ->
  (H <= 1 -> W_SS2D_forward_core scan x = ZeroDivisionError) /\
  (2 <= H ->
   (W_SS2D_forward_core scan x = AssertionError <->
    ~ ((Nat.even H = true \/ H = 3) /\ W mod (H / 2) = 0))).
Proof.
  intros Hs; unfold W_SS2D_forward_core; rewrite Hs; split.
  - intros HH.
    assert (E : H / 2 = 0) by (apply Nat.div_small; lia).
    now rewrite E.
  - intros HH.
    assert (Hk : 1 <= H / 2)
      by (apply (Nat.div_le_lower_bound H 2 1); lia).
    destruct (Nat.eqb_spec (H / 2) 0) as [E|_]; [lia|].
    rewrite <- (half_divides HH).
    destruct (Nat.eqb_spec (H mod (H / 2)) 0) as [E1|E1];
      destruct (Nat.eqb_spec (W mod (H / 2)) 0) as [E2|E2]; cbn [andb negb];
      try (split; [intros _; tauto | reflexivity]).
    split; [|tauto].
    match goal with |- lift ?r = _ -> _ => destruct r; discriminate end.
Qed.

Lemma W_SS2D_window_check_witness :
  (5 <= 1 ->
   W_SS2D_forward_core (fun t => t) (Nd [1; 1; 5; 4] (repeat 0%Z 20))
   = ZeroDivisionError) /\
  (2 <= 5 ->
   (W_SS2D_forward_core (fun t => t) (Nd [1; 1; 5; 4] (repeat 0%Z 20))
    = AssertionError <->
    ~ ((Nat.even 5 = true \/ 5 = 3) /\ 4 mod (5 / 2) = 0))).
Proof.
  apply (@W_SS2D_window_check Z (fun t => t) (Nd [1; 1; 5; 4] (repeat 0%Z 20))
                              1 1 5 4).
  reflexivity.
Defined.

(** ** Positions and multi-indices *)

Lemma numel_cons (n : nat) (s : list nat) : numel (n :: s) = n * numel s.
Proof. reflexivity. Qed.

Lemma numel_app (a b : list nat) : numel (a ++ b) = numel a * numel b.
Proof.
  induction a as [|n a IH]; cbn [app]; [cbn; lia|].
  rewrite !numel_cons, IH; apply Nat.mul_assoc.
Qed.

Lemma unravel_valid (s : list nat) :
  forall o, o < numel s -> Forall2 lt (unravel s o) s.
Proof.
  induction s as [|n s IH]; intros o Ho; cbn [unravel]; constructor;
    rewrite numel_cons in Ho.
  - apply Nat.Div0.div_lt_upper_bound; lia.
  - apply IH, Nat.mod_upper_bound; destruct (numel s); lia.
Qed.

Lemma ravel_unravel (s : list nat) :
  forall o, o < numel s -> ravel s (unravel s o) = o.
Proof.
  induction s as [|n s IH]; intros o Ho; cbn [unravel ravel].
  - cbn in Ho; lia.
  - rewrite numel_cons in Ho.
    assert (Hm : numel s <> 0) by (destruct (numel s); lia).
    rewrite IH by now apply Nat.mod_upper_bound.
    pose proof (Nat.div_mod_eq o (numel s)); lia.
Qed.

Lemma ravel_lt (s : list nat) :
  forall idx, Forall2 lt idx s -> ravel s idx < numel s.
Proof.
  induction s as [|n s IH]; intros idx V; inversion V; subst; cbn [ravel].
  - cbn; lia.
  - rewrite numel_cons.
    match goal with Hq : Forall2 lt _ s |- _ => specialize (IH _ Hq) end.
    nia.
Qed.

Lemma unravel_ravel (s : list nat) :
  forall idx, Forall2 lt idx s -> unravel s (ravel s idx) = idx.
Proof.
  induction s as [|n s IH]; intros idx V; inversion V as [|i ? idx' ? Hi V']; subst;
    cbn [ravel unravel]; [reflexivity|].
  pose proof (@ravel_lt s idx' V') as Hr.
  assert (Hm : numel s <> 0) by lia.
  rewrite Nat.div_add_l, (Nat.div_small (ravel s idx')) by assumption.
  rewrite (Nat.add_comm (i * numel s)), Nat.Div0.mod_add, Nat.mod_small by assumption.
  rewrite IH by assumption; f_equal; lia.
Qed.

Lemma nth_error_seq_lt (a n i : nat) :
  i < n -> nth_error (seq a n) i = Some (a + i).
Proof.
  revert a i; induction n as [|n IH]; intros a i Hi; [lia|].
  destruct i as [|i]; cbn [seq nth_error]; [f_equal; lia|].
  rewrite IH by lia; f_equal; lia.
Qed.

Lemma nth_error_same {A : Type} (l l' : list A) :
  (forall i, nth_error l i = nth_error l' i) -> l = l'.
Proof.
  revert l'; induction l as [|a l IH]; intros [|a' l'] E.
  - reflexivity.
  - specialize (E 0); discriminate.
  - specialize (E 0); discriminate.
  - pose proof (E 0) as E0; cbn in E0; injection E0 as <-.
    f_equal; apply IH; intros i; exact (E (S i)).
Qed.

Lemma nd_flat_ext {A : Type} (s : list nat) (m m' : list A) :
  length m = numel s -> length m' = numel s ->
  (forall idx, Forall2 lt idx s ->
               nth_error m (ravel s idx) = nth_error m' (ravel s idx)) ->
  m = m'.
Proof.
  intros Hm Hm' E; apply nth_error_same; intros o.
  destruct (Nat.lt_ge_cases o (numel s)) as [Ho|Ho].
  - rewrite <- (@ravel_unravel s o Ho); apply E, unravel_valid, Ho.
  - rewrite (proj2 (nth_error_None m o)), (proj2 (nth_error_None m' o)) by lia.
    reflexivity.
Qed.

(** ** [gather_flat] and [permute] *)

Lemma gather_flat_spec {A : Type} (positions : list nat) (flat : list A) :
  Forall (fun o => o < length flat) positions ->
  length (gather_flat positions flat) = length positions /\
  forall i, nth_error (gather_flat positions flat) i
            = match nth_error positions i with
              | Some o => nth_error flat o
              | None => None
              end.
Proof.
  unfold gather_flat; induction 1 as [|o offs Ho _ [IHl IHn]]; cbn [flat_map].
  - split; [reflexivity|intros i; now destruct i].
  - destruct (nth_error flat o) as [v|] eqn:Ev;
      [|apply nth_error_None in Ev; lia].
    cbn [app length]; split; [now rewrite IHl|].
    intros [|i]; cbn [nth_error]; [now rewrite Ev | apply IHn].
Qed.

Lemma gather_flat_map {A B : Type} (g : A -> B) (positions : list nat)
      (flat : list A) :
  gather_flat positions (map g flat) = map g (gather_flat positions flat).
Proof.
  unfold gather_flat; induction positions as [|o offs IH]; cbn [flat_map];
    [reflexivity|].
  rewrite map_app, IH, nth_error_map.
  now destruct (nth_error flat o).
Qed.

(** [src] gives the multi-index that [permute] reads for a multi-index of
    its result. *)
Lemma nd_permute_spec {A : Type} (dims : list nat) (x : ndarray A)
      (src : list nat -> list nat) :
  let shape := map (fun k => nth k (nd_shape x) 0) dims in
  is_permutation dims (length (nd_shape x)) = true ->
  wf_nd x -> numel shape = numel (nd_shape x) ->
  (forall idx, Forall2 lt idx shape ->
               Forall2 lt (src idx) (nd_shape x) /\
               dot idx (map (stride (nd_shape x)) dims)
               = ravel (nd_shape x) (src idx)) ->
  exists m,
    nd_permute dims x = Ok (Nd shape m) /\
    length m = numel shape /\
    forall idx, Forall2 lt idx shape ->
                nth_error m (ravel shape idx)
                = nth_error (nd_flat x) (ravel (nd_shape x) (src idx)).
Proof.
  intros shape Hp Hwf Hn Hsrc; unfold nd_permute; rewrite Hp; fold shape.
  set (g := fun o => dot (unravel shape o) (map (stride (nd_shape x)) dims)).
  assert (In_range : Forall (fun o => o < length (nd_flat x))
                            (map g (seq 0 (numel shape)))).
  { apply Forall_map_iff, Forall_forall; intros o Ho.
    apply in_seq in Ho; destruct Ho as [_ Ho]; cbn [plus] in Ho.
    destruct (Hsrc _ (@unravel_valid shape o Ho)) as [V E].
    unfold g; rewrite E, Hwf; now apply ravel_lt. }
  destruct (@gather_flat_spec A _ _ In_range) as [Hl Hnth].
  eexists; split; [reflexivity|].
  rewrite length_map, length_seq in Hl; split; [exact Hl|].
  intros idx V.
  pose proof (@ravel_lt shape idx V) as Hr.
  rewrite Hnth, nth_error_map, nth_error_seq_lt by assumption.
  cbn [option_map plus]; unfold g; rewrite (@unravel_ravel shape idx V).
  now rewrite (proj2 (Hsrc idx V)).
Qed.

Lemma nd_permute_map {A B : Type} (g : A -> B) (dims : list nat) (x : ndarray A) :
  nd_permute dims (Nd (nd_shape x) (map g (nd_flat x)))
  = match nd_permute dims x with
    | Ok y => Ok (Nd (nd_shape y) (map g (nd_flat y)))
    | Raise e => Raise e
    end.
Proof.
  unfold nd_permute; cbn [nd_shape nd_flat].
  destruct (is_permutation dims (length (nd_shape x))); [|reflexivity].
  cbn [nd_shape nd_flat]; now rewrite gather_flat_map.
Qed.

(** ** The three permutations of [W_SS2D] on a tensor of rank 6 *)

Ltac split_valid V :=
  repeat match type of V with
         | Forall2 lt _ (_ :: _) =>
             let i := fresh "i" in
             let Hi := fresh "Hi" in
             let V' := fresh "V" in
             inversion V as [|i ? ? ? Hi V']; subst; clear V; rename V' into V
         | Forall2 lt _ [] => inversion V; subst; clear V
         end.

Lemma nd_permute6 {A : Type} (dims inv : list nat) (x : ndarray A)
      (d0 d1 d2 d3 d4 d5 : nat) :
  nd_shape x = [d0; d1; d2; d3; d4; d5] -> wf_nd x ->
  In (dims, inv) [([0; 1; 3; 5; 2; 4], [0; 1; 4; 2; 5; 3]);
                  ([0; 1; 4; 2; 5; 3], [0; 1; 3; 5; 2; 4]);
                  ([0; 1; 3; 2; 5; 4], [0; 1; 3; 2; 5; 4])] ->
  let shape := map (fun k => nth k [d0; d1; d2; d3; d4; d5] 0) dims in
  exists m,
    nd_permute dims x = Ok (Nd shape m) /\
    length m = numel shape /\
    forall idx, Forall2 lt idx shape ->
                nth_error m (ravel shape idx)
                = nth_error (nd_flat x)
                            (ravel [d0; d1; d2; d3; d4; d5]
                                   (map (fun a => nth a idx 0) inv)).
Proof.
  intros Hs Hwf Hin shape.
  pose proof (@nd_permute_spec A dims x (fun idx => map (fun a => nth a idx 0) inv))
    as S.
  rewrite Hs in S; cbv zeta in S; fold shape in S; apply S; clear S.
  - cbn [In] in Hin.
    destruct Hin as [E|[E|[E|[]]]]; injection E as <- <-; reflexivity.
  - exact Hwf.
  - subst shape; cbn [In] in Hin.
    destruct Hin as [E|[E|[E|[]]]]; injection E as <- <-;
      cbn [map nth numel fold_right]; ring.
  - intros idx V; subst shape; cbn [In] in Hin.
    destruct Hin as [E|[E|[E|[]]]]; injection E as <- <-;
      cbn [map nth] in V; split_valid V;
      (split;
       [ cbn [map nth]; repeat constructor; assumption
       | unfold dot, stride;
         cbn [map map2 list_sum fold_right skipn numel nth ravel]; ring ]).
Qed.

Lemma nd_permute6_back {A : Type} (dims inv : list nat) (x : ndarray A)
      (d0 d1 d2 d3 d4 d5 : nat) (m : list A) :
  nd_shape x = [d0; d1; d2; d3; d4; d5] -> wf_nd x ->
  In (dims, inv) [([0; 1; 3; 5; 2; 4], [0; 1; 4; 2; 5; 3]);
                  ([0; 1; 4; 2; 5; 3], [0; 1; 3; 5; 2; 4]);
                  ([0; 1; 3; 2; 5; 4], [0; 1; 3; 2; 5; 4])] ->
  let shape := map (fun k => nth k [d0; d1; d2; d3; d4; d5] 0) dims in
  nd_permute dims x = Ok (Nd shape m) ->
  nd_permute inv (Nd shape m) = Ok (Nd [d0; d1; d2; d3; d4; d5] (nd_flat x)).
Proof.
  intros Hs Hwf Hin shape E.
  destruct (@nd_permute6 A dims inv x d0 d1 d2 d3 d4 d5 Hs Hwf Hin)
    as (m1 & E1 & L1 & S1); fold shape in E1, L1, S1.
  rewrite E in E1; injection E1 as <-.
  assert (Hin' : In (inv, dims)
                    [([0; 1; 3; 5; 2; 4], [0; 1; 4; 2; 5; 3]);
                     ([0; 1; 4; 2; 5; 3], [0; 1; 3; 5; 2; 4]);
                     ([0; 1; 3; 2; 5; 4], [0; 1; 3; 2; 5; 4])]).
  { cbn [In] in *; destruct Hin as [H|[H|[H|[]]]]; injection H as <- <-; auto. }
  assert (Hshape : exists e0 e1 e2 e3 e4 e5, shape = [e0; e1; e2; e3; e4; e5] /\
                   map (fun k => nth k [e0; e1; e2; e3; e4; e5] 0) inv
                   = [d0; d1; d2; d3; d4; d5]).
  { subst shape; cbn [In] in Hin.
    destruct Hin as [H|[H|[H|[]]]]; injection H as <- <-; cbn [map nth];
      do 6 eexists; split; reflexivity. }
  destruct Hshape as (e0 & e1 & e2 & e3 & e4 & e5 & Eshape & Eback).
  destruct (@nd_permute6 A inv dims (Nd shape m) e0 e1 e2 e3 e4 e5 Eshape L1 Hin')
    as (m2 & E2 & L2 & S2).
  rewrite Eback in E2, L2, S2; cbn [nd_flat] in S2.
  rewrite E2; do 2 f_equal.
  apply nd_flat_ext with (s := [d0; d1; d2; d3; d4; d5]);
    [exact L2 | now rewrite <- Hs |].
  intros idx V; rewrite (S2 idx V).
  rewrite <- Eshape.
  assert (V' : Forall2 lt (map (fun a => nth a idx 0) dims) shape /\
               map (fun a => nth a (map (fun a => nth a idx 0) dims) 0) inv = idx).
  { subst shape; cbn [In] in Hin; split_valid V.
    destruct Hin as [H|[H|[H|[]]]]; injection H as <- <-; cbn [map nth];
      (split; [repeat constructor; assumption | reflexivity]). }
  destruct V' as [V' Eidx].
  now rewrite (S1 _ V'), Eidx.
Qed.

(** ** [view] and [reshape] *)

Lemma prod_of_nat (s : list nat) :
  fold_right Z.mul 1%Z (map Z.of_nat s) = Z.of_nat (numel s).
Proof.
  induction s as [|n s IH]; [reflexivity|].
  cbn [map fold_right]; rewrite IH, numel_cons; lia.
Qed.

Lemma sizes_of_nat (s : list nat) :
  existsb (fun d => (d <? -1)%Z) (map Z.of_nat s) = false /\
  filter (fun d => negb (d =? -1)%Z) (map Z.of_nat s) = map Z.of_nat s /\
  count_occ Z.eq_dec (map Z.of_nat s) (-1)%Z = 0 /\
  (forall c, map (fun d => if (d =? -1)%Z then c else Z.to_nat d) (map Z.of_nat s) = s) /\
  map Z.to_nat (map Z.of_nat s) = s.
Proof.
  induction s as [|n s (E1 & E2 & E3 & E4 & E5)]; [repeat split|].
  cbn [map existsb filter count_occ].
  destruct (Z.ltb_spec (Z.of_nat n) (-1)); [lia|].
  destruct (Z.eqb_spec (Z.of_nat n) (-1)); [lia|].
  destruct (Z.eq_dec (Z.of_nat n) (-1)); [lia|].
  cbn [orb negb]; rewrite E1, E2, E3, E5, Nat2Z.id.
  repeat split; intros c; now rewrite E4.
Qed.

Lemma nd_view_exact {A : Type} (x : ndarray A) (s : list nat) :
  length (nd_flat x) = numel s ->
  nd_view (map Z.of_nat s) x = Ok (Nd s (nd_flat x)).
Proof.
  intros Hl; unfold nd_view, infer_shape.
  destruct (sizes_of_nat s) as (E1 & E2 & E3 & _ & E5).
  rewrite E1, E2, E3, E5, prod_of_nat, Hl, Z.eqb_refl; reflexivity.
Qed.

Lemma nd_view_hole {A : Type} (x : ndarray A) (pre post : list nat) (c : nat) :
  numel (pre ++ post) <> 0 ->
  length (nd_flat x) = numel (pre ++ c :: post) ->
  nd_view (map Z.of_nat pre ++ (-1)%Z :: map Z.of_nat post) x
  = Ok (Nd (pre ++ c :: post) (nd_flat x)).
Proof.
  intros Hk Hl; unfold nd_view, infer_shape.
  destruct (sizes_of_nat pre) as (P1 & P2 & P3 & P4 & _).
  destruct (sizes_of_nat post) as (Q1 & Q2 & Q3 & Q4 & _).
  rewrite existsb_app, filter_app, count_occ_app, fold_right_app.
  cbn [existsb filter count_occ].
  change (-1 <? -1)%Z with false; change (-1 =? -1)%Z with true.
  destruct (Z.eq_dec (-1) (-1)) as [_|N]; [|congruence].
  cbn [negb orb]; rewrite P1, P2, P3, Q1, Q2, Q3; cbn [orb plus].
  assert (Ek : fold_right Z.mul (fold_right Z.mul 1%Z (map Z.of_nat post))
                          (map Z.of_nat pre)
               = Z.of_nat (numel (pre ++ post))).
  { rewrite <- prod_of_nat, map_app, fold_right_app; reflexivity. }
  rewrite Ek.
  assert (En : length (nd_flat x) = c * numel (pre ++ post)).
  { rewrite Hl, !numel_app, numel_cons; ring. }
  destruct (Z.eqb_spec (Z.of_nat (numel (pre ++ post))) 0); [lia|].
  rewrite <- Nat2Z.inj_mod, <- Nat2Z.inj_div, En.
  rewrite Nat.Div0.mod_mul, Nat.div_mul by assumption.
  change (Z.of_nat 0 =? 0)%Z with true; cbn [bind].
  rewrite map_app; cbn [map]; change (-1 =? -1)%Z with true.
  now rewrite P4, Q4, Nat2Z.id.
Qed.

(** ** Stacking, concatenating and selecting with one batch *)

Lemma chunks_one {A : Type} (n : nat) (l : list A) :
  length l = n -> chunks 1 n l = [l].
Proof.
  intros Hl; cbn [chunks]; now rewrite firstn_all2 by lia.
Qed.

Lemma nd_stack1_one {A : Type} (a b : ndarray A) (rest : list nat) :
  nd_shape a = 1 :: rest -> nd_shape b = 1 :: rest -> wf_nd a -> wf_nd b ->
  nd_stack1 a b = Ok (Nd (1 :: 2 :: rest) (nd_flat a ++ nd_flat b)).
Proof.
  unfold wf_nd, nd_stack1; intros Ha Hb Wa Wb; rewrite Ha, Hb in *.
  rewrite numel_cons in Wa, Wb.
  destruct (list_eq_dec Nat.eq_dec (1 :: rest) (1 :: rest)); [|congruence].
  rewrite !chunks_one by lia; cbn [map2 concat]; now rewrite app_nil_r.
Qed.

Lemma nd_cat1_one {A : Type} (a b : ndarray A) (Ka Kb : nat) (rest : list nat) :
  nd_shape a = 1 :: Ka :: rest -> nd_shape b = 1 :: Kb :: rest ->
  wf_nd a -> wf_nd b ->
  nd_cat1 a b = Ok (Nd (1 :: Ka + Kb :: rest) (nd_flat a ++ nd_flat b)).
Proof.
  unfold wf_nd, nd_cat1; intros Ha Hb Wa Wb; rewrite Ha, Hb in *.
  rewrite !numel_cons in Wa, Wb.
  destruct (list_eq_dec Nat.eq_dec rest rest); [|congruence].
  cbn [Nat.eqb andb].
  rewrite !chunks_one by lia; cbn [map2 concat]; now rewrite app_nil_r.
Qed.

Lemma nd_select1_one {A : Type} (k K : nat) (x : ndarray A) (rest : list nat) :
  nd_shape x = 1 :: K :: rest -> wf_nd x -> k < K ->
  nd_select1 k x
  = Ok (Nd (1 :: rest) (firstn (numel rest) (skipn (k * numel rest) (nd_flat x)))).
Proof.
  unfold wf_nd, nd_select1; intros Hx Wx Hk; rewrite Hx in *.
  rewrite !numel_cons in Wx.
  destruct (Nat.ltb_spec k K); [|lia].
  rewrite chunks_one by lia; cbn [map concat]; now rewrite app_nil_r.
Qed.

Lemma nd_flip_rows {A : Type} (x : ndarray A) (pre : list nat) (L : nat)
      (rs : list (list A)) :
  nd_shape x = pre ++ [L] -> L <> 0 ->
  rows_ok (numel pre) L rs -> nd_flat x = concat rs ->
  nd_flip x = Ok (Nd (pre ++ [L]) (concat (map (@rev A) rs))).
Proof.
  intros Hs HL Hr Hf; unfold nd_flip; rewrite Hs, rev_app_distr; cbn [rev app].
  rewrite numel_app; cbn [numel fold_right]; rewrite Nat.mul_1_r.
  rewrite Nat.div_mul by assumption.
  rewrite Hf, <- (app_nil_r (concat rs)), (@chunks_concat A _ _ rs [] Hr).
  reflexivity.
Qed.

(** ** The round of [W_SS2D] on a square grid of even side *)

Lemma nth_piece {A : Type} (pre a post : list A) (N o : nat) :
  length pre = o -> length a = N ->
  firstn N (skipn o (pre ++ a ++ post)) = a.
Proof.
  intros Ho Ha.
  rewrite skipn_app, skipn_all2, Ho, Nat.sub_diag by lia; cbn [skipn app].
  rewrite firstn_app, Ha, Nat.sub_diag, firstn_all2 by lia.
  cbn [firstn]; apply app_nil_r.
Qed.

Lemma rows_ok_app {A : Type} (a b L : nat) (x y : list (list A)) :
  rows_ok a L x -> rows_ok b L y -> rows_ok (a + b) L (x ++ y).
Proof.
  intros [Hx Fx] [Hy Fy]; split; [rewrite length_app; lia|].
  apply Forall_app; auto.
Qed.

Lemma rows_of_flat {A : Type} (n L : nat) (f : list A) :
  length f = n * L ->
  rows_ok n L (chunks n L f) /\ concat (chunks n L f) = f.
Proof.
  intros Hl; split; [apply chunks_rows; lia|].
  rewrite concat_chunks; apply firstn_all2; lia.
Qed.

Ltac view_exact t s :=
  match goal with
  | |- context [nd_view ?d t] =>
      change (nd_view d t) with (nd_view (map Z.of_nat s) t);
      rewrite (@nd_view_exact _ t s)
  end.

Ltac view_hole t pre post c :=
  match goal with
  | |- context [nd_view ?d t] =>
      change (nd_view d t)
        with (nd_view (map Z.of_nat pre ++ (-1)%Z :: map Z.of_nat post) t);
      rewrite (@nd_view_hole _ t pre post c)
  end.

Lemma W_SS2D_forward_core_square {A : Type} (x : ndarray A) (C k : nat) :
  1 <= k -> nd_shape x = [1; C; 2 * k; 2 * k] -> wf_nd x ->
  exists p,
    nd_permute [0; 1; 3; 5; 2; 4] (Nd [1; C; 2; k; 2; k] (nd_flat x))
    = Ok (Nd [1; C; k; k; 2; 2] p) /\
    W_SS2D_forward_core (fun t => t) x
    = Returns (Nd [1; C; 2 * k * (2 * k)] p, Nd [1; C; 2 * k * (2 * k)] p,
               Nd [1; C; 2 * k * (2 * k)] p, Nd [1; C; 2 * k * (2 * k)] p).
Proof.
  intros Hk Hs Hwf.
  assert (Hl : length (nd_flat x) = numel [1; C; 2; k; 2; k]).
  { rewrite Hwf, Hs; cbn [numel fold_right]; ring. }
  set (v := Nd [1; C; 2; k; 2; k] (nd_flat x)).
  destruct (@nd_permute6 A [0; 1; 3; 5; 2; 4] [0; 1; 4; 2; 5; 3] v 1 C 2 k 2 k
              eq_refl Hl ltac:(cbn [In]; auto))
    as (p & Ep & Lp & _); cbn [map nth] in Ep, Lp.
  set (sp := Nd [1; C; k; k; 2; 2] p) in *.
  destruct (@nd_permute6 A [0; 1; 3; 2; 5; 4] [0; 1; 3; 2; 5; 4] sp 1 C k k 2 2
              eq_refl Lp ltac:(cbn [In]; auto))
    as (q & Eq & Lq & _); cbn [map nth] in Eq, Lq.
  pose proof (@nd_permute6_back A [0; 1; 3; 2; 5; 4] [0; 1; 3; 2; 5; 4] sp
                1 C k k 2 2 q eq_refl Lp ltac:(cbn [In]; auto) Eq) as Eback.
  cbn [map nth nd_flat sp] in Eback.
  exists p; split; [exact Ep|].
  unfold W_SS2D_forward_core; rewrite Hs.
  assert (E1 : 2 * k / 2 = k) by (rewrite Nat.mul_comm; now apply Nat.div_mul).
  assert (E2 : 2 * k / k = 2) by (apply Nat.div_mul; lia).
  assert (E3 : (2 * k) mod k = 0) by (apply Nat.Div0.mod_mul).
  rewrite E1, E2, E3.
  destruct (Nat.eqb_spec k 0) as [K0|_]; [lia|].
  cbn [Nat.eqb andb negb]; cbv zeta; unfold nd_reshape.
  set (L := 2 * k * (2 * k)).
  assert (HL : L <> 0) by (unfold L; nia).
  assert (Lp' : length p = C * L)
    by (rewrite Lp; cbn [numel fold_right]; unfold L; ring).
  assert (Lq' : length q = C * L)
    by (rewrite Lq; cbn [numel fold_right]; unfold L; ring).
  destruct (@rows_of_flat A C L p Lp') as [Rp Cp].
  destruct (@rows_of_flat A C L q Lq') as [Rq Cq].
  set (rp := chunks C L p) in *; set (rq := chunks C L q) in *.
  assert (Lrp : length (concat (map (@rev A) rp)) = C * L)
    by (apply rows_ok_concat_length, rows_ok_rev, Rp).
  assert (Lrq : length (concat (map (@rev A) rq)) = C * L)
    by (apply rows_ok_concat_length, rows_ok_rev, Rq).
  (* the two sequences *)
  view_exact x [1; C; 2; k; 2; k]; [|exact Hl]; cbn [bind]; fold v.
  rewrite Ep; cbn [bind].
  view_hole sp [1] [L] C;
    [| cbn [app numel fold_right]; lia
     | cbn [app numel fold_right nd_flat sp]; lia ].
  cbn [bind app nd_flat sp]; rewrite Eq; cbn [bind].
  view_hole (Nd [1; C; k; k; 2; 2] q) [1] [L] C;
    [| cbn [app numel fold_right]; lia
     | cbn [app numel fold_right nd_flat]; lia ].
  cbn [bind app nd_flat].
  (* the stack of the four directions *)
  rewrite (@nd_stack1_one A (Nd [1; C; L] p) (Nd [1; C; L] q) [C; L]
             eq_refl eq_refl)
    by (unfold wf_nd; cbn [nd_flat nd_shape numel fold_right]; lia).
  cbn [bind nd_flat].
  view_hole (Nd [1; 2; C; L] (p ++ q)) [1; 2] [L] C;
    [| cbn [app numel fold_right]; lia
     | cbn [app numel fold_right nd_flat]; rewrite length_app; lia ].
  cbn [bind app nd_flat].
  rewrite (@nd_flip_rows A (Nd [1; 2; C; L] (p ++ q)) [1; 2; C] L (rp ++ rq)
             eq_refl HL);
    [| cbn [numel fold_right];
       replace (1 * (2 * (C * 1))) with (C + C) by lia; now apply rows_ok_app
     | cbn [nd_flat]; now rewrite concat_app, Cp, Cq ].
  cbn [bind app].
  rewrite (@nd_cat1_one A (Nd [1; 2; C; L] (p ++ q))
             (Nd [1; 2; C; L] (concat (map (@rev A) (rp ++ rq)))) 2 2 [C; L]
             eq_refl eq_refl)
    by (unfold wf_nd; cbn [nd_flat nd_shape numel fold_right];
        rewrite ?map_app, ?concat_app, ?length_app; lia).
  cbn [bind nd_flat plus].
  rewrite map_app, concat_app.
  set (F := (p ++ q) ++ concat (map (@rev A) rp) ++ concat (map (@rev A) rq)).
  assert (LF : length F = 4 * (C * L))
    by (unfold F; rewrite !length_app; lia).
  view_hole (Nd [1; 4; C; L] F) [1] [L] (4 * C);
    [| cbn [app numel fold_right]; lia
     | cbn [app numel fold_right nd_flat]; lia ].
  cbn [bind app nd_flat].
  view_hole (Nd [1; 4 * C; L] F) [1; 4] [L] C;
    [| cbn [app numel fold_right]; lia
     | cbn [app numel fold_right nd_flat]; lia ].
  cbn [bind app nd_flat].
  set (out_y := Nd [1; 4; C; L] F).
  assert (Wout : wf_nd out_y)
    by (unfold wf_nd, out_y; cbn [nd_flat nd_shape numel fold_right]; lia).
  assert (NR : numel [C; L] = C * L) by (cbn [numel fold_right]; lia).
  (* the four directions read back *)
  assert (S0 : nd_select1 0 out_y = Ok (Nd [1; C; L] p)).
  { rewrite (@nd_select1_one A 0 4 out_y [C; L] eq_refl Wout) by lia.
    rewrite NR; do 2 f_equal; cbn [nd_flat out_y]; unfold F.
    rewrite <- app_assoc.
    exact (@nth_piece A [] p _ (C * L) (0 * (C * L)) eq_refl Lp'). }
  assert (S1 : nd_select1 1 out_y = Ok (Nd [1; C; L] q)).
  { rewrite (@nd_select1_one A 1 4 out_y [C; L] eq_refl Wout) by lia.
    rewrite NR; do 2 f_equal; cbn [nd_flat out_y]; unfold F.
    rewrite <- app_assoc.
    apply nth_piece; lia. }
  assert (S2 : nd_select1 2 out_y = Ok (Nd [1; C; L] (concat (map (@rev A) rp)))).
  { rewrite (@nd_select1_one A 2 4 out_y [C; L] eq_refl Wout) by lia.
    rewrite NR; do 2 f_equal; cbn [nd_flat out_y]; unfold F.
    apply nth_piece; [rewrite length_app; lia | exact Lrp]. }
  assert (S3 : nd_select1 3 out_y = Ok (Nd [1; C; L] (concat (map (@rev A) rq)))).
  { rewrite (@nd_select1_one A 3 4 out_y [C; L] eq_refl Wout) by lia.
    rewrite NR; do 2 f_equal; cbn [nd_flat out_y]; unfold F.
    rewrite (app_assoc (p ++ q)), <- (app_nil_r (concat (map (@rev A) rq))) at 1.
    apply nth_piece; [rewrite !length_app; lia | exact Lrq]. }
  assert (Unflip : forall rs : list (list A),
             rows_ok C L rs ->
             nd_flip (Nd [1; C; L] (concat (map (@rev A) rs)))
             = Ok (Nd [1; C; L] (concat rs))).
  { intros rs Rs.
    rewrite (@nd_flip_rows A (Nd [1; C; L] (concat (map (@rev A) rs))) [1; C] L
               (map (@rev A) rs) eq_refl HL);
      [| cbn [numel fold_right];
         replace (1 * (C * 1)) with C by lia; now apply rows_ok_rev
       | reflexivity ].
    cbn [app]; do 3 f_equal.
    rewrite map_map; etransitivity; [|apply map_id].
    apply map_ext; intros r; apply rev_involutive. }
  assert (View6 : forall f : list A,
             length f = C * L ->
             nd_view [Z.of_nat 1; (-1)%Z; Z.of_nat k; Z.of_nat k;
                      Z.of_nat 2; Z.of_nat 2] (Nd [1; C; L] f)
             = Ok (Nd [1; C; k; k; 2; 2] f)).
  { intros f Hf.
    view_hole (Nd [1; C; L] f) [1] [k; k; 2; 2] C;
      [reflexivity | cbn [app numel fold_right]; nia |].
    cbn [app numel fold_right nd_flat]; rewrite Hf; unfold L; ring. }
  assert (View3 : forall f : list A,
             length f = C * L ->
             forall s, nd_view [Z.of_nat 1; (-1)%Z; Z.of_nat L] (Nd s f)
                       = Ok (Nd [1; C; L] f)).
  { intros f Hf s.
    view_hole (Nd s f) [1] [L] C;
      [reflexivity | cbn [app numel fold_right]; lia |].
    cbn [app numel fold_right nd_flat]; rewrite Hf; ring. }
  rewrite S0, S1, S2, S3; cbn [bind].
  rewrite !Unflip by assumption; cbn [bind]; rewrite Cp, Cq.
  rewrite !View6 by assumption; cbn [bind].
  rewrite Eback; cbn [bind].
  rewrite !View3 by assumption; cbn [bind].
  reflexivity.
Qed.

Lemma map2_map_left {X Y : Type} (f : Y -> X -> Y) (g : X -> Y) (l : list X) :
  map2 f (map g l) l = map (fun a => f (g a) a) l.
Proof.
  induction l as [|a l IH]; cbn [map map2]; [reflexivity | now rewrite IH].
Qed.

(** X14: with the scan replaced by the identity, [W_SS2D.forward] gives
    x + x + x + x on every tensor of shape (1, C, H, H) with H even and
    H >= 2: the two window orders and their flips are undone exactly, so the
    four directions are summed cell by cell. *)
Theorem W_SS2D_round_trip {A : Type} (add : A -> A -> A) (x : ndarray A)
        (C H : nat) :
  nd_shape x = [1; C; H; H] -> wf_nd x -> Nat.even H = true -> 2 <= H ->
  W_SS2D_forward (fun t => t) add x
  = Returns (Nd [1; C; H; H]
                (map (fun a => add (add (add a a) a) a) (nd_flat x))).
Proof.
  intros Hs Hwf Hev HH.
  apply Nat.even_spec in Hev; destruct Hev as [k Ek]; subst H.
  assert (Hk : 1 <= k) by lia.
  destruct (@W_SS2D_forward_core_square A x C k Hk Hs Hwf) as (p & Ep & Ecore).
  assert (Hl : length (nd_flat x) = numel [1; C; 2; k; 2; k]).
  { rewrite Hwf, Hs; cbn [numel fold_right]; ring. }
  pose proof (@nd_permute6_back A [0; 1; 3; 5; 2; 4] [0; 1; 4; 2; 5; 3]
                (Nd [1; C; 2; k; 2; k] (nd_flat x)) 1 C 2 k 2 k p eq_refl Hl
                ltac:(cbn [In]; auto) Ep) as Eback.
  cbn [map nth nd_flat] in Eback.
  assert (Lp : length p = C * (2 * k * (2 * k))).
  { unfold nd_permute in Eback.
    destruct (is_permutation _ _) in Eback; [|discriminate].
    injection Eback as Ef.
    assert (W : wf_nd (Nd [1; C; k; k; 2; 2] p)).
    { destruct (@nd_permute6 A [0; 1; 3; 5; 2; 4] [0; 1; 4; 2; 5; 3]
                  (Nd [1; C; 2; k; 2; k] (nd_flat x)) 1 C 2 k 2 k eq_refl Hl
                  ltac:(cbn [In]; auto)) as (p' & Ep' & Lp' & _).
      rewrite Ep in Ep'; injection Ep' as <-; exact Lp'. }
    unfold wf_nd in W; cbn [nd_flat nd_shape numel fold_right] in W.
    rewrite W; ring. }
  unfold W_SS2D_forward; rewrite Hs, Ecore; cbn [outcome_bind].
  assert (E1 : 2 * k / 2 = k) by (rewrite Nat.mul_comm; now apply Nat.div_mul).
  assert (E2 : 2 * k / k = 2) by (apply Nat.div_mul; lia).
  rewrite E1, E2; unfold nd_add, nd_reshape; cbn [nd_shape nd_flat].
  do 3 (destruct (list_eq_dec Nat.eq_dec [1; C; 2 * k * (2 * k)]
                              [1; C; 2 * k * (2 * k)]);
        [|congruence]; cbn [bind nd_shape nd_flat]).
  rewrite map2_diag, !map2_map_left.
  set (g := fun a => add (add (add a a) a) a).
  view_hole (Nd [1; C; 2 * k * (2 * k)] (map g p)) [1] [k; k; 2; 2] C;
    [| cbn [app numel fold_right]; nia
     | cbn [app numel fold_right nd_flat]; rewrite length_map, Lp; ring ].
  cbn [bind app nd_flat].
  pose proof (@nd_permute_map A A g [0; 1; 4; 2; 5; 3] (Nd [1; C; k; k; 2; 2] p))
    as Emap.
  cbn [nd_shape nd_flat] in Emap; rewrite Emap, Eback.
  cbn [bind nd_shape nd_flat].
  view_hole (Nd [1; C; 2; k; 2; k] (map g (nd_flat x))) [1] [2 * k; 2 * k] C;
    [reflexivity
    | cbn [app numel fold_right]; nia
    | cbn [app numel fold_right nd_flat]; rewrite length_map, Hwf, Hs;
      cbn [numel fold_right]; ring ].
Qed.

Lemma W_SS2D_round_trip_witness :
  W_SS2D_forward (fun t => t) Z.add (Nd [1; 1; 2; 2] [1; 2; 3; 4]%Z)
  = Returns (Nd [1; 1; 2; 2]
                (map (fun a => (a + a + a + a)%Z) [1; 2; 3; 4]%Z)).
Proof.
  apply (@W_SS2D_round_trip Z Z.add (Nd [1; 1; 2; 2] [1; 2; 3; 4]%Z) 1 2);
    [reflexivity | reflexivity | reflexivity | lia].
Defined.

(** ** [W_SS2D] on every grid that passes the assertion *)

Lemma nth_quarter {A : Type} (F : list A) (N j : nat) :
  length F = 4 * N -> j < 4 ->
  length (firstn N (skipn (j * N) F)) = N.
Proof.
  intros HF Hj; rewrite length_firstn, length_skipn; nia.
Qed.

Lemma W_SS2D_forward_core_returns {A : Type} (scan : ndarray A -> ndarray A)
      (x : ndarray A) (C H W : nat) :
  nd_shape_preserving scan ->
  nd_shape x = [1; C; H; W] -> wf_nd x ->
  2 <= H -> H mod (H / 2) = 0 -> W mod (H / 2) = 0 -> 1 <= W ->
  let k := H / 2 in
  exists p xs y1 y2 y3 y4,
    nd_permute [0; 1; 3; 5; 2; 4] (Nd [1; C; H / k; k; W / k; k] (nd_flat x))
    = Ok (Nd [1; C; k; k; H / k; W / k] p) /\
    nd_shape xs = [1; 4 * C; H * W] /\ wf_nd xs /\
    firstn (C * (H * W)) (nd_flat xs) = p /\
    W_SS2D_forward_core scan x
    = Returns (Nd [1; C; H * W] y1, Nd [1; C; H * W] y2,
               Nd [1; C; H * W] y3, Nd [1; C; H * W] y4) /\
    y1 = firstn (C * (H * W)) (nd_flat (scan xs)) /\
    length y1 = C * (H * W) /\ length y2 = C * (H * W) /\
    length y3 = C * (H * W) /\ length y4 = C * (H * W).
Proof.
  intros Hscan Hs Hwf HH EH EW HW k.
  change (H mod k = 0) in EH; change (W mod k = 0) in EW.
  assert (Hk : 1 <= k) by (apply (Nat.div_le_lower_bound H 2 1); lia).
  pose proof (proj2 (Nat.Div0.div_exact H k) EH) as Ha.
  pose proof (proj2 (Nat.Div0.div_exact W k) EW) as Hb.
  set (a := H / k) in *; set (b := W / k) in *.
  assert (Ha1 : 1 <= a) by nia.
  assert (Hb1 : 1 <= b) by nia.
  set (L := H * W).
  assert (HL : L <> 0) by (unfold L; nia).
  assert (EL : L = a * k * (b * k)) by (unfold L; nia).
  assert (Hl : length (nd_flat x) = numel [1; C; a; k; b; k]).
  { rewrite Hwf, Hs; cbn [numel fold_right]; nia. }
  set (v := Nd [1; C; a; k; b; k] (nd_flat x)).
  destruct (@nd_permute6 A [0; 1; 3; 5; 2; 4] [0; 1; 4; 2; 5; 3] v 1 C a k b k
              eq_refl Hl ltac:(cbn [In]; auto))
    as (p & Ep & Lp & _); cbn [map nth] in Ep, Lp.
  set (sp := Nd [1; C; k; k; a; b] p) in *.
  destruct (@nd_permute6 A [0; 1; 3; 2; 5; 4] [0; 1; 3; 2; 5; 4] sp 1 C k k a b
              eq_refl Lp ltac:(cbn [In]; auto))
    as (q & Eq & Lq & _); cbn [map nth] in Eq, Lq.
  assert (Lp' : length p = C * L)
    by (rewrite Lp, EL; cbn [numel fold_right]; ring).
  assert (Lq' : length q = C * L)
    by (rewrite Lq, EL; cbn [numel fold_right]; ring).
  destruct (@rows_of_flat A C L p Lp') as [Rp Cp].
  destruct (@rows_of_flat A C L q Lq') as [Rq Cq].
  set (rp := chunks C L p) in *; set (rq := chunks C L q) in *.
  assert (Lrp : length (concat (map (@rev A) rp)) = C * L)
    by (apply rows_ok_concat_length, rows_ok_rev, Rp).
  assert (Lrq : length (concat (map (@rev A) rq)) = C * L)
    by (apply rows_ok_concat_length, rows_ok_rev, Rq).
  set (F0 := (p ++ q) ++ concat (map (@rev A) rp) ++ concat (map (@rev A) rq)).
  assert (LF0 : length F0 = 4 * (C * L))
    by (unfold F0; rewrite !length_app; lia).
  set (xs := Nd [1; 4 * C; L] F0).
  assert (Wxs : wf_nd xs)
    by (unfold wf_nd, xs; cbn [nd_flat nd_shape numel fold_right]; lia).
  destruct (Hscan xs Wxs) as [Wt St].
  assert (LF : length (nd_flat (scan xs)) = 4 * (C * L)).
  { unfold wf_nd in Wt; rewrite Wt, St; cbn [xs nd_shape numel fold_right]; lia. }
  set (F := nd_flat (scan xs)) in *.
  set (f0 := firstn (C * L) (skipn (0 * (C * L)) F)).
  set (f1 := firstn (C * L) (skipn (1 * (C * L)) F)).
  set (f2 := firstn (C * L) (skipn (2 * (C * L)) F)).
  set (f3 := firstn (C * L) (skipn (3 * (C * L)) F)).
  assert (L0 : length f0 = C * L) by (apply nth_quarter; [exact LF | lia]).
  assert (L1 : length f1 = C * L) by (apply nth_quarter; [exact LF | lia]).
  assert (L2 : length f2 = C * L) by (apply nth_quarter; [exact LF | lia]).
  assert (L3 : length f3 = C * L) by (apply nth_quarter; [exact LF | lia]).
  destruct (@rows_of_flat A C L f2 L2) as [R2 C2].
  destruct (@rows_of_flat A C L f3 L3) as [R3 C3].
  set (g2 := concat (map (@rev A) (chunks C L f2))).
  set (g3 := concat (map (@rev A) (chunks C L f3))).
  assert (Lg2 : length g2 = C * L)
    by (apply rows_ok_concat_length, rows_ok_rev, R2).
  assert (Lg3 : length g3 = C * L)
    by (apply rows_ok_concat_length, rows_ok_rev, R3).
  assert (Perm2 : forall f : list A,
             length f = C * L ->
             exists u, nd_permute [0; 1; 3; 2; 5; 4] (Nd [1; C; k; k; a; b] f)
                       = Ok (Nd [1; C; k; k; b; a] u) /\ length u = C * L).
  { intros f Hf.
    assert (Wf : wf_nd (Nd [1; C; k; k; a; b] f))
      by (unfold wf_nd; cbn [nd_flat nd_shape numel fold_right];
          rewrite Hf, EL; ring).
    destruct (@nd_permute6 A [0; 1; 3; 2; 5; 4] [0; 1; 3; 2; 5; 4]
                (Nd [1; C; k; k; a; b] f) 1 C k k a b eq_refl Wf
                ltac:(cbn [In]; auto)) as (u & Eu & Lu & _).
    cbn [map nth] in Eu, Lu; exists u; split; [exact Eu|].
    rewrite Lu, EL; cbn [numel fold_right]; ring. }
  destruct (Perm2 f1 L1) as (u1 & Eu1 & Lu1).
  destruct (Perm2 g3 Lg3) as (u3 & Eu3 & Lu3).
  exists p, xs, f0, u1, g2, u3.
  split; [exact Ep|].
  split; [reflexivity|]; split; [exact Wxs|].
  split.
  { cbn [xs nd_flat]; unfold F0; rewrite <- app_assoc.
    exact (@nth_piece A [] p _ (C * L) 0 eq_refl Lp'). }
  split; [|unfold f0; cbn [Nat.mul skipn]; auto 10].
  unfold W_SS2D_forward_core; rewrite Hs; fold k; fold a; fold b; fold L.
  destruct (Nat.eqb_spec k 0) as [K0|_]; [lia|].
  rewrite EH, EW; cbn [Nat.eqb andb negb]; cbv zeta; unfold nd_reshape.
  assert (View6 : forall f : list A,
             length f = C * L ->
             nd_view [Z.of_nat 1; (-1)%Z; Z.of_nat k; Z.of_nat k;
                      Z.of_nat a; Z.of_nat b] (Nd [1; C; L] f)
             = Ok (Nd [1; C; k; k; a; b] f)).
  { intros f Hf.
    view_hole (Nd [1; C; L] f) [1] [k; k; a; b] C;
      [reflexivity | cbn [app numel fold_right]; nia |].
    cbn [app numel fold_right nd_flat]; rewrite Hf, EL; ring. }
  assert (View3 : forall f : list A,
             length f = C * L ->
             forall s, nd_view [Z.of_nat 1; (-1)%Z; Z.of_nat L] (Nd s f)
                       = Ok (Nd [1; C; L] f)).
  { intros f Hf s.
    view_hole (Nd s f) [1] [L] C;
      [reflexivity | cbn [app numel fold_right]; lia |].
    cbn [app numel fold_right nd_flat]; rewrite Hf; ring. }
  assert (Flip : forall f : list A,
             length f = C * L ->
             nd_flip (Nd [1; C; L] f)
             = Ok (Nd [1; C; L] (concat (map (@rev A) (chunks C L f))))).
  { intros f Hf; destruct (@rows_of_flat A C L f Hf) as [Rf Cf].
    rewrite (@nd_flip_rows A (Nd [1; C; L] f) [1; C] L (chunks C L f) eq_refl HL);
      [reflexivity
      | cbn [numel fold_right]; replace (1 * (C * 1)) with C by lia; exact Rf
      | cbn [nd_flat]; now rewrite Cf ]. }
  (* the two sequences *)
  subst sp.
  view_exact x [1; C; a; k; b; k]; [|exact Hl]; cbn [bind]; fold v.
  rewrite Ep; cbn [bind].
  rewrite (View3 p Lp'); cbn [bind]; rewrite Eq; cbn [bind].
  rewrite (View3 q Lq'); cbn [bind].
  (* the stack of the four directions *)
  rewrite (@nd_stack1_one A (Nd [1; C; L] p) (Nd [1; C; L] q) [C; L]
             eq_refl eq_refl)
    by (unfold wf_nd; cbn [nd_flat nd_shape numel fold_right]; lia).
  cbn [bind nd_flat].
  view_hole (Nd [1; 2; C; L] (p ++ q)) [1; 2] [L] C;
    [| cbn [app numel fold_right]; lia
     | cbn [app numel fold_right nd_flat]; rewrite length_app; lia ].
  cbn [bind app nd_flat].
  rewrite (@nd_flip_rows A (Nd [1; 2; C; L] (p ++ q)) [1; 2; C] L (rp ++ rq)
             eq_refl HL);
    [| cbn [numel fold_right];
       replace (1 * (2 * (C * 1))) with (C + C) by lia; now apply rows_ok_app
     | cbn [nd_flat]; now rewrite concat_app, Cp, Cq ].
  cbn [bind app].
  rewrite (@nd_cat1_one A (Nd [1; 2; C; L] (p ++ q))
             (Nd [1; 2; C; L] (concat (map (@rev A) (rp ++ rq)))) 2 2 [C; L]
             eq_refl eq_refl)
    by (unfold wf_nd; cbn [nd_flat nd_shape numel fold_right];
        rewrite ?map_app, ?concat_app, ?length_app; lia).
  cbn [bind nd_flat plus].
  rewrite map_app, concat_app; fold F0.
  view_hole (Nd [1; 4; C; L] F0) [1] [L] (4 * C);
    [| cbn [app numel fold_right]; lia
     | cbn [app numel fold_right nd_flat]; lia ].
  cbn [bind app nd_flat]; fold xs.
  (* the scan and the four directions read back *)
  assert (Et : scan xs = Nd [1; 4 * C; L] F).
  { unfold F; destruct (scan xs) as [st Ft]; cbn [nd_shape nd_flat] in *.
    now rewrite St. }
  rewrite Et.
  view_hole (Nd [1; 4 * C; L] F) [1; 4] [L] C;
    [| cbn [app numel fold_right]; lia
     | cbn [app numel fold_right nd_flat]; lia ].
  cbn [bind app nd_flat].
  set (out_y := Nd [1; 4; C; L] F).
  assert (Wout : wf_nd out_y)
    by (unfold wf_nd, out_y; cbn [nd_flat nd_shape numel fold_right]; lia).
  assert (NR : numel [C; L] = C * L) by (cbn [numel fold_right]; lia).
  assert (Sel : forall j, j < 4 ->
             nd_select1 j out_y
             = Ok (Nd [1; C; L] (firstn (C * L) (skipn (j * (C * L)) F)))).
  { intros j Hj.
    rewrite (@nd_select1_one A j 4 out_y [C; L] eq_refl Wout Hj).
    now rewrite NR. }
  rewrite !Sel by lia; fold f0; fold f1; fold f2; fold f3; cbn [bind].
  rewrite !Flip by assumption; fold g2; fold g3; cbn [bind].
  rewrite !View6 by assumption; cbn [bind].
  rewrite Eu1, Eu3; cbn [bind].
  rewrite !View3 by assumption; cbn [bind].
  reflexivity.
Qed.

Lemma W_SS2D_forward_returns {A : Type} (scan : ndarray A -> ndarray A)
      (add : A -> A -> A) (x : ndarray A) (C H W : nat) :
  nd_shape_preserving scan ->
  nd_shape x = [1; C; H; W] -> wf_nd x ->
  2 <= H -> H mod (H / 2) = 0 -> W mod (H / 2) = 0 -> 1 <= W ->
  exists m, W_SS2D_forward scan add x = Returns (Nd [1; C; H; W] m) /\
            length m = numel [1; C; H; W].
Proof.
  intros Hscan Hs Hwf HH EH EW HW.
  destruct (@W_SS2D_forward_core_returns A scan x C H W Hscan Hs Hwf HH EH EW HW)
    as (p & xs & y1 & y2 & y3 & y4 & _ & _ & _ & _ & Ecore & _ & L1 & L2 & L3 & L4).
  cbv zeta in Ecore.
  set (k := H / 2) in *.
  assert (Hk : 1 <= k) by (apply (Nat.div_le_lower_bound H 2 1); lia).
  pose proof (proj2 (Nat.Div0.div_exact H k) EH) as Ha.
  pose proof (proj2 (Nat.Div0.div_exact W k) EW) as Hb.
  unfold W_SS2D_forward; rewrite Hs, Ecore; cbn [outcome_bind]; fold k.
  set (a := H / k) in *; set (b := W / k) in *.
  set (L := H * W) in *.
  assert (EL : L = a * k * (b * k)) by (unfold L; nia).
  unfold nd_add, nd_reshape; cbn [nd_shape nd_flat].
  do 3 (destruct (list_eq_dec Nat.eq_dec [1; C; L] [1; C; L]);
        [|congruence]; cbn [bind nd_shape nd_flat]).
  set (y := map2 add (map2 add (map2 add y1 y2) y3) y4).
  assert (Ly : length y = C * L)
    by (unfold y; rewrite !map2_length; lia).
  view_hole (Nd [1; C; L] y) [1] [k; k; a; b] C;
    [| cbn [app numel fold_right]; nia
     | cbn [app numel fold_right nd_flat]; rewrite Ly, EL; ring ].
  cbn [bind app nd_flat].
  assert (Wy : wf_nd (Nd [1; C; k; k; a; b] y))
    by (unfold wf_nd; cbn [nd_flat nd_shape numel fold_right];
        rewrite Ly, EL; ring).
  destruct (@nd_permute6 A [0; 1; 4; 2; 5; 3] [0; 1; 3; 5; 2; 4]
              (Nd [1; C; k; k; a; b] y) 1 C k k a b eq_refl Wy
              ltac:(cbn [In]; auto)) as (m & Em & Lm & _).
  cbn [map nth] in Em, Lm; rewrite Em; cbn [bind].
  assert (Lm' : length m = numel [1; C; H; W])
    by (rewrite Lm; cbn [numel fold_right]; nia).
  exists m; split; [|exact Lm'].
  view_hole (Nd [1; C; a; k; b; k] m) [1] [H; W] C;
    [reflexivity | cbn [app numel fold_right]; nia | exact Lm'].
Qed.

(** X15: [W_SS2D.forward] on a well-formed tensor of shape (1, C, H, W)
    with W >= 1, whatever the scan computes as long as it keeps the shape of
    the sequences: the call returns exactly when H >= 2, H is even or 3, and
    W is a multiple of H // 2, and what it returns is well formed and has the
    shape of the input.  Unlike [C_SS2D.forward] it accepts grids that are
    not square. *)
Theorem W_SS2D_forward_returns_iff {A : Type} (scan : ndarray A -> ndarray A)
        (add : A -> A -> A) (x : ndarray A) (C H W : nat) :
  nd_shape_preserving scan ->
  nd_shape x = [1; C; H; W] -> wf_nd x -> 1 <= W ->
  ((exists y, W_SS2D_forward scan add x = Returns y) <->
   2 <= H /\ (Nat.even H = true \/ H = 3) /\ W mod (H / 2) = 0) /\
  (forall y, W_SS2D_forward scan add x = Returns y ->
             nd_shape y = [1; C; H; W] /\ wf_nd y).
Proof.
  intros Hscan Hs Hwf HW.
  assert (Nec : forall y, W_SS2D_forward scan add x = Returns y ->
                          2 <= H /\ H mod (H / 2) = 0 /\ W mod (H / 2) = 0).
  { intros y E; unfold W_SS2D_forward, W_SS2D_forward_core in E.
    rewrite Hs in E.
    destruct (Nat.eqb_spec (H / 2) 0) as [K0|K0]; [discriminate|].
    destruct (Nat.eqb_spec (H mod (H / 2)) 0) as [E1|E1];
      [|discriminate].
    destruct (Nat.eqb_spec (W mod (H / 2)) 0) as [E2|E2];
      [|discriminate].
    repeat split; auto.
    destruct (Nat.lt_ge_cases H 2) as [Hlt|]; [|assumption].
    rewrite Nat.div_small in K0 by lia; congruence. }
  split; [split|].
  - intros [y E]; destruct (Nec y E) as (HH & E1 & E2).
    split; [exact HH|]; split; [now apply half_divides | exact E2].
  - intros (HH & E1 & E2); apply (half_divides HH) in E1.
    destruct (@W_SS2D_forward_returns A scan add x C H W Hscan Hs Hwf HH E1 E2 HW)
      as (m & E & _); eauto.
  - intros y E; destruct (Nec y E) as (HH & E1 & E2).
    destruct (@W_SS2D_forward_returns A scan add x C H W Hscan Hs Hwf HH E1 E2 HW)
      as (m & E' & Lm).
    rewrite E' in E; injection E as <-; split; [reflexivity | exact Lm].
Qed.

Lemma W_SS2D_forward_returns_iff_witness :
  let x := Nd [1; 1; 2; 4] [0; 1; 2; 3; 4; 5; 6; 7]%Z in
  ((exists y, W_SS2D_forward (fun t => t) Z.add x = Returns y) <->
   2 <= 2 /\ (Nat.even 2 = true \/ 2 = 3) /\ 4 mod (2 / 2) = 0) /\
  (forall y, W_SS2D_forward (fun t => t) Z.add x = Returns y ->
             nd_shape y = [1; 1; 2; 4] /\ wf_nd y).
Proof.
  apply (@W_SS2D_forward_returns_iff Z (fun t => t) Z.add
           (Nd [1; 1; 2; 4] [0; 1; 2; 3; 4; 5; 6; 7]%Z) 1 2 4);
    [ intros t Ht; auto | reflexivity | reflexivity | lia ].
Defined.

(** X16: the order of the first sequence.  On a well-formed tensor of shape
    (1, C, H, W) that passes the assertion, with kernel = H // 2 and the
    identity for the scan, the first tensor that [forward_core] returns has
    shape (1, C, H * W) and holds, at position
    ((i * kernel + j) * (H // kernel) + a) * (W // kernel) + e of channel c,
    the cell (a * kernel + i, e * kernel + j) of the grid: the sequence
    runs through the offsets (i, j) inside a window, and for each offset
    through the windows (a, e). *)
Theorem W_SS2D_window_order {A : Type} (x : ndarray A) (C H W : nat) :
  nd_shape x = [1; C; H; W] -> wf_nd x ->
  2 <= H -> H mod (H / 2) = 0 -> W mod (H / 2) = 0 -> 1 <= W ->
  let kernel := H / 2 in
  exists lr_y ud_y rl_y du_y,
    W_SS2D_forward_core (fun t => t) x = Returns (lr_y, ud_y, rl_y, du_y) /\
    nd_shape lr_y = [1; C; H * W] /\
    forall c i j a e,
      c < C -> i < kernel -> j < kernel -> a < H / kernel -> e < W / kernel ->
      nd_get lr_y [0; c; ((i * kernel + j) * (H / kernel) + a) * (W / kernel) + e]
      = nd_get x [0; c; a * kernel + i; e * kernel + j].
Proof.
  intros Hs Hwf HH EH EW HW kernel.
  assert (Hid : nd_shape_preserving (fun t : ndarray A => t))
    by (intros t Ht; auto).
  destruct (@W_SS2D_forward_core_returns A (fun t => t) x C H W Hid Hs Hwf
              HH EH EW HW)
    as (p & xs & y1 & y2 & y3 & y4 & Ep & _ & _ & Efirst & Ecore & Ey1 & _).
  cbv zeta in Ep, Ecore; fold kernel in Ep, Ecore.
  rewrite Efirst in Ey1; subst y1.
  change (H mod kernel = 0) in EH; change (W mod kernel = 0) in EW.
  assert (Hk : 1 <= kernel) by (apply (Nat.div_le_lower_bound H 2 1); lia).
  pose proof (proj2 (Nat.Div0.div_exact H kernel) EH) as Ha.
  pose proof (proj2 (Nat.Div0.div_exact W kernel) EW) as Hb.
  set (na := H / kernel) in *; set (nb := W / kernel) in *.
  assert (Hl : length (nd_flat x) = numel [1; C; na; kernel; nb; kernel]).
  { rewrite Hwf, Hs; cbn [numel fold_right]; nia. }
  destruct (@nd_permute6 A [0; 1; 3; 5; 2; 4] [0; 1; 4; 2; 5; 3]
              (Nd [1; C; na; kernel; nb; kernel] (nd_flat x))
              1 C na kernel nb kernel eq_refl Hl ltac:(cbn [In]; auto))
    as (p' & Ep' & _ & Sp); cbn [map nth] in Ep', Sp.
  rewrite Ep in Ep'; injection Ep' as <-.
  do 4 eexists; split; [exact Ecore|]; split; [reflexivity|].
  intros c i j a e Hc Hi Hj Hae Hee.
  assert (V : Forall2 lt [0; c; i; j; a; e] [1; C; kernel; kernel; na; nb])
    by (repeat constructor; assumption).
  specialize (Sp _ V); cbn [nth nd_flat] in Sp.
  unfold nd_get; cbn [nd_shape nd_flat]; rewrite Hs.
  replace (ravel [1; C; H * W]
                 [0; c; ((i * kernel + j) * na + a) * nb + e])
    with (ravel [1; C; kernel; kernel; na; nb] [0; c; i; j; a; e])
    by (cbn [ravel numel fold_right]; rewrite Ha, Hb; ring).
  replace (ravel [1; C; H; W] [0; c; a * kernel + i; e * kernel + j])
    with (ravel [1; C; na; kernel; nb; kernel] [0; c; a; i; e; j])
    by (cbn [ravel numel fold_right]; rewrite Ha, Hb; ring).
  exact Sp.
Qed.

Lemma W_SS2D_window_order_witness :
  exists lr_y ud_y rl_y du_y,
    W_SS2D_forward_core (fun t => t)
      (Nd [1; 1; 2; 4] [0; 1; 2; 3; 4; 5; 6; 7]%Z)
    = Returns (lr_y, ud_y, rl_y, du_y) /\
    nd_shape lr_y = [1; 1; 2 * 4] /\
    forall c i j a e,
      c < 1 -> i < 2 / 2 -> j < 2 / 2 -> a < 2 / (2 / 2) -> e < 4 / (2 / 2) ->
      nd_get lr_y [0; c; ((i * (2 / 2) + j) * (2 / (2 / 2)) + a) * (4 / (2 / 2)) + e]
      = nd_get (Nd [1; 1; 2; 4] [0; 1; 2; 3; 4; 5; 6; 7]%Z)
               [0; c; a * (2 / 2) + i; e * (2 / 2) + j].
Proof.
  apply (@W_SS2D_window_order Z (Nd [1; 1; 2; 4] [0; 1; 2; 3; 4; 5; 6; 7]%Z) 1 2 4);
    [ reflexivity | reflexivity | lia | reflexivity | reflexivity | lia ].
Defined.

Example W_SS2D_forward_example :
  W_SS2D_forward (fun t => t) Z.add
                 (Nd [1; 1; 2; 2] [1; 2; 3; 4]%Z)
  = Returns (Nd [1; 1; 2; 2] [4; 8; 12; 16]%Z).
Proof. vm_compute. reflexivity. Qed.

Example W_SS2D_forward_example_4 :
  W_SS2D_forward (fun t => t) Z.add
                 (Nd [1; 1; 4; 4] [0; 1; 2; 3; 4; 5; 6; 7; 8; 9; 10; 11; 12; 13; 14; 15]%Z)
  = Returns (Nd [1; 1; 4; 4] (map (Z.mul 4) [0; 1; 2; 3; 4; 5; 6; 7; 8; 9; 10; 11; 12; 13; 14; 15]%Z)).
Proof. vm_compute. reflexivity. Qed.

Example W_SS2D_forward_example_2x4 :
  W_SS2D_forward (fun t => t) Z.add
                 (Nd [1; 1; 2; 4] [0; 1; 2; 3; 4; 5; 6; 7]%Z)
  = Returns (Nd [1; 1; 2; 4] [0; 6; 12; 18; 10; 16; 22; 28]%Z).
Proof. vm_compute. reflexivity. Qed.

(** * [DWMAKNetEncoder.__init__] *)

Lemma item_Ok {X : Type} (l : list X) (i : nat) (d : X) :
  i < length l -> item l i = Ok (nth i l d).
Proof.
  intros Hi; unfold item.
  now rewrite (nth_error_nth' l d Hi).
Qed.

Lemma item_Raise {X : Type} (l : list X) (i : nat) :
  length l <= i -> item l i = Raise IndexError.
Proof.
  intros Hi; unfold item.
  now rewrite (proj2 (nth_error_None l i) Hi).
Qed.

Lemma encoder_loop_Ok (shift : nat) (bound : Z) (dims depths dpr : list nat)
      (range : list nat) :
  Forall (fun i => i + shift < length dims /\ i + shift < length depths /\
                   i + shift < length dpr) range ->
  forall layers downsamples,
    encoder_loop shift bound dims depths dpr range layers downsamples
    = Ok (layers ++ map (fun i => BlockArgs (nth (i + shift) dims 0)
                                            (nth (i + shift) depths 0)
                                            (nth (i + shift) dpr 0)) range,
          downsamples ++ map (fun i => nth (i + shift) dims 0)
                             (filter (fun i => (Z.of_nat i <? bound)%Z) range)).
Proof.
  induction 1 as [|i range (H1 & H2 & H3) _ IH]; intros layers downsamples;
    cbn [encoder_loop map filter].
  - now rewrite !app_nil_r.
  - rewrite (@item_Ok _ dims _ 0 H1), (@item_Ok _ depths _ 0 H2), (@item_Ok _ dpr _ 0 H3).
    cbn [bind].
    destruct (Z.of_nat i <? bound)%Z; cbn [bind map];
      rewrite IH, <- !app_assoc; reflexivity.
Qed.

Lemma encoder_loop_Raise (shift : nat) (bound : Z) (dims depths dpr : list nat)
      (range : list nat) :
  Exists (fun i => length dims <= i + shift \/ length depths <= i + shift \/
                   length dpr <= i + shift) range ->
  forall layers downsamples,
    encoder_loop shift bound dims depths dpr range layers downsamples
    = Raise IndexError.
Proof.
  induction range as [|i range IH]; intros Hex layers downsamples;
    [inversion Hex|].
  cbn [encoder_loop].
  destruct (Nat.lt_ge_cases (i + shift) (length dims)) as [H1|H1];
    [|now rewrite (@item_Raise _ dims _ H1)].
  rewrite (@item_Ok _ dims _ 0 H1); cbn [bind].
  destruct (Nat.lt_ge_cases (i + shift) (length depths)) as [H2|H2];
    [|now rewrite (@item_Raise _ depths _ H2)].
  rewrite (@item_Ok _ depths _ 0 H2); cbn [bind].
  destruct (Nat.lt_ge_cases (i + shift) (length dpr)) as [H3|H3];
    [|now rewrite (@item_Raise _ dpr _ H3)].
  rewrite (@item_Ok _ dpr _ 0 H3); cbn [bind].
  apply Exists_cons in Hex; destruct Hex as [Hi|Hex]; [lia|].
  destruct (Z.of_nat i <? bound)%Z; cbn [bind]; now apply IH.
Qed.

Lemma filter_seq_below (n : nat) :
  filter (fun i => (Z.of_nat i <? Z.of_nat n)%Z) (seq 0 n) = seq 0 n.
Proof.
  apply forallb_filter_id, forallb_forall; intros i Hi.
  apply in_seq in Hi; apply Z.ltb_lt; lia.
Qed.

Lemma filter_seq_last (n : nat) :
  filter (fun i => (Z.of_nat i <? Z.of_nat n - 1)%Z) (seq 0 n) = seq 0 (n - 1).
Proof.
  destruct n as [|n]; [reflexivity|].
  replace (S n - 1) with n by lia.
  rewrite seq_S, filter_app; cbn [filter plus].
  destruct (Z.ltb_spec (Z.of_nat n) (Z.of_nat (S n) - 1)); [lia|].
  rewrite app_nil_r.
  apply forallb_filter_id, forallb_forall; intros i Hi.
  apply in_seq in Hi; apply Z.ltb_lt; lia.
Qed.

Lemma seq_add (a b n : nat) :
  map (fun i => i + b) (seq a n) = seq (a + b) n.
Proof.
  revert a; induction n as [|n IH]; intros a; cbn [seq map]; [reflexivity|].
  now rewrite IH.
Qed.

Lemma seq_from_2 (n : nat) : seq 2 n = map (fun i => i + 2) (seq 0 n).
Proof. now rewrite seq_add. Qed.

(** X17: what [DWMAKNetEncoder.__init__] builds.  With
    n = len(depths) // 2 and dims = feat_size[2:], all the list reads of the
    constructor succeed exactly when feat_size has at least three entries
    and either n = 0 or dims, depths and dpr (of length sum(depths)) all
    have at least n + 2 entries; otherwise it raises [IndexError] (so it
    does for two depths).  When they succeed there are 2n stages and 2n - 1
    downsamplings; stage s reads position s of the three lists for s < n,
    but position s - n + 2 for s >= n, and a downsampling follows every
    stage but the last. *)
Theorem DWMAKNetEncoder_init_outcome (depths feat_size : list nat) :
  let n := length depths / 2 in
  let dims := skipn 2 feat_size in
  let fits :=
    3 <= length feat_size /\
    (n = 0 \/ (n + 2 <= length dims /\ n + 2 <= length depths /\
               n + 2 <= list_sum depths)) in
  (fits ->
   exists e,
     DWMAKNetEncoder_init depths feat_size = Ok e /\
     enc_num_layers e = n /\
     enc_layers e
     = map (fun s => BlockArgs (nth s dims 0) (nth s depths 0) s)
           (seq 0 n ++ seq 2 n) /\
     enc_downsamples e = map (fun s => nth s dims 0) (seq 0 n ++ seq 2 (n - 1)) /\
     length (enc_layers e) = 2 * n /\
     length (enc_downsamples e) = 2 * n - 1) /\
  (~ fits -> DWMAKNetEncoder_init depths feat_size = Raise IndexError).
Proof.
  intros n dims fits; unfold fits; clear fits.
  assert (Ldpr : length (seq 0 (list_sum depths)) = list_sum depths)
    by apply length_seq.
  assert (Ldims : length dims = length feat_size - 2)
    by (unfold dims; apply length_skipn).
  split.
  - intros [Hf Hn].
    assert (All : forall shift, shift <= 2 ->
               Forall (fun i => i + shift < length dims /\
                                i + shift < length depths /\
                                i + shift < length (seq 0 (list_sum depths)))
                      (seq 0 n)).
    { intros shift Hs; apply Forall_forall; intros i Hi.
      apply in_seq in Hi; rewrite Ldpr.
      destruct Hn as [Hn|Hn]; lia. }
    unfold DWMAKNetEncoder_init; fold n; fold dims.
    rewrite (@item_Ok _ feat_size 1 0), (@item_Ok _ feat_size 2 0) by lia.
    cbn [bind].
    rewrite (@encoder_loop_Ok 0 (Z.of_nat n) dims depths _ (seq 0 n)
               (All 0 (Nat.le_0_l 2)));
      cbn [bind fst snd app].
    rewrite (@encoder_loop_Ok 2 (Z.of_nat n - 1) dims depths _ (seq 0 n)
               (All 2 (le_n 2)));
      cbn [bind fst snd].
    eexists; split; [reflexivity|]; cbn [enc_num_layers enc_layers enc_downsamples].
    rewrite filter_seq_below, filter_seq_last.
    assert (E1 : map (fun i => BlockArgs (nth (i + 0) dims 0) (nth (i + 0) depths 0)
                                         (nth (i + 0) (seq 0 (list_sum depths)) 0))
                     (seq 0 n)
                 = map (fun s => BlockArgs (nth s dims 0) (nth s depths 0) s)
                       (seq 0 n)).
    { apply map_ext_in; intros i Hi; apply in_seq in Hi.
      rewrite Nat.add_0_r, seq_nth; [reflexivity|].
      destruct Hn as [Hn|Hn]; lia. }
    assert (E2 : map (fun i => BlockArgs (nth (i + 2) dims 0) (nth (i + 2) depths 0)
                                         (nth (i + 2) (seq 0 (list_sum depths)) 0))
                     (seq 0 n)
                 = map (fun s => BlockArgs (nth s dims 0) (nth s depths 0) s)
                       (seq 2 n)).
    { rewrite seq_from_2, map_map; apply map_ext_in; intros i Hi.
      apply in_seq in Hi; rewrite seq_nth; [reflexivity|].
      destruct Hn as [Hn|Hn]; lia. }
    assert (E3 : map (fun i => nth (i + 0) dims 0) (seq 0 n)
                 = map (fun s => nth s dims 0) (seq 0 n))
      by (apply map_ext; intros i; now rewrite Nat.add_0_r).
    assert (E4 : map (fun i => nth (i + 2) dims 0) (seq 0 (n - 1))
                 = map (fun s => nth s dims 0) (seq 2 (n - 1)))
      by now rewrite seq_from_2, map_map.
    rewrite E1, E2, E3, E4, <- !map_app.
    repeat split; rewrite length_map, length_app, !length_seq; lia.
  - intros Hnot.
    unfold DWMAKNetEncoder_init; fold n; fold dims.
    destruct (Nat.lt_ge_cases 1 (length feat_size)) as [H1|H1];
      [|now rewrite (@item_Raise _ feat_size _ H1)].
    rewrite (@item_Ok _ feat_size _ 0 H1); cbn [bind].
    destruct (Nat.lt_ge_cases 2 (length feat_size)) as [H2|H2];
      [|now rewrite (@item_Raise _ feat_size _ H2)].
    rewrite (@item_Ok _ feat_size _ 0 H2); cbn [bind].
    assert (Hn : 1 <= n) by (destruct (Nat.eq_dec n 0); [exfalso|]; lia).
    assert (Hbad : length dims < n + 2 \/ length depths < n + 2 \/
                   list_sum depths < n + 2) by lia.
    destruct (Nat.le_gt_cases n (length dims)) as [A1|A1];
      [destruct (Nat.le_gt_cases n (length depths)) as [A2|A2];
       [destruct (Nat.le_gt_cases n (list_sum depths)) as [A3|A3]|]|].
    + rewrite encoder_loop_Ok
        by (apply Forall_forall; intros i Hi; apply in_seq in Hi;
            rewrite Ldpr; lia).
      cbn [bind fst snd].
      rewrite encoder_loop_Raise; [reflexivity|].
      apply Exists_exists; exists (n - 1); split; [apply in_seq; lia|].
      rewrite Ldpr; lia.
    + rewrite encoder_loop_Raise; [reflexivity|].
      apply Exists_exists; exists (n - 1); split; [apply in_seq; lia|].
      rewrite Ldpr; lia.
    + rewrite encoder_loop_Raise; [reflexivity|].
      apply Exists_exists; exists (n - 1); split; [apply in_seq; lia|].
      rewrite Ldpr; lia.
    + rewrite encoder_loop_Raise; [reflexivity|].
      apply Exists_exists; exists (n - 1); split; [apply in_seq; lia|].
      rewrite Ldpr; lia.
Qed.

Example DWMAKNetEncoder_init_default :
  DWMAKNetEncoder_init [1; 2; 2; 2] [24; 48; 96; 192; 384; 768]
  = Ok (EncoderModules 2
          [BlockArgs 96 1 0; BlockArgs 192 2 1; BlockArgs 384 2 2; BlockArgs 768 2 3]
          [96; 192; 384]).
Proof. reflexivity. Qed.

Example DWMAKNetEncoder_init_two_depths :
  DWMAKNetEncoder_init [4; 4] [24; 48; 96; 192; 384; 768] = Raise IndexError.
Proof. reflexivity. Qed.

(** * The skips of the network *)

Lemma encoder_stages_length {T : Type} (net : encoder_net T)
      (layers : list (T -> result T)) :
  forall s x x_ret out,
    encoder_stages net s layers x x_ret = Ok out ->
    length out = length x_ret + length layers /\
    firstn (length x_ret) out = x_ret.
Proof.
  induction layers as [|layer rest IH]; intros s x x_ret out E;
    cbn [encoder_stages] in E.
  - injection E as <-; split; [cbn; lia | apply firstn_all].
  - apply bind_Ok in E; destruct E as (x1 & _ & E).
    apply bind_Ok in E; destruct E as (x2 & _ & E).
    apply IH in E; destruct E as [El Ef].
    rewrite length_app in El, Ef; cbn [length] in *; split; [lia|].
    replace (length x_ret) with (Nat.min (length x_ret) (length x_ret + 1)) by lia.
    rewrite <- firstn_firstn, Ef, firstn_app, Nat.sub_diag, firstn_all.
    apply app_nil_r.
Qed.

Lemma item_neg_Ok {X : Type} (l : list X) (k : nat) (v : X) :
  item_neg l k = Ok v -> k <= length l.
Proof.
  unfold item_neg; destruct (Nat.leb_spec k (length l)); [auto | discriminate].
Qed.

Lemma item_neg_app {X : Type} (pre l : list X) (k : nat) :
  1 <= k -> k <= length l -> item_neg (pre ++ l) k = item_neg l k.
Proof.
  intros H1 Hk; unfold item_neg, item; rewrite length_app.
  destruct (Nat.leb_spec k (length pre + length l)); [|lia].
  destruct (Nat.leb_spec k (length l)); [|lia].
  rewrite nth_error_app2 by lia.
  replace (length pre + length l - k - length pre) with (length l - k) by lia.
  reflexivity.
Qed.

Lemma decoder_needs_six {T : Type} (net : decoder_net T)
      (deep_supervision : bool) (skips : list T) (r : T + list T) :
  DWMAKNetDecoder_forward net deep_supervision skips = Ok r ->
  6 <= length skips.
Proof.
  intros E; unfold DWMAKNetDecoder_forward in E.
  do 9 (apply bind_Ok in E; destruct E as (? & _ & E)).
  apply bind_Ok in E; destruct E as (last & E1 & E).
  unfold decoder_stage in E1.
  apply bind_Ok in E1; destruct E1 as (u & _ & E1).
  apply bind_Ok in E1; destruct E1 as (skip & Es & _).
  exact (item_neg_Ok _ _ Es).
Qed.

(** X18: [DWMAKNetDecoder.forward], whatever its sub-modules compute.  If
    it returns, it was given at least six skips; with deep supervision it
    returns a list of exactly four outputs, without it a single tensor; and
    it reads the last six skips only: skips put in front of them change
    nothing. *)
Theorem DWMAKNetDecoder_reads_six_skips {T : Type} (net : decoder_net T)
        (deep_supervision : bool) (skips : list T) :
  (forall r, DWMAKNetDecoder_forward net deep_supervision skips = Ok r ->
             6 <= length skips /\
             if deep_supervision
             then exists o0 o1 o2 o3, r = inr [o0; o1; o2; o3]
             else exists o, r = inl o) /\
  (6 <= length skips ->
   forall more,
     DWMAKNetDecoder_forward net deep_supervision (more ++ skips)
     = DWMAKNetDecoder_forward net deep_supervision skips).
Proof.
  split.
  - intros r E; split; [exact (decoder_needs_six _ _ _ E)|].
    unfold DWMAKNetDecoder_forward in E.
    do 10 (apply bind_Ok in E; destruct E as (? & _ & E)).
    apply bind_Ok in E; destruct E as (segs & Esegs & E).
    apply bind_Ok in E; destruct E as (final & _ & E).
    destruct deep_supervision; cbn [negb] in E.
    + cbn [mapM] in Esegs.
      apply bind_Ok in Esegs; destruct Esegs as (o0 & _ & Esegs).
      apply bind_Ok in Esegs; destruct Esegs as (t0 & Esegs & Eq0).
      apply bind_Ok in Esegs; destruct Esegs as (o1 & _ & Esegs).
      apply bind_Ok in Esegs; destruct Esegs as (t1 & Esegs & Eq1).
      apply bind_Ok in Esegs; destruct Esegs as (o2 & _ & Esegs).
      apply bind_Ok in Esegs; destruct Esegs as (t2 & Esegs & Eq2).
      injection Esegs as <-; injection Eq2 as <-; injection Eq1 as <-;
        injection Eq0 as <-.
      injection E as <-; cbn [app rev]; eauto.
    + apply bind_Ok in E; destruct E as (o & _ & E).
      injection E as <-; eauto.
  - intros H6 more; unfold DWMAKNetDecoder_forward, decoder_stage.
    now rewrite !(@item_neg_app T more skips) by (cbn; lia).
Qed.

(** X19: the skips of [DWMAKNet.forward], whatever the sub-modules compute.
    When [DWMAKNetEncoder.forward] returns, it returns
    len(self.layers) + 2 tensors, the first of which is its input; and when
    the whole network returns, the encoder has at least four stages.  With
    exactly four stages (the configuration of [get_dwmaknet_from_plans]) the
    skip [skips[-6]] of the last decoder stage is the input image itself. *)
Theorem DWMAKNet_skips {T : Type} (encoder : encoder_net T)
        (decoder : decoder_net T) (deep_supervision : bool) (x : T) :
  (forall skips,
      DWMAKNetEncoder_forward encoder x = Ok skips ->
      length skips = length (en_layers encoder) + 2 /\
      item skips 0 = Ok x /\
      (length (en_layers encoder) = 4 -> item_neg skips 6 = Ok x)) /\
  (forall r,
      DWMAKNet_forward encoder decoder deep_supervision x = Ok r ->
      4 <= length (en_layers encoder)).
Proof.
  assert (Enc : forall skips,
             DWMAKNetEncoder_forward encoder x = Ok skips ->
             length skips = length (en_layers encoder) + 2 /\
             item skips 0 = Ok x).
  { intros skips E; unfold DWMAKNetEncoder_forward in E.
    apply bind_Ok in E; destruct E as (x1 & _ & E).
    apply bind_Ok in E; destruct E as (x2 & _ & E).
    apply encoder_stages_length in E; cbn [app length] in E.
    destruct E as [El Ef]; split; [lia|].
    destruct skips as [|a skips]; [discriminate|].
    injection Ef as -> _; reflexivity. }
  split.
  - intros skips E; destruct (Enc skips E) as [El E0].
    split; [exact El|]; split; [exact E0|].
    intros H4; unfold item_neg; rewrite El, H4; cbn [Nat.leb plus Nat.sub].
    exact E0.
  - intros r E; unfold DWMAKNet_forward in E.
    apply bind_Ok in E; destruct E as (skips & Es & E).
    destruct (Enc skips Es) as [El _].
    pose proof (decoder_needs_six _ _ _ E); lia.
Qed.

(** A network of four stages whose sub-modules count their calls: every
    module adds one to the number it is given and a fusion adds its two
    arguments. *)
Example DWMAKNet_forward_example :
  let step := fun n : nat => Ok (S n) in
  let encoder := EncoderNet step step (fun n => n) [step; step; step; step]
                            [step; step; step] in
  let decoder := DecoderNet step (fun _ a b => Ok (a + b)) (fun _ => step)
                            (fun _ n => Ok n) [step; step; step; step] in
  DWMAKNetEncoder_forward encoder 0 = Ok [0; 1; 3; 5; 7; 9] /\
  DWMAKNet_forward encoder decoder true 0 = Ok (inr [36; 34; 31; 26]) /\
  DWMAKNet_forward encoder decoder false 0 = Ok (inl 36).
Proof. repeat split. Qed.
